(** * Pyramid (Match-13) Solitaire: the game engine of [pyramid.py]

    A shallow embedding of [Card], [Deck], [Pyramid] and [GameState] and
    the properties of the move engine: undo round trips, the card-count
    invariants, redeal order, failure atomicity, legal-move detection,
    exposure, determinism of seeded deals.

    Python lists are Rocq lists in the same order (the top of a pile is the
    LAST element, as [list.pop()] and [list.append()] have it); Python
    integers are [Z]; list indexing follows Python (negative indices count
    from the end, anything else out of range raises [IndexError]); code that
    can raise returns a [result]. *)

From stdpp Require Import base tactics option list numbers strings.
From Stdlib Require Import ZArith Lia.

Open Scope Z_scope.

(** ** Exceptions and the error monad *)

Inductive exn := IndexError | AssertionError.

Inductive result (A : Type) :=
| Ok (a : A)
| Raise (e : exn).
Arguments Ok {A} a.
Arguments Raise {A} e.

Definition result_bind {A B} (f : A -> result B) (m : result A) : result B :=
  match m with
  | Ok a => f a
  | Raise e => Raise e
  end.

#[global] Instance result_mbind : MBind result := @result_bind.
#[global] Instance result_mret : MRet result := @Ok.

(** ** Python list primitives *)

(** The position a Python index denotes in a list of length [len]. *)
Definition py_norm (len : nat) (i : Z) : option nat :=
  if (0 <=? i) && (i <? Z.of_nat len) then Some (Z.to_nat i)
  else if (- Z.of_nat len <=? i) && (i <? 0) then Some (Z.to_nat (Z.of_nat len + i))
  else None.

(** [l[i]] *)
Definition getitem {A} (l : list A) (i : Z) : result A :=
  match py_norm (length l) i with
  | Some n => match l !! n with Some x => Ok x | None => Raise IndexError end
  | None => Raise IndexError
  end.

(** [l[i] = x] *)
Definition setitem {A} (l : list A) (i : Z) (x : A) : result (list A) :=
  match py_norm (length l) i with
  | Some n => Ok (<[n:=x]> l)
  | None => Raise IndexError
  end.

(** [l.pop()] on a list that may be empty: the last element and the rest. *)
Definition py_pop {A} (l : list A) : option (A * list A) :=
  match rev l with
  | [] => None
  | x :: r => Some (x, rev r)
  end.

(** [l[-1]] *)
Definition py_top {A} (l : list A) : option A := fst <$> py_pop l.

(** [g[row][col]] and [g[row][col] = x] on a list of lists. *)
Definition grid_get {A} (g : list (list A)) (row col : Z) : result A :=
  r ← getitem g row; getitem r col.

Definition grid_set {A} (g : list (list A)) (row col : Z) (x : A)
  : result (list (list A)) :=
  r ← getitem g row; r' ← setitem r col x; setitem g row r'.

(** [enumerate(l)] *)
Definition enumerate {A} (l : list A) : list (Z * A) :=
  imap (fun i x => (Z.of_nat i, x)) l.

(** ** Cards *)

Inductive Rank := RA | R2 | R3 | R4 | R5 | R6 | R7 | R8 | R9 | R10 | RJ | RQ | RK.
Inductive Suit := SC | SD | SH | SS.

Definition RANKS : list Rank := [RA; R2; R3; R4; R5; R6; R7; R8; R9; R10; RJ; RQ; RK].
Definition SUITS : list Suit := [SC; SD; SH; SS].

Definition VALUES (r : Rank) : Z :=
  match r with
  | RA => 1 | R2 => 2 | R3 => 3 | R4 => 4 | R5 => 5 | R6 => 6 | R7 => 7
  | R8 => 8 | R9 => 9 | R10 => 10 | RJ => 11 | RQ => 12 | RK => 13
  end.

Record Card := mkCard { rank : Rank; suit : Suit }.

Definition value (c : Card) : Z := VALUES (rank c).

#[global] Instance Rank_eq_dec : EqDecision Rank.
Proof. solve_decision. Defined.
#[global] Instance Suit_eq_dec : EqDecision Suit.
Proof. solve_decision. Defined.
#[global] Instance Card_eq_dec : EqDecision Card.
Proof. solve_decision. Defined.

(** ** Pyramid *)

Record Pyramid := mkPyramid {
  rows : list (list (option Card));
  removed : list (list bool)
}.

(** One row of the constructor: [row_length] times [next(iterator, None)]. *)
Fixpoint fill_row (row_length : nat) (iterator : list Card)
  : list (option Card) * list Card :=
  match row_length with
  | O => ([], iterator)
  | S k =>
      match iterator with
      | [] => let '(row, it) := fill_row k [] in (None :: row, it)
      | c :: it0 => let '(row, it) := fill_row k it0 in (Some c :: row, it)
      end
  end.

Fixpoint fill_rows (row_lengths : list nat) (iterator : list Card)
  : list (list (option Card)) :=
  match row_lengths with
  | [] => []
  | n :: ns => let '(row, it) := fill_row n iterator in row :: fill_rows ns it
  end.

Definition Pyramid_init (cards : list Card) : Pyramid :=
  let rows := fill_rows (seq 1 7) cards in
  {| rows := rows; removed := map (map (fun _ => false)) rows |}.

Definition card_at (p : Pyramid) (row col : Z) : result (option Card) :=
  grid_get (rows p) row col.

Definition remove_card (p : Pyramid) (row col : Z) : result (option Card * Pyramid) :=
  card ← grid_get (rows p) row col;
  match card with
  | Some _ =>
      rows' ← grid_set (rows p) row col None;
      removed' ← grid_set (removed p) row col true;
      Ok (card, {| rows := rows'; removed := removed' |})
  | None => Ok (card, p)
  end.

Definition restore_card (p : Pyramid) (row col : Z) (card : Card) : result Pyramid :=
  rows' ← grid_set (rows p) row col (Some card);
  removed' ← grid_set (removed p) row col false;
  Ok {| rows := rows'; removed := removed' |}.

Definition is_exposed (p : Pyramid) (row col : Z) : result bool :=
  here ← grid_get (rows p) row col;
  match here with
  | None => Ok false
  | Some _ =>
      if row =? Z.of_nat (length (rows p)) - 1 then Ok true
      else
        left ← grid_get (rows p) (row + 1) col;
        match left with
        | Some _ => Ok false
        | None =>
            right ← grid_get (rows p) (row + 1) (col + 1);
            Ok (bool_decide (right = None))
        end
  end.

Definition all_cards (p : Pyramid) : list (Z * Z * option Card) :=
  concat (map (fun '(r, row) => map (fun '(c, card) => (r, c, card)) (enumerate row))
              (enumerate (rows p))).

(** ** Moves and the game state *)

(** A location is the tuple [(loc_type, a, b)] of the source. *)
Definition Location : Type := string * Z * Z.

(** [Move(type, payload)]: one constructor per move type the engine records,
    carrying that type's payload entries. *)
Inductive Move :=
| MDraw (card : Card)
| MRemoveKingPyramid (row col : Z) (card : Card)
| MRemoveKingWaste (card : Card)
| MRemovePair (cards : list (string * Z * Z * Card))
| MRedeal (stock_before waste_before : list Card).

Record GameState := mkGameState {
  seed : option Z;
  max_redeals : Z;
  history : list Move;
  pyramid : Pyramid;
  stock : list Card;
  waste : list Card;
  removed_count : Z;
  redeals_used : Z
}.

Definition set_history (s : GameState) (h : list Move) : GameState :=
  {| seed := seed s; max_redeals := max_redeals s; history := h;
     pyramid := pyramid s; stock := stock s; waste := waste s;
     removed_count := removed_count s; redeals_used := redeals_used s |}.

Definition set_waste (s : GameState) (w : list Card) : GameState :=
  {| seed := seed s; max_redeals := max_redeals s; history := history s;
     pyramid := pyramid s; stock := stock s; waste := w;
     removed_count := removed_count s; redeals_used := redeals_used s |}.

Definition set_stock (s : GameState) (st : list Card) : GameState :=
  {| seed := seed s; max_redeals := max_redeals s; history := history s;
     pyramid := pyramid s; stock := st; waste := waste s;
     removed_count := removed_count s; redeals_used := redeals_used s |}.

Definition set_redeals_used (s : GameState) (n : Z) : GameState :=
  {| seed := seed s; max_redeals := max_redeals s; history := history s;
     pyramid := pyramid s; stock := stock s; waste := waste s;
     removed_count := removed_count s; redeals_used := n |}.

Definition set_pyramid (s : GameState) (p : Pyramid) (n : Z) : GameState :=
  {| seed := seed s; max_redeals := max_redeals s; history := history s;
     pyramid := p; stock := stock s; waste := waste s;
     removed_count := n; redeals_used := redeals_used s |}.

Definition history_append (s : GameState) (m : Move) : GameState :=
  set_history s (history s ++ [m]).

Definition card_exposed (s : GameState) (location : Location) : result bool :=
  let '(loc_type, a, b) := location in
  if String.eqb loc_type "pyramid" then is_exposed (pyramid s) a b
  else if String.eqb loc_type "waste" then
    Ok (negb (bool_decide (waste s = [])) && (a =? Z.of_nat (length (waste s)) - 1))
  else Ok false.

Definition remove_pyramid_card (s : GameState) (row col : Z)
  : result (option Card * GameState) :=
  '(card, p) ← remove_card (pyramid s) row col;
  match card with
  | Some _ => Ok (card, set_pyramid s p (removed_count s + 1))
  | None => Ok (card, set_pyramid s p (removed_count s))
  end.

Definition restore_pyramid_card (s : GameState) (row col : Z) (card : Card)
  : result GameState :=
  p ← restore_card (pyramid s) row col card;
  Ok (set_pyramid s p (removed_count s - 1)).

Definition draw (s : GameState) : result (bool * GameState) :=
  match py_pop (stock s) with
  | None => Ok (false, s)
  | Some (card, stock') =>
      let s := set_stock s stock' in
      let s := set_waste s (waste s ++ [card]) in
      let s := history_append s (MDraw card) in
      Ok (true, s)
  end.

Definition undo_draw (s : GameState) (card : Card) : result GameState :=
  match py_pop (waste s) with
  | Some (top, waste') =>
      if bool_decide (top = card) then
        let s := set_waste s waste' in
        Ok (set_stock s (stock s ++ [card]))
      else Raise AssertionError
  | None => Raise AssertionError
  end.

Definition remove_king (s : GameState) (location : Location)
  : result (bool * GameState) :=
  let '(loc_type, a, b) := location in
  if String.eqb loc_type "pyramid" then
    card ← card_at (pyramid s) a b;
    match card with
    | Some c =>
        if value c =? 13 then
          e ← is_exposed (pyramid s) a b;
          if (e : bool) then
            '(removed_card, s) ← remove_pyramid_card s a b;
            Ok (true, history_append s (MRemoveKingPyramid a b c))
          else Ok (false, s)
        else Ok (false, s)
    | None => Ok (false, s)
    end
  else if String.eqb loc_type "waste" && negb (bool_decide (waste s = [])) then
    match py_pop (waste s) with
    | Some (top, waste') =>
        if value top =? 13 then
          let s := set_waste s waste' in
          Ok (true, history_append s (MRemoveKingWaste top))
        else Ok (false, s)
    | None => Ok (false, s)
    end
  else Ok (false, s).

Definition get_card (s : GameState) (location : Location) : result (option Card) :=
  let '(loc_type, a, b) := location in
  if String.eqb loc_type "pyramid" then card_at (pyramid s) a b
  else if String.eqb loc_type "waste" then
    if negb (bool_decide (waste s = [])) && (a =? Z.of_nat (length (waste s)) - 1)
    then Ok (py_top (waste s))
    else Ok None
  else Ok None.

(** The body of the removal loop of [remove_pair] for one location. *)
Definition remove_location (s : GameState) (location : Location)
    (removed_cards : list (string * Z * Z * Card))
  : result (GameState * list (string * Z * Z * Card)) :=
  let '(loc_type, a, b) := location in
  if String.eqb loc_type "pyramid" then
    '(card, s) ← remove_pyramid_card s a b;
    match card with
    | Some c => Ok (s, removed_cards ++ [(loc_type, a, b, c)])
    | None => Ok (s, removed_cards)
    end
  else if String.eqb loc_type "waste" && negb (bool_decide (waste s = [])) then
    match py_pop (waste s) with
    | Some (c, waste') => Ok (set_waste s waste', removed_cards ++ [(loc_type, a, b, c)])
    | None => Ok (s, removed_cards)
    end
  else Ok (s, removed_cards).

(** The restoring loop shared by the rollback of [remove_pair] and by [undo]:
    [cards] is already in the order it is traversed. *)
Fixpoint restore_cards (s : GameState) (cards : list (string * Z * Z * Card))
  : result GameState :=
  match cards with
  | [] => Ok s
  | (loc_type, a, b, card) :: rest =>
      if String.eqb loc_type "pyramid" then
        s ← restore_pyramid_card s a b card; restore_cards s rest
      else if String.eqb loc_type "waste" then
        restore_cards (set_waste s (waste s ++ [card])) rest
      else restore_cards s rest
  end.

Definition remove_pair (s : GameState) (first second : Location)
  : result (bool * GameState) :=
  if bool_decide (first = second) then Ok (false, s) else
  card_a ← get_card s first;
  card_b ← get_card s second;
  match card_a, card_b with
  | Some ca, Some cb =>
      if negb (value ca + value cb =? 13) then Ok (false, s) else
      exposed_a ← card_exposed s first;
      if negb (exposed_a : bool) then Ok (false, s) else
      exposed_b ← card_exposed s second;
      if negb (exposed_b : bool) then Ok (false, s) else
      '(s1, removed_cards) ← remove_location s first [];
      '(s2, removed_cards) ← remove_location s1 second removed_cards;
      if negb (length removed_cards =? 2)%nat then
        s3 ← restore_cards s2 (rev removed_cards); Ok (false, s3)
      else Ok (true, history_append s2 (MRemovePair removed_cards))
  | _, _ => Ok (false, s)
  end.

Definition undo (s : GameState) : result (bool * GameState) :=
  match py_pop (history s) with
  | None => Ok (false, s)
  | Some (move, h) =>
      let s := set_history s h in
      match move with
      | MDraw card => s ← undo_draw s card; Ok (true, s)
      | MRemoveKingPyramid row col card =>
          s ← restore_pyramid_card s row col card; Ok (true, s)
      | MRemoveKingWaste card => Ok (true, set_waste s (waste s ++ [card]))
      | MRemovePair cards => s ← restore_cards s (rev cards); Ok (true, s)
      | MRedeal stock_before waste_before =>
          let s := set_stock s stock_before in
          let s := set_waste s waste_before in
          Ok (true, set_redeals_used s (redeals_used s - 1))
      end
  end.

Definition redeal (s : GameState) : result (bool * GameState) :=
  if redeals_used s >=? max_redeals s then Ok (false, s)
  else if bool_decide (waste s = []) then Ok (false, s)
  else
    let stock_before := stock s in
    let waste_before := waste s in
    let s := set_stock s (stock s ++ rev (waste s)) in
    let s := set_waste s [] in
    let s := set_redeals_used s (redeals_used s + 1) in
    Ok (true, history_append s (MRedeal stock_before waste_before)).

Definition has_won (s : GameState) : bool := removed_count s >=? 28.

(** The scan of the pyramid in [legal_moves_remaining]: [None] when the loop
    returns [True] at an exposed King, otherwise the values collected. *)
Fixpoint scan_pyramid (p : Pyramid) (cells : list (Z * Z * option Card))
    (exposed_cards : list Z) : result (option (list Z)) :=
  match cells with
  | [] => Ok (Some exposed_cards)
  | (r, c, card) :: rest =>
      match card with
      | Some cd =>
          e ← is_exposed p r c;
          if (e : bool) then
            if value cd =? 13 then Ok None
            else scan_pyramid p rest (exposed_cards ++ [value cd])
          else scan_pyramid p rest exposed_cards
      | None => scan_pyramid p rest exposed_cards
      end
  end.

(** The nested loop over [i < j]: [values[j]] for [j > i] is the rest of the list. *)
Fixpoint pair_sums_13 (values : list Z) : bool :=
  match values with
  | [] => false
  | val :: rest => existsb (fun w => val + w =? 13) rest || pair_sums_13 rest
  end.

Definition legal_moves_remaining (s : GameState) : result bool :=
  if negb (bool_decide (stock s = []))
     || (negb (bool_decide (waste s = [])) && (redeals_used s <? max_redeals s))
  then Ok true
  else
    scanned ← scan_pyramid (pyramid s) (all_cards (pyramid s)) [];
    match scanned with
    | None => Ok true
    | Some exposed_cards =>
        match py_top (waste s) with
        | Some card =>
            if value card =? 13 then Ok true
            else Ok (pair_sums_13 (exposed_cards ++ [value card]))
        | None => Ok (pair_sums_13 exposed_cards)
        end
    end.

(** The commands of the engine that report success as a boolean. *)
Inductive Command :=
| CDraw
| CRemoveKing (location : Location)
| CRemovePair (first second : Location)
| CRedeal
| CUndo.

Definition exec (cmd : Command) (s : GameState) : result (bool * GameState) :=
  match cmd with
  | CDraw => draw s
  | CRemoveKing location => remove_king s location
  | CRemovePair first second => remove_pair s first second
  | CRedeal => redeal s
  | CUndo => undo s
  end.

(** ** Deck, construction and reset

    [random.Random] is CPython's, not this repository's: the generator is a
    parameter. [Random_seed z] is the generator [random.Random(z)] builds from
    an integer seed; [random.Random(None)] seeds itself from the operating
    system, so the generator it yields is an input of the call ([os] below);
    [shuffle g l] is the order [g.shuffle] leaves the list [l] in. *)
Section Engine.

Variable RandomState : Type.
Variable Random_seed : Z -> RandomState.
Variable shuffle : RandomState -> list Card -> list Card.

Definition Random (seed : option Z) (os : RandomState) : RandomState :=
  match seed with
  | Some z => Random_seed z
  | None => os
  end.

(** [Deck(seed)]: the list [cards] after the constructor has shuffled it. *)
Definition Deck_init (seed : option Z) (os : RandomState) : list Card :=
  let random := Random seed os in
  let cards := flat_map (fun suit => map (fun rank => mkCard rank suit) RANKS) SUITS in
  shuffle random cards.

(** [deck.deal()] *)
Definition deal (cards : list Card) : result (Card * list Card) :=
  match py_pop cards with
  | Some r => Ok r
  | None => Raise IndexError
  end.

(** [[deck.deal() for _ in range(n)]] and the cards left in the deck. *)
Fixpoint deal_many (n : nat) (cards : list Card) : result (list Card * list Card) :=
  match n with
  | O => Ok ([], cards)
  | S k =>
      '(c, cards) ← deal cards;
      '(cs, cards) ← deal_many k cards;
      Ok (c :: cs, cards)
  end.

Definition reset (s : GameState) (os : RandomState) : result GameState :=
  let deck := Deck_init (seed s) os in
  '(pyramid_cards, deck) ← deal_many 28 deck;
  Ok {| seed := seed s; max_redeals := max_redeals s; history := [];
        pyramid := Pyramid_init pyramid_cards; stock := deck; waste := [];
        removed_count := 0; redeals_used := 0 |}.

(** [GameState(seed, max_redeals)]: the constructor assigns [seed],
    [max_redeals] and an empty [history], then calls [reset], which assigns
    every other attribute (they hold placeholders until then). *)
Definition GameState_init (seed : option Z) (max_redeals : Z) (os : RandomState)
  : result GameState :=
  reset {| seed := seed; max_redeals := max_redeals; history := [];
           pyramid := {| rows := []; removed := [] |}; stock := []; waste := [];
           removed_count := 0; redeals_used := 0 |} os.

(** States reachable from construction through the public operations. *)
Inductive reachable : GameState -> Prop :=
| reach_init seed max_redeals os s :
    GameState_init seed max_redeals os = Ok s -> reachable s
| reach_reset s os s' :
    reachable s -> reset s os = Ok s' -> reachable s'
| reach_exec s cmd b s' :
    reachable s -> exec cmd s = Ok (b, s') -> reachable s'.

End Engine.

(** ** Counting cards and the invariants of the board *)

Definition is_none (o : option Card) : bool :=
  match o with None => true | Some _ => false end.

Definition is_some (o : option Card) : bool := negb (is_none o).

Definition count_cells (f : option Card -> bool) (g : list (list (option Card))) : Z :=
  Z.of_nat (length (List.filter f (concat g))).

Definition empty_cells (p : Pyramid) : Z := count_cells is_none (rows p).
Definition occupied_cells (p : Pyramid) : Z := count_cells is_some (rows p).

Definition len (l : list Card) : Z := Z.of_nat (length l).

(** Seven rows, row [i] of length [i + 1]. *)
Definition triangular {A} (g : list (list A)) : Prop :=
  map length g = seq 1 7.

(** The [removed] flags mirror the cells. *)
Definition flags_ok (p : Pyramid) : Prop := removed p = map (map is_none) (rows p).

(** The shape of the grid, the flags, and the counter mirroring the number
    of empty cells. *)
Definition board_ok (s : GameState) : Prop :=
  triangular (rows (pyramid s))
  /\ flags_ok (pyramid s)
  /\ removed_count s = empty_cells (pyramid s).

(** Cards a move took from the waste: they are stored nowhere but in the
    record of the move. *)
Definition waste_entries (cards : list (string * Z * Z * Card)) : Z :=
  Z.of_nat (length (List.filter (fun '(loc_type, _, _, _) => String.eqb loc_type "waste") cards)).

Definition move_waste_cards (m : Move) : Z :=
  match m with
  | MRemoveKingWaste _ => 1
  | MRemovePair cards => waste_entries cards
  | _ => 0
  end.

Fixpoint waste_removed (h : list Move) : Z :=
  match h with
  | [] => 0
  | m :: rest => move_waste_cards m + waste_removed rest
  end.

(** The sum the specification calls the total number of cards. *)
Definition cards_counted (s : GameState) : Z :=
  occupied_cells (pyramid s) + len (stock s) + len (waste s) + removed_count s.

Definition total_ok (s : GameState) : Prop :=
  cards_counted s + waste_removed (history s) = 52.

(** What the removal loop of [remove_pair] does at a location it removes a
    card from: the entry it records and the state it leaves. *)
Inductive removes (s : GameState) : Location -> string * Z * Z * Card -> GameState -> Prop :=
| removes_pyramid a b c p' :
    remove_card (pyramid s) a b = Ok (Some c, p') ->
    removes s ("pyramid", a, b) ("pyramid", a, b, c)
            (set_pyramid s p' (removed_count s + 1))
| removes_waste a b c w' :
    waste s = w' ++ [c] ->
    removes s ("waste", a, b) ("waste", a, b, c) (set_waste s w').

(** The move [remove_king] records for an entry. *)
Definition king_move (e : string * Z * Z * Card) : Move :=
  let '(loc_type, a, b, c) := e in
  if String.eqb loc_type "pyramid" then MRemoveKingPyramid a b c else MRemoveKingWaste c.

(** The commands other than undo. *)
Definition forward (cmd : Command) : Prop := cmd <> CUndo.

(** States described by the moves still in their history: a fresh deal
    followed by successful forward commands. *)
Inductive played {RandomState : Type} (Random_seed : Z -> RandomState)
    (shuffle : RandomState -> list Card -> list Card) : GameState -> Prop :=
| played_reset s0 os s :
    reset RandomState Random_seed shuffle s0 os = Ok s ->
    played Random_seed shuffle s
| played_step s cmd s' :
    played Random_seed shuffle s -> forward cmd -> exec cmd s = Ok (true, s') ->
    played Random_seed shuffle s'.

(** ** A small generator for concrete games

    Two generator states: one leaves the deck in the order it was built,
    the other reverses it. Every integer seed gives the first. *)
Definition toy_seed (z : Z) : bool := true.
Definition toy_shuffle (g : bool) (l : list Card) : list Card :=
  if g then l else rev l.

Definition toy_new (seed : option Z) (max_redeals : Z) (os : bool) : result GameState :=
  GameState_init bool toy_seed toy_shuffle seed max_redeals os.

(** Run a list of commands, keeping the last state; a raised exception stops the run. *)
Fixpoint run (cmds : list Command) (s : GameState) : result GameState :=
  match cmds with
  | [] => Ok s
  | cmd :: rest => '(_, s') ← exec cmd s; run rest s'
  end.

(** The state a run ends in, for concrete games that raise nothing. *)
Definition placeholder_state : GameState :=
  {| seed := None; max_redeals := 0; history := [];
     pyramid := {| rows := []; removed := [] |}; stock := []; waste := [];
     removed_count := 0; redeals_used := 0 |}.

Definition state_of (r : result GameState) : GameState :=
  match r with
  | Ok s => s
  | Raise _ => placeholder_state
  end.

(** The game of seed 1 under the small generator: the deck stays in the
    order it was built, so the pyramid reads K♠ at the apex down to
    5♥ 4♥ 3♥ 2♥ A♥ K♦ Q♦ in the last row, and the stock is A♣ .. J♦ with J♦
    on top. *)
Definition toy_game (max_redeals : Z) : GameState :=
  state_of (toy_new (Some 1) max_redeals true).

Definition toy_after (max_redeals : Z) (cmds : list Command) : GameState :=
  state_of (run cmds (toy_game max_redeals)).

(** ** The exposure rule and the legal moves, as the specification words them *)

Definition holds_card (p : Pyramid) (row col : Z) : Prop :=
  exists card, card_at p row col = Ok (Some card).

Definition cell_empty (p : Pyramid) (row col : Z) : Prop :=
  card_at p row col = Ok None.

(** A cell is exposed iff it holds a card and it is in the last row or both
    cells directly below it are empty. *)
Definition exposed_spec (p : Pyramid) (row col : Z) : Prop :=
  holds_card p row col
  /\ (row = 6 \/ (cell_empty p (row + 1) col /\ cell_empty p (row + 1) (col + 1))).

(** The places a playable card can lie at: a cell of the pyramid, or the top
    of the waste. *)
Inductive Slot :=
| PyramidSlot (row col : Z)
| WasteTop.

(** [card] lies exposed at the slot: a pyramid cell by the exposure rule, the
    waste top always. *)
Definition exposed_card (s : GameState) (sl : Slot) (card : Card) : Prop :=
  match sl with
  | PyramidSlot row col =>
      0 <= col <= row /\ row <= 6
      /\ card_at (pyramid s) row col = Ok (Some card)
      /\ exposed_spec (pyramid s) row col
  | WasteTop => py_top (waste s) = Some card
  end.

Definition legal_moves_spec (s : GameState) : Prop :=
  stock s <> []
  \/ (waste s <> [] /\ redeals_used s < max_redeals s)
  \/ (exists row col card, exposed_card s (PyramidSlot row col) card /\ value card = 13)
  \/ (exists card, exposed_card s WasteTop card /\ value card = 13)
  \/ (exists sl1 sl2 c1 c2, sl1 <> sl2
        /\ exposed_card s sl1 c1 /\ exposed_card s sl2 c2
        /\ value c1 + value c2 = 13).

(** A late position: only the cell (6, 0) still holds a card, the stock is
    used up and no redeal is allowed. *)
Definition late_position (cell : Card) (w : list Card) : GameState :=
  {| seed := Some 1; max_redeals := 0; history := [];
     pyramid :=
       {| rows := [[None]; [None; None]; [None; None; None];
                   [None; None; None; None]; [None; None; None; None; None];
                   [None; None; None; None; None; None];
                   [Some cell; None; None; None; None; None; None]];
          removed := [[true]; [true; true]; [true; true; true];
                      [true; true; true; true]; [true; true; true; true; true];
                      [true; true; true; true; true; true];
                      [false; true; true; true; true; true; true]] |};
     stock := []; waste := w; removed_count := 27; redeals_used := 0 |}.

(** ** Cards and records, for the invariants of whole games *)

(** The list [Deck] builds before it shuffles. *)
Definition standard_deck : list Card :=
  flat_map (fun suit => map (fun rank => mkCard rank suit) RANKS) SUITS.

(** The cards a list of cells holds, in order. *)
Fixpoint cell_cards (cells : list (option Card)) : list Card :=
  match cells with
  | [] => []
  | Some c :: rest => c :: cell_cards rest
  | None :: rest => cell_cards rest
  end.

Definition pyramid_cards (p : Pyramid) : list Card := cell_cards (concat (rows p)).

(** The cards a move took out of play. *)
Definition move_cards (m : Move) : list Card :=
  match m with
  | MRemoveKingPyramid _ _ c => [c]
  | MRemoveKingWaste c => [c]
  | MRemovePair cards => map snd cards
  | _ => []
  end.

Definition removed_cards (h : list Move) : list Card := flat_map move_cards h.

(** The cards still in play: in the pyramid, the stock and the waste. *)
Definition in_play (s : GameState) : list Card :=
  pyramid_cards (pyramid s) ++ stock s ++ waste s.

Definition is_redeal (m : Move) : bool :=
  match m with MRedeal _ _ => true | _ => false end.

Definition redeal_records (h : list Move) : Z :=
  Z.of_nat (length (List.filter is_redeal h)).

(** A location that is not a pyramid cell outside the seven rows. *)
Definition loc_in_range (loc : Location) : Prop :=
  let '(loc_type, a, b) := loc in
  loc_type = "pyramid" -> 0 <= b <= a /\ a <= 6.

(** The location the click handlers build for a slot. *)
Definition slot_location (s : GameState) (sl : Slot) : Location :=
  match sl with
  | PyramidSlot row col => ("pyramid", row, col)
  | WasteTop => ("waste", Z.of_nat (length (waste s)) - 1, 0)
  end.

Definition cmd_in_range (cmd : Command) : Prop :=
  match cmd with
  | CRemoveKing loc => loc_in_range loc
  | CRemovePair first second => loc_in_range first /\ loc_in_range second
  | _ => True
  end.

(** ** The game window: rectangles and click handlers

    [pygame.Rect] is pygame's: a rectangle is its left, top, width and
    height, and [collidepoint] holds for the points from the left and top
    edges up to, not including, the right and bottom edges. Positions and the
    window width are integers; [//] is floor division. *)

Definition CARD_WIDTH : Z := 90.
Definition CARD_HEIGHT : Z := 130.
Definition CARD_SPACING_X : Z := 24.
Definition CARD_SPACING_Y : Z := 34.
Definition BUTTON_WIDTH : Z := 150.
Definition BUTTON_HEIGHT : Z := 40.

Record Rect := mkRect { rect_x : Z; rect_y : Z; rect_w : Z; rect_h : Z }.

Definition collidepoint (r : Rect) (position : Z * Z) : bool :=
  let '(px, py) := position in
  (rect_x r <=? px) && (px <? rect_x r + rect_w r)
  && (rect_y r <=? py) && (py <? rect_y r + rect_h r).

(** The rectangle of the cell [(row_index, col_index)] in
    [handle_pyramid_click] (and in [draw_pyramid]) for a window [width] wide. *)
Definition cell_rect (width row_index col_index : Z) : Rect :=
  let start_x := width / 2 - CARD_WIDTH / 2 in
  let start_y := 120 in
  let row_width := CARD_WIDTH + (CARD_WIDTH + CARD_SPACING_X) * row_index in
  let offset_x := start_x - row_width / 2 in
  let y := start_y + row_index * (CARD_HEIGHT + CARD_SPACING_Y) in
  mkRect (offset_x + col_index * (CARD_WIDTH + CARD_SPACING_X)) y CARD_WIDTH CARD_HEIGHT.

Definition stock_rect : Rect := mkRect 80 120 CARD_WIDTH CARD_HEIGHT.

Definition waste_rect : Rect :=
  mkRect (80 + CARD_WIDTH + CARD_SPACING_X) 120 CARD_WIDTH CARD_HEIGHT.

(** [update_buttons]: the rectangles of Undo, Redeal and New Game, in that order. *)
Definition update_buttons (width : Z) : list (string * Rect) :=
  let x := width - BUTTON_WIDTH - 20 in
  let y := 120 in
  [("Undo", mkRect x y BUTTON_WIDTH BUTTON_HEIGHT);
   ("Redeal", mkRect x (y + (BUTTON_HEIGHT + 10)) BUTTON_WIDTH BUTTON_HEIGHT);
   ("New Game", mkRect x (y + (BUTTON_HEIGHT + 10) + (BUTTON_HEIGHT + 10))
                       BUTTON_WIDTH BUTTON_HEIGHT)].

(** The [Game] object: the engine state, the selected location, the
    game-over flag, and the texts passed to [renderer.show_message], oldest
    first. *)
Record Game := mkGame {
  state : GameState;
  selection : option Location;
  game_over : bool;
  messages : list string
}.

Definition show_message (g : Game) (text : string) : Game :=
  {| state := state g; selection := selection g; game_over := game_over g;
     messages := messages g ++ [text] |}.

Definition set_state (g : Game) (s : GameState) : Game :=
  {| state := s; selection := selection g; game_over := game_over g;
     messages := messages g |}.

Definition set_selection (g : Game) (sel : option Location) : Game :=
  {| state := state g; selection := sel; game_over := game_over g;
     messages := messages g |}.

Definition set_game_over (g : Game) (b : bool) : Game :=
  {| state := state g; selection := selection g; game_over := b;
     messages := messages g |}.

Definition handle_stock_click (g : Game) (position : Z * Z) : result (bool * Game) :=
  if collidepoint stock_rect position then
    '(drawn, s) ← draw (state g);
    let g := set_state g s in
    g ← (if negb drawn then
           '(redealt, s) ← redeal (state g);
           let g := set_state g s in
           if (redealt : bool) then
             Ok (set_game_over (show_message g "Redealing waste to stock") false)
           else Ok (show_message g "Stock empty")
         else Ok (set_game_over g false));
    Ok (true, set_selection g None)
  else Ok (false, g).

Definition handle_waste_click (g : Game) (position : Z * Z) : result (bool * Game) :=
  if bool_decide (waste (state g) = []) then Ok (false, g)
  else if collidepoint waste_rect position then
    let index := Z.of_nat (length (waste (state g))) - 1 in
    let location : Location := ("waste", index, 0) in
    card ← get_card (state g) location;
    match card with
    | None => Ok (true, g)
    | Some card =>
        if value card =? 13 then
          '(removed_king, s) ← remove_king (state g) location;
          let g := set_state g s in
          if (removed_king : bool) then
            let g := show_message g "King removed" in
            let g := set_game_over g false in
            Ok (true, set_selection g None)
          else Ok (true, g)
        else
          match selection g with
          | Some sel =>
              if bool_decide (sel = location) then Ok (true, set_selection g None)
              else
                '(removed_pair, s) ← remove_pair (state g) sel location;
                let g := set_state g s in
                let g :=
                  if (removed_pair : bool)
                  then set_game_over (show_message g "Pair removed") false
                  else show_message g "Invalid pair" in
                Ok (true, set_selection g None)
          | None =>
              exposed ← card_exposed (state g) location;
              if (exposed : bool) then Ok (true, set_selection g (Some location))
              else Ok (true, g)
          end
    end
  else Ok (false, g).

(** The two nested loops of [handle_pyramid_click] up to the first cell that
    holds a card and whose rectangle contains the position. *)
Fixpoint pyramid_click_target (width : Z) (position : Z * Z)
    (cells : list (Z * Z * option Card)) : option (Z * Z * Card) :=
  match cells with
  | [] => None
  | (row_index, col_index, None) :: rest => pyramid_click_target width position rest
  | (row_index, col_index, Some card) :: rest =>
      if collidepoint (cell_rect width row_index col_index) position
      then Some (row_index, col_index, card)
      else pyramid_click_target width position rest
  end.

Definition handle_pyramid_click (g : Game) (width : Z) (position : Z * Z)
  : result (bool * Game) :=
  match pyramid_click_target width position (all_cards (pyramid (state g))) with
  | None => Ok (false, g)
  | Some (row_index, col_index, card) =>
      let location : Location := ("pyramid", row_index, col_index) in
      exposed ← is_exposed (pyramid (state g)) row_index col_index;
      if negb (exposed : bool) then Ok (true, show_message g "Card is covered")
      else if value card =? 13 then
        '(removed_king, s) ← remove_king (state g) location;
        let g := set_state g s in
        if (removed_king : bool) then
          let g := show_message g "King removed" in
          let g := set_game_over g false in
          Ok (true, set_selection g None)
        else Ok (true, g)
      else
        match selection g with
        | Some sel =>
            if bool_decide (sel = location) then Ok (true, set_selection g None)
            else
              '(removed_pair, s) ← remove_pair (state g) sel location;
              let g := set_state g s in
              let g :=
                if (removed_pair : bool)
                then set_game_over (show_message g "Pair removed") false
                else show_message g "Invalid pair" in
              Ok (true, set_selection g None)
        | None => Ok (true, set_selection g (Some location))
        end
  end.

Definition check_end_conditions (g : Game) : result Game :=
  if negb (game_over g) && has_won (state g) then
    Ok (set_game_over (show_message g "You cleared the pyramid!") true)
  else if negb (game_over g) then
    legal ← legal_moves_remaining (state g);
    if negb (legal : bool) then
      Ok (set_game_over (show_message g "No more moves. You lose.") true)
    else Ok g
  else Ok g.

Section Buttons.

Variable RandomState : Type.
Variable Random_seed : Z -> RandomState.
Variable shuffle : RandomState -> list Card -> list Card.

(** [handle_button]; [os] is what the operating system would give an
    unseeded generator if New Game is pressed. *)
Definition handle_button (g : Game) (name : string) (os : RandomState) : result Game :=
  if String.eqb name "Undo" then
    '(undone, s) ← undo (state g);
    let g := set_state g s in
    if negb (undone : bool) then Ok (show_message g "Nothing to undo")
    else Ok (set_selection (set_game_over g false) None)
  else if String.eqb name "Redeal" then
    '(redealt, s) ← redeal (state g);
    let g := set_state g s in
    if negb (redealt : bool) then Ok (show_message g "Redeal unavailable")
    else Ok (set_selection (set_game_over g false) None)
  else if String.eqb name "New Game" then
    s ← reset RandomState Random_seed shuffle (state g) os;
    let g := set_state g s in
    let g := set_selection g None in
    let g := set_game_over g false in
    Ok (show_message g "New game started")
  else Ok g.

(** What the player can do to the window. *)
Inductive Event :=
| EButton (name : string) (os : RandomState)
| EStockClick (position : Z * Z)
| EWasteClick (position : Z * Z)
| EPyramidClick (width : Z) (position : Z * Z)
| ECheckEnd.

Definition handle (g : Game) (e : Event) : result Game :=
  match e with
  | EButton name os => handle_button g name os
  | EStockClick position => '(_, g) ← handle_stock_click g position; Ok g
  | EWasteClick position => '(_, g) ← handle_waste_click g position; Ok g
  | EPyramidClick width position => '(_, g) ← handle_pyramid_click g width position; Ok g
  | ECheckEnd => check_end_conditions g
  end.

End Buttons.

(** A selected location is one the handlers may select: a cell of the
    pyramid or the top of the waste, holding an exposed card. *)
Definition selection_ok (g : Game) : Prop :=
  forall loc, selection g = Some loc ->
    loc_in_range loc
    /\ exists card, get_card (state g) loc = Ok (Some card)
                    /\ card_exposed (state g) loc = Ok true.

(** What the handlers keep true of a game: its state is reachable and its
    selection is sound. *)
Definition ui_ok {RandomState : Type} (Random_seed : Z -> RandomState)
    (shuffle : RandomState -> list Card -> list Card) (g : Game) : Prop :=
  reachable RandomState Random_seed shuffle (state g) /\ selection_ok g.

(** The game object a new window starts with. *)
Definition Game_init (s : GameState) : Game :=
  {| state := s; selection := None; game_over := false; messages := [] |}.

(** The clickable things of the window. *)
Inductive Target :=
| TStock
| TWaste
| TButton (name : string) (r : Rect)
| TCell (row col : Z).

Definition target_ok (width : Z) (t : Target) : Prop :=
  match t with
  | TButton name r => In (name, r) (update_buttons width)
  | TCell row col => 0 <= col <= row /\ row <= 6
  | _ => True
  end.

Definition target_rect (width : Z) (t : Target) : Rect :=
  match t with
  | TStock => stock_rect
  | TWaste => waste_rect
  | TButton _ r => r
  | TCell row col => cell_rect width row col
  end.

(** * Properties *)

(** ** The error monad *)

Lemma bind_Ok {A B} (f : A -> result B) (m : result A) (b : B) :
  m ≫= f = Ok b <-> exists a, m = Ok a /\ f a = Ok b.
Proof.
  split.
  - destruct m as [a|e]; simpl; intros H; [eauto | discriminate].
  - intros (a & -> & H). exact H.
Qed.

Lemma bind_Ok_l {A B} (f : A -> result B) (m : result A) (a : A) :
  m = Ok a -> m ≫= f = f a.
Proof. intros ->. reflexivity. Qed.

(** Split every monadic equation [m ≫= f = Ok b] among the hypotheses. *)
Ltac inv_bind :=
  repeat match goal with
  | H : _ ≫= _ = Ok _ |- _ =>
      let a := fresh "a" in
      let Ha := fresh "Hm" in
      apply bind_Ok in H; destruct H as (a & Ha & H)
  end;
  simplify_eq.

(** ** Python list primitives *)

Lemma py_pop_snoc {A} (l : list A) (x : A) : py_pop (l ++ [x]) = Some (x, l).
Proof. unfold py_pop. rewrite rev_app_distr. simpl. now rewrite rev_involutive. Qed.

Lemma py_pop_Some {A} (l l' : list A) (x : A) :
  py_pop l = Some (x, l') -> l = l' ++ [x].
Proof.
  unfold py_pop. intros H. destruct (rev l) as [|y r] eqn:E; [discriminate|].
  injection H as -> <-.
  rewrite <- (rev_involutive l), E. reflexivity.
Qed.

Lemma py_pop_None {A} (l : list A) : py_pop l = None <-> l = [].
Proof.
  unfold py_pop. split.
  - destruct (rev l) eqn:E; [|discriminate]. intros _.
    rewrite <- (rev_involutive l), E. reflexivity.
  - intros ->. reflexivity.
Qed.

Lemma py_top_snoc {A} (l : list A) (x : A) : py_top (l ++ [x]) = Some x.
Proof. unfold py_top. now rewrite py_pop_snoc. Qed.

Lemma py_norm_lt (n : nat) (i : Z) (k : nat) : py_norm n i = Some k -> (k < n)%nat.
Proof.
  unfold py_norm. intros H.
  destruct (0 <=? i) eqn:E1, (i <? Z.of_nat n) eqn:E2; simpl in H;
    try (injection H as <-; lia);
    destruct (- Z.of_nat n <=? i) eqn:E3, (i <? 0) eqn:E4; simpl in H;
    try discriminate; injection H as <-; lia.
Qed.

Lemma py_norm_nat (n k : nat) : (k < n)%nat -> py_norm n (Z.of_nat k) = Some k.
Proof.
  intros H. unfold py_norm.
  replace (0 <=? Z.of_nat k) with true by (symmetry; apply Z.leb_le; lia).
  replace (Z.of_nat k <? Z.of_nat n) with true by (symmetry; apply Z.ltb_lt; lia).
  simpl. now rewrite Nat2Z.id.
Qed.

(** Reading and writing through Python indices, in terms of positions. *)
Lemma getitem_Ok {A} (l : list A) (i : Z) (x : A) :
  getitem l i = Ok x <-> exists k, py_norm (length l) i = Some k /\ l !! k = Some x.
Proof.
  unfold getitem. split.
  - destruct (py_norm (length l) i) as [k|]; [|discriminate].
    destruct (l !! k) as [y|] eqn:E; [|discriminate].
    intros [= ->]. eauto.
  - intros (k & -> & ->). reflexivity.
Qed.

Lemma setitem_Ok {A} (l l' : list A) (i : Z) (x : A) :
  setitem l i x = Ok l' <-> exists k, py_norm (length l) i = Some k /\ l' = <[k:=x]> l.
Proof.
  unfold setitem. split.
  - destruct (py_norm (length l) i) as [k|]; [|discriminate].
    intros [= <-]. eauto.
  - intros (k & -> & ->). reflexivity.
Qed.

Lemma grid_get_Ok {A} (g : list (list A)) (row col : Z) (x : A) :
  grid_get g row col = Ok x <->
  exists i j r, py_norm (length g) row = Some i /\ g !! i = Some r
                /\ py_norm (length r) col = Some j /\ r !! j = Some x.
Proof.
  unfold grid_get. rewrite bind_Ok. split.
  - intros (r & Hr & Hx). apply getitem_Ok in Hr as (i & Hi & Hr).
    apply getitem_Ok in Hx as (j & Hj & Hx). eauto 10.
  - intros (i & j & r & Hi & Hr & Hj & Hx). exists r. split; apply getitem_Ok; eauto.
Qed.

Lemma grid_set_Ok {A} (g g' : list (list A)) (row col : Z) (x : A) :
  grid_set g row col x = Ok g' <->
  exists i j r, py_norm (length g) row = Some i /\ g !! i = Some r
                /\ py_norm (length r) col = Some j /\ g' = <[i:=<[j:=x]> r]> g.
Proof.
  unfold grid_set. rewrite bind_Ok. split.
  - intros (r & Hr & H). apply bind_Ok in H as (r' & Hr' & H).
    apply getitem_Ok in Hr as (i & Hi & Hr).
    apply setitem_Ok in Hr' as (j & Hj & ->).
    apply setitem_Ok in H as (i' & Hi' & ->).
    assert (i' = i) as -> by congruence. eauto 10.
  - intros (i & j & r & Hi & Hr & Hj & ->). exists r. split.
    + apply getitem_Ok; eauto.
    + apply bind_Ok. exists (<[j:=x]> r). split; apply setitem_Ok; eauto.
Qed.

(** Writing preserves the shape of a grid. *)
Lemma grid_set_shape {A} (g g' : list (list A)) (row col : Z) (x : A) :
  grid_set g row col x = Ok g' -> map length g' = map length g.
Proof.
  intros H. apply grid_set_Ok in H as (i & j & r & Hi & Hr & Hj & ->).
  change (length <$> <[i:=<[j:=x]> r]> g = length <$> g).
  rewrite list_fmap_insert, length_insert.
  apply list_insert_id. rewrite list_lookup_fmap, Hr. reflexivity.
Qed.

(** Writing back what is there changes nothing. *)
Lemma grid_set_same {A} (g : list (list A)) (row col : Z) (x : A) :
  grid_get g row col = Ok x -> grid_set g row col x = Ok g.
Proof.
  intros H. apply grid_get_Ok in H as (i & j & r & Hi & Hr & Hj & Hx).
  apply grid_set_Ok. exists i, j, r. repeat split; try assumption.
  rewrite (list_insert_id r j x Hx). symmetry. now apply list_insert_id.
Qed.

(** A second write to a cell replaces the first. *)
Lemma grid_set_set {A} (g g' : list (list A)) (row col : Z) (x y : A) :
  grid_set g row col x = Ok g' -> grid_set g' row col y = grid_set g row col y.
Proof.
  intros H. apply grid_set_Ok in H as (i & j & r & Hi & Hr & Hj & ->).
  assert (Hlt : (i < length g)%nat) by (eapply py_norm_lt; eassumption).
  transitivity (Ok (A:=list (list A)) (<[i:=<[j:=y]> r]> g)).
  - apply grid_set_Ok. exists i, j, (<[j:=x]> r).
    rewrite !length_insert. repeat split; try assumption.
    + now apply list_lookup_insert_eq.
    + now rewrite !list_insert_insert_eq.
  - symmetry. apply grid_set_Ok. eauto 10.
Qed.

(** A cell that holds a value can be written. *)
Lemma grid_set_total {A} (g : list (list A)) (row col : Z) (x y : A) :
  grid_get g row col = Ok x -> exists g', grid_set g row col y = Ok g'.
Proof.
  intros H. apply grid_get_Ok in H as (i & j & r & Hi & Hr & Hj & Hx).
  eexists. apply grid_set_Ok. eauto 10.
Qed.

(** Reading after a write: the value written, or the old one. *)
Lemma grid_get_set_other {A} (g g' : list (list A)) (row col row' col' : Z) (x y z : A) :
  grid_set g row col x = Ok g' ->
  grid_get g row col = Ok y -> grid_get g row' col' = Ok z -> y <> z ->
  grid_get g' row' col' = Ok z.
Proof.
  intros Hs Hy Hz Hne.
  apply grid_set_Ok in Hs as (i & j & r & Hi & Hr & Hj & ->).
  apply grid_get_Ok in Hy as (i0 & j0 & r0 & Hi0 & Hr0 & Hj0 & Hy).
  assert (i0 = i) as -> by congruence. assert (r0 = r) as -> by congruence.
  assert (j0 = j) as -> by congruence.
  apply grid_get_Ok in Hz as (i' & j' & r' & Hi' & Hr' & Hj' & Hz).
  assert (Hlt : (i < length g)%nat) by (eapply py_norm_lt; eassumption).
  apply grid_get_Ok. rewrite length_insert.
  destruct (decide (i' = i)) as [->|Hi_ne].
  - assert (r' = r) as -> by congruence.
    exists i, j', (<[j:=x]> r). rewrite length_insert.
    repeat split; try assumption.
    + now apply list_lookup_insert_eq.
    + rewrite list_lookup_insert_ne; [assumption|]. intros ->. congruence.
  - exists i', j', r'. repeat split; try assumption.
    rewrite list_lookup_insert_ne; [assumption|]. congruence.
Qed.

Lemma grid_get_map {A B} (f : A -> B) (g : list (list A)) (row col : Z) (x : A) :
  grid_get g row col = Ok x -> grid_get (map (map f) g) row col = Ok (f x).
Proof.
  intros H. apply grid_get_Ok in H as (i & j & r & Hi & Hr & Hj & Hx).
  apply grid_get_Ok. exists i, j, (map f r).
  rewrite !length_map. repeat split; try assumption.
  - change ((map f <$> g) !! i = Some (map f r)). now rewrite list_lookup_fmap, Hr.
  - change ((f <$> r) !! j = Some (f x)). now rewrite list_lookup_fmap, Hx.
Qed.

Lemma grid_set_map {A B} (f : A -> B) (g g' : list (list A)) (row col : Z) (x : A) :
  grid_set g row col x = Ok g' ->
  grid_set (map (map f) g) row col (f x) = Ok (map (map f) g').
Proof.
  intros H. apply grid_set_Ok in H as (i & j & r & Hi & Hr & Hj & ->).
  apply grid_set_Ok. exists i, j, (map f r).
  rewrite !length_map. repeat split; try assumption.
  - change ((map f <$> g) !! i = Some (map f r)). now rewrite list_lookup_fmap, Hr.
  - change (map f <$> <[i:=<[j:=x]> r]> g = <[i:=<[j:=f x]> (f <$> r)]> (map f <$> g)).
    rewrite list_fmap_insert. f_equal.
    change (f <$> <[j:=x]> r = <[j:=f x]> (f <$> r)). now rewrite list_fmap_insert.
Qed.

(** ** Counting cells *)

Lemma filter_length_insert {A} (f : A -> bool) (l : list A) (j : nat) (x y : A) :
  l !! j = Some y ->
  (length (List.filter f (<[j:=x]> l)) + Nat.b2n (f y)
   = length (List.filter f l) + Nat.b2n (f x))%nat.
Proof.
  revert j. induction l as [|a l IH]; intros [|j] H; simpl in H; try discriminate.
  - injection H as ->. simpl. destruct (f x), (f y); simpl; lia.
  - specialize (IH j H). simpl. destruct (f a); simpl; lia.
Qed.

Lemma filter_length_concat_insert {A} (f : A -> bool) (g : list (list A)) (i : nat)
    (r r' : list A) :
  g !! i = Some r ->
  (length (List.filter f (concat (<[i:=r']> g))) + length (List.filter f r)
   = length (List.filter f (concat g)) + length (List.filter f r'))%nat.
Proof.
  revert i. induction g as [|a g IH]; intros [|i] H; simpl in H; try discriminate.
  - injection H as ->. simpl. rewrite !List.filter_app, !length_app. lia.
  - specialize (IH i H). simpl. rewrite !List.filter_app, !length_app. lia.
Qed.

Lemma count_cells_set (f : option Card -> bool) g g' row col (x y : option Card) :
  grid_get g row col = Ok y -> grid_set g row col x = Ok g' ->
  count_cells f g' + Z.b2z (f y) = count_cells f g + Z.b2z (f x).
Proof.
  intros Hy Hs.
  apply grid_set_Ok in Hs as (i & j & r & Hi & Hr & Hj & ->).
  apply grid_get_Ok in Hy as (i0 & j0 & r0 & Hi0 & Hr0 & Hj0 & Hy).
  assert (i0 = i) as -> by congruence. assert (r0 = r) as -> by congruence.
  assert (j0 = j) as -> by congruence.
  pose proof (filter_length_concat_insert f g i r (<[j:=x]> r) Hr) as H1.
  pose proof (filter_length_insert f r j x y Hy) as H2.
  unfold count_cells. destruct (f x), (f y); simpl in *; lia.
Qed.

Lemma filter_length_split {A} (f : A -> bool) (l : list A) :
  (length (List.filter f l) + length (List.filter (fun a => negb (f a)) l)
   = length l)%nat.
Proof. induction l as [|a l IH]; simpl; [reflexivity|]. destruct (f a); simpl; lia. Qed.

Lemma length_concat_sum {A} (g : list (list A)) :
  length (concat g) = list_sum (map length g).
Proof. induction g as [|r g IH]; simpl; [reflexivity|]. rewrite length_app. lia. Qed.

(** A triangular board has 28 cells, each either empty or occupied. *)
Lemma cells_28 (p : Pyramid) :
  triangular (rows p) -> occupied_cells p + empty_cells p = 28.
Proof.
  unfold triangular, occupied_cells, empty_cells, count_cells, is_some. intros H.
  pose proof (filter_length_split is_none (concat (rows p))) as Hs.
  rewrite length_concat_sum, H in Hs. simpl in Hs. lia.
Qed.

(** ** Removing and restoring a pyramid card *)

Lemma remove_card_None p row col p' :
  remove_card p row col = Ok (None, p') -> p' = p.
Proof.
  unfold remove_card. intros H. apply bind_Ok in H as (card & Hc & H).
  destruct card as [c|]; inv_bind. reflexivity.
Qed.

Lemma remove_card_Some p row col c p' :
  remove_card p row col = Ok (Some c, p') ->
  grid_get (rows p) row col = Ok (Some c)
  /\ grid_set (rows p) row col None = Ok (rows p')
  /\ grid_set (removed p) row col true = Ok (removed p').
Proof.
  unfold remove_card. intros H. apply bind_Ok in H as (card & Hc & H).
  destruct card as [c0|]; inv_bind. simpl. auto.
Qed.

Lemma remove_card_flags p row col c p' :
  flags_ok p -> remove_card p row col = Ok (Some c, p') -> flags_ok p'.
Proof.
  unfold flags_ok. intros Hf H. apply remove_card_Some in H as (_ & Hr & Hm).
  apply (grid_set_map is_none) in Hr. simpl in Hr.
  rewrite Hf in Hm. congruence.
Qed.

(** Restoring the card just removed gives the pyramid back, flags included. *)
Lemma remove_card_restore p row col c p' :
  flags_ok p -> remove_card p row col = Ok (Some c, p') ->
  restore_card p' row col c = Ok p.
Proof.
  unfold flags_ok. intros Hf H. apply remove_card_Some in H as (Hg & Hr & Hm).
  unfold restore_card.
  rewrite (grid_set_set _ _ _ _ _ (Some c) Hr), (grid_set_same _ _ _ _ Hg). simpl.
  rewrite (grid_set_set _ _ _ _ _ false Hm).
  apply (grid_get_map is_none) in Hg. simpl in Hg. rewrite <- Hf in Hg.
  rewrite (grid_set_same _ _ _ _ Hg). simpl. destruct p; reflexivity.
Qed.

Lemma remove_card_shape p row col o p' :
  remove_card p row col = Ok (o, p') ->
  map length (rows p') = map length (rows p).
Proof.
  destruct o as [c|]; intros H.
  - apply remove_card_Some in H as (_ & Hr & _). eapply grid_set_shape; eassumption.
  - apply remove_card_None in H as ->. reflexivity.
Qed.

Lemma remove_card_count f p row col c p' :
  remove_card p row col = Ok (Some c, p') ->
  count_cells f (rows p') + Z.b2z (f (Some c)) = count_cells f (rows p) + Z.b2z (f None).
Proof.
  intros H. apply remove_card_Some in H as (Hg & Hr & _).
  eapply count_cells_set; eassumption.
Qed.

(** Another card of the pyramid stays where it is. *)
Lemma remove_card_other p row col c p' row' col' c' :
  remove_card p row col = Ok (Some c, p') ->
  grid_get (rows p) row' col' = Ok (Some c') -> c <> c' ->
  grid_get (rows p') row' col' = Ok (Some c').
Proof.
  intros H Hg' Hne. apply remove_card_Some in H as (Hg & Hr & _).
  eapply grid_get_set_other; try eassumption. congruence.
Qed.

(** A cell that holds a card can be removed when the flags have the shape of the cells. *)
Lemma remove_card_total p row col c :
  flags_ok p -> grid_get (rows p) row col = Ok (Some c) ->
  exists p', remove_card p row col = Ok (Some c, p').
Proof.
  unfold flags_ok. intros Hf Hg. unfold remove_card. rewrite Hg. simpl.
  destruct (grid_set_total _ _ _ _ None Hg) as (rows' & Hr). rewrite Hr. simpl.
  apply (grid_get_map is_none) in Hg. rewrite <- Hf in Hg.
  destruct (grid_set_total _ _ _ _ true Hg) as (removed' & Hm). rewrite Hm. simpl.
  eauto.
Qed.

(** ** Removing and restoring at the level of the game state *)

Lemma set_history_id s : set_history s (history s) = s.
Proof. destruct s; reflexivity. Qed.

Lemma remove_pyramid_card_None s row col s1 :
  remove_pyramid_card s row col = Ok (None, s1) -> s1 = s.
Proof.
  unfold remove_pyramid_card. intros H. apply bind_Ok in H as ([card p] & Hc & H).
  destruct card; inv_bind. apply remove_card_None in Hc as ->.
  destruct s; reflexivity.
Qed.

Lemma remove_pyramid_card_Some s row col c s1 :
  remove_pyramid_card s row col = Ok (Some c, s1) ->
  removes s ("pyramid", row, col) ("pyramid", row, col, c) s1.
Proof.
  unfold remove_pyramid_card. intros H. apply bind_Ok in H as ([card p] & Hc & H).
  destruct card; inv_bind. now constructor.
Qed.

Lemma remove_location_inv s loc acc s1 acc' :
  remove_location s loc acc = Ok (s1, acc') ->
  (s1 = s /\ acc' = acc) \/ exists e, acc' = acc ++ [e] /\ removes s loc e s1.
Proof.
  destruct loc as [[loc_type a] b]. unfold remove_location.
  destruct (String.eqb_spec loc_type "pyramid") as [->|Hp].
  - intros H. apply bind_Ok in H as ([card s0] & Hc & H).
    destruct card as [c|]; inv_bind.
    + right. eexists. split; [reflexivity|]. now apply remove_pyramid_card_Some.
    + left. split; [|reflexivity]. now apply remove_pyramid_card_None in Hc.
  - destruct (String.eqb_spec loc_type "waste") as [->|Hw]; simpl.
    + destruct (bool_decide (waste s = [])); simpl;
        [intros [= <- <-]; now left|].
      destruct (py_pop (waste s)) as [[c w']|] eqn:E; intros [= <- <-]; [|now left].
      right. eexists. split; [reflexivity|]. constructor. now apply py_pop_Some.
    + intros [= <- <-]. now left.
Qed.

Lemma removes_history s loc e s1 : removes s loc e s1 -> history s1 = history s.
Proof. destruct 1; reflexivity. Qed.

Lemma removes_flags s loc e s1 :
  flags_ok (pyramid s) -> removes s loc e s1 -> flags_ok (pyramid s1).
Proof.
  intros Hf [a b c p' H | a b c w' H]; simpl; [|assumption].
  eapply remove_card_flags; eassumption.
Qed.

(** Restoring the recorded entry undoes the removal, whatever the history holds. *)
Lemma removes_restore s loc e s1 h :
  flags_ok (pyramid s) -> removes s loc e s1 ->
  restore_cards (set_history s1 h) [e] = Ok (set_history s h).
Proof.
  intros Hf [a b c p' H | a b c w' H]; simpl.
  - unfold restore_pyramid_card. simpl.
    rewrite (remove_card_restore _ _ _ _ _ Hf H). simpl.
    unfold set_history, set_pyramid. simpl. do 2 f_equal. lia.
  - unfold set_history, set_waste. simpl. rewrite <- H. reflexivity.
Qed.

Lemma restore_cards_cons s e rest :
  restore_cards s (e :: rest) = restore_cards s [e] ≫= fun s' => restore_cards s' rest.
Proof.
  destruct e as [[[loc_type a] b] card]. simpl.
  destruct (String.eqb loc_type "pyramid").
  - destruct (restore_pyramid_card s a b card); reflexivity.
  - destruct (String.eqb loc_type "waste"); reflexivity.
Qed.

(** The counter follows the empty cells, and the shape is kept. *)
Lemma removes_board s loc e s1 :
  board_ok s -> removes s loc e s1 -> board_ok s1.
Proof.
  intros (Ht & Hf & Hc) Hr. split; [|split].
  - destruct Hr as [a b c p' H | a b c w' H]; simpl; [|assumption].
    unfold triangular. now rewrite (remove_card_shape _ _ _ _ _ H).
  - eapply removes_flags; eassumption.
  - destruct Hr as [a b c p' H | a b c w' H]; simpl; [|assumption].
    pose proof (remove_card_count is_none _ _ _ _ _ H) as Hn. simpl in Hn.
    unfold empty_cells in *. lia.
Qed.

(** Each removal takes one card out of the counted sum when it comes from
    the waste, and none when it comes from the pyramid. *)
Lemma removes_counted s loc e s1 :
  removes s loc e s1 ->
  cards_counted s1 + waste_entries [e] = cards_counted s
  /\ stock s1 = stock s /\ redeals_used s1 = redeals_used s.
Proof.
  intros [a b c p' H | a b c w' H]; unfold cards_counted; simpl.
  - pose proof (remove_card_count is_some _ _ _ _ _ H) as Hn. simpl in Hn.
    unfold occupied_cells, waste_entries. simpl. repeat split. lia.
  - rewrite H. unfold len, waste_entries. simpl. rewrite length_app. simpl.
    repeat split. lia.
Qed.

(** ** What each command does when it returns *)

Lemma remove_pyramid_card_at s row col c o s1 :
  card_at (pyramid s) row col = Ok (Some c) ->
  remove_pyramid_card s row col = Ok (o, s1) ->
  removes s ("pyramid", row, col) ("pyramid", row, col, c) s1.
Proof.
  unfold card_at. intros Hc H.
  assert (o = Some c) as ->.
  { unfold remove_pyramid_card in H. apply bind_Ok in H as ([o' p'] & Hrc & H).
    unfold remove_card in Hrc. rewrite Hc in Hrc. simpl in Hrc. inv_bind.
    reflexivity. }
  now apply remove_pyramid_card_Some.
Qed.

(** A location [get_card] finds a card at is one the removal loop removes it from. *)
Lemma remove_location_found s loc c acc s1 acc' :
  get_card s loc = Ok (Some c) ->
  remove_location s loc acc = Ok (s1, acc') ->
  exists e, acc' = acc ++ [e] /\ removes s loc e s1 /\ e.2 = c.
Proof.
  destruct loc as [[loc_type a] b]. unfold get_card, remove_location.
  destruct (String.eqb_spec loc_type "pyramid") as [->|Hp].
  - intros Hc H. apply bind_Ok in H as ([card s0] & Hr & H).
    pose proof (remove_pyramid_card_at _ _ _ _ _ _ Hc Hr) as Hrem.
    inversion Hrem as [a0 b0 c0 p' Hrc|]; subst.
    unfold remove_pyramid_card in Hr. rewrite Hrc in Hr. simpl in Hr. inv_bind.
    eexists. split; [reflexivity|]. split; [exact Hrem | reflexivity].
  - destruct (String.eqb_spec loc_type "waste") as [->|Hw]; simpl; [|discriminate].
    destruct (bool_decide (waste s = [])); simpl; [discriminate|].
    destruct (a =? Z.of_nat (length (waste s)) - 1); [|discriminate].
    unfold py_top. destruct (py_pop (waste s)) as [[c0 w']|] eqn:E; simpl; [|discriminate].
    intros [= ->] [= <- <-].
    eexists. split; [reflexivity|]. split; [|reflexivity].
    constructor. now apply py_pop_Some.
Qed.

(** Removing one card leaves a different card where [get_card] found it. *)
Lemma removes_get_card_other s first e s1 second ca cb :
  removes s first e s1 ->
  get_card s first = Ok (Some ca) -> get_card s second = Ok (Some cb) -> ca <> cb ->
  get_card s1 second = Ok (Some cb).
Proof.
  intros Hr Ha Hb Hne. destruct second as [[loc_type a'] b']. unfold get_card in *.
  destruct Hr as [a b c p' H | a b c w' H]; simpl in *.
  - destruct (String.eqb loc_type "pyramid"); [|exact Hb].
    unfold card_at in *. apply remove_card_Some in H as H'. destruct H' as (Hg & _).
    assert (c = ca) as -> by congruence.
    eapply remove_card_other; eassumption.
  - destruct (String.eqb loc_type "pyramid"); [exact Hb|].
    destruct (String.eqb loc_type "waste"); [|discriminate].
    exfalso.
    destruct (negb (bool_decide (waste s = [])) && (a =? Z.of_nat (length (waste s)) - 1));
      [|discriminate].
    destruct (negb (bool_decide (waste s = [])) && (a' =? Z.of_nat (length (waste s)) - 1));
      [|discriminate].
    congruence.
Qed.

(** Two cards whose values sum to 13 are different cards. *)
Lemma sum_13_distinct ca cb : value ca + value cb = 13 -> ca <> cb.
Proof. intros H ->. lia. Qed.

Lemma draw_spec s b s' :
  draw s = Ok (b, s') ->
  (b = false /\ s' = s /\ stock s = [])
  \/ (b = true /\ exists c st, stock s = st ++ [c]
      /\ s' = history_append (set_waste (set_stock s st) (waste s ++ [c])) (MDraw c)).
Proof.
  unfold draw. destruct (py_pop (stock s)) as [[c st]|] eqn:E; intros [= <- <-].
  - right. split; [reflexivity|]. exists c, st. split; [now apply py_pop_Some | reflexivity].
  - left. repeat split. now apply py_pop_None.
Qed.

Lemma redeal_spec s b s' :
  redeal s = Ok (b, s') ->
  (b = false /\ s' = s /\ (redeals_used s >= max_redeals s \/ waste s = []))
  \/ (b = true /\ redeals_used s < max_redeals s /\ waste s <> []
      /\ s' = history_append
                (set_redeals_used (set_waste (set_stock s (stock s ++ rev (waste s))) [])
                                  (redeals_used s + 1))
                (MRedeal (stock s) (waste s))).
Proof.
  unfold redeal. destruct (Z.geb_spec (redeals_used s) (max_redeals s)) as [Hge|Hlt].
  - intros [= <- <-]. left. repeat split. left. lia.
  - destruct (bool_decide_reflect (waste s = [])) as [Hw|Hw]; intros [= <- <-].
    + left. repeat split. now right.
    + right. repeat split; assumption.
Qed.

Lemma remove_king_spec s loc b s' :
  remove_king s loc = Ok (b, s') ->
  (b = false /\ s' = s)
  \/ (b = true /\ exists e s1, removes s loc e s1 /\ value e.2 = 13
      /\ s' = history_append s1 (king_move e)).
Proof.
  destruct loc as [[loc_type a] b0]. unfold remove_king.
  destruct (String.eqb_spec loc_type "pyramid") as [->|Hp].
  - intros H. apply bind_Ok in H as (card & Hc & H).
    destruct card as [c|]; [|inv_bind; now left].
    destruct (Z.eqb_spec (value c) 13) as [Hk|Hk]; [|inv_bind; now left].
    apply bind_Ok in H as (e & He & H).
    destruct e; [|inv_bind; now left].
    apply bind_Ok in H as ([o s1] & Hr & H). inv_bind.
    right. split; [reflexivity|].
    exists ("pyramid", a, b0, c), s1. split; [|split; [exact Hk | reflexivity]].
    eapply remove_pyramid_card_at; eassumption.
  - destruct (String.eqb_spec loc_type "waste") as [->|Hw]; simpl;
      [|intros [= <- <-]; now left].
    destruct (bool_decide (waste s = [])); simpl; [intros [= <- <-]; now left|].
    destruct (py_pop (waste s)) as [[c w']|] eqn:E; [|intros [= <- <-]; now left].
    destruct (Z.eqb_spec (value c) 13) as [Hk|Hk]; intros [= <- <-]; [|now left].
    right. split; [reflexivity|].
    exists ("waste", a, b0, c), (set_waste s w'). split; [|split; [exact Hk | reflexivity]].
    constructor. now apply py_pop_Some.
Qed.

(** [remove_pair] either rejects the pair before touching the state, or
    removes both cards: the rollback loop is never entered. *)
Lemma remove_pair_spec s first second b s' :
  remove_pair s first second = Ok (b, s') ->
  (b = false /\ s' = s)
  \/ (b = true /\ exists e1 e2 s1 s2,
        removes s first e1 s1 /\ removes s1 second e2 s2
        /\ value e1.2 + value e2.2 = 13
        /\ s' = history_append s2 (MRemovePair [e1; e2])).
Proof.
  unfold remove_pair.
  destruct (bool_decide (first = second)); [intros [= <- <-]; now left|].
  intros H. apply bind_Ok in H as (card_a & Ha & H).
  apply bind_Ok in H as (card_b & Hb & H).
  destruct card_a as [ca|]; [|inv_bind; now left].
  destruct card_b as [cb|]; [|inv_bind; now left].
  destruct (Z.eqb_spec (value ca + value cb) 13) as [Hsum|Hsum];
    simpl in H; [|inv_bind; now left].
  apply bind_Ok in H as (ea & Hea & H).
  destruct ea; simpl in H; [|inv_bind; now left].
  apply bind_Ok in H as (eb & Heb & H).
  destruct eb; simpl in H; [|inv_bind; now left].
  apply bind_Ok in H as ([s1 acc1] & H1 & H).
  apply bind_Ok in H as ([s2 acc2] & H2 & H).
  destruct (remove_location_found _ _ _ _ _ _ Ha H1) as (e1 & -> & Hr1 & He1).
  pose proof (removes_get_card_other _ _ _ _ _ _ _ Hr1 Ha Hb (sum_13_distinct _ _ Hsum))
    as Hb1.
  destruct (remove_location_found _ _ _ _ _ _ Hb1 H2) as (e2 & -> & Hr2 & He2).
  simpl in H. injection H as <- <-.
  right. split; [reflexivity|]. exists e1, e2, s1, s2.
  repeat split; try assumption. now rewrite He1, He2.
Qed.

(** ** Undo after a successful command *)

Lemma undo_history_append s m :
  undo (history_append s m) =
  match m with
  | MDraw card => s0 ← undo_draw s card; Ok (true, s0)
  | MRemoveKingPyramid row col card =>
      s0 ← restore_pyramid_card s row col card; Ok (true, s0)
  | MRemoveKingWaste card => Ok (true, set_waste s (waste s ++ [card]))
  | MRemovePair cards => s0 ← restore_cards s (rev cards); Ok (true, s0)
  | MRedeal stock_before waste_before =>
      Ok (true, set_redeals_used (set_waste (set_stock s stock_before) waste_before)
                                 (redeals_used s - 1))
  end.
Proof.
  unfold undo, history_append. simpl. rewrite py_pop_snoc.
  replace (set_history (set_history s (history s ++ [m])) (history s)) with s
    by (destruct s; reflexivity).
  reflexivity.
Qed.

Lemma restore_cards_one_pyramid s a b c :
  restore_cards s [("pyramid", a, b, c)] = restore_pyramid_card s a b c.
Proof. simpl. destruct (restore_pyramid_card s a b c); reflexivity. Qed.

Lemma removes_restore_id s loc e s1 :
  flags_ok (pyramid s) -> removes s loc e s1 -> restore_cards s1 [e] = Ok s.
Proof.
  intros Hf Hr. pose proof (removes_restore _ _ _ _ (history s) Hf Hr) as H.
  rewrite set_history_id in H. rewrite <- (removes_history _ _ _ _ Hr) in H.
  now rewrite set_history_id in H.
Qed.

(** Undo after any successful forward command gives back the whole state. *)
Lemma undo_exec s cmd s' :
  flags_ok (pyramid s) -> forward cmd -> exec cmd s = Ok (true, s') ->
  undo s' = Ok (true, s).
Proof.
  intros Hf Hfw H. destruct cmd as [|loc|first second| |]; simpl in H;
    [| | | |now destruct Hfw].
  - apply draw_spec in H as [(? & _)|(_ & c & st & Hst & ->)]; [discriminate|].
    rewrite undo_history_append. unfold undo_draw. simpl. rewrite py_pop_snoc.
    rewrite bool_decide_true by reflexivity. simpl. rewrite <- Hst.
    destruct s; reflexivity.
  - apply remove_king_spec in H as [(? & _)|(_ & e & s1 & Hr & _ & ->)]; [discriminate|].
    rewrite undo_history_append.
    pose proof (removes_restore_id _ _ _ _ Hf Hr) as Hres.
    destruct Hr as [a b c p' H | a b c w' H]; simpl.
    + rewrite <- restore_cards_one_pyramid, Hres. reflexivity.
    + simpl in Hres. now injection Hres as ->.
  - apply remove_pair_spec in H
      as [(? & _)|(_ & e1 & e2 & s1 & s2 & Hr1 & Hr2 & _ & ->)]; [discriminate|].
    rewrite undo_history_append. simpl rev.
    rewrite restore_cards_cons.
    rewrite (removes_restore_id _ _ _ _ (removes_flags _ _ _ _ Hf Hr1) Hr2).
    cbn [mbind result_mbind result_bind].
    rewrite (removes_restore_id _ _ _ _ Hf Hr1). reflexivity.
  - apply redeal_spec in H as [(? & _)|(_ & _ & _ & ->)]; [discriminate|].
    rewrite undo_history_append. simpl. unfold set_redeals_used, set_waste, set_stock.
    simpl. destruct s; simpl. do 2 f_equal. f_equal. lia.
Qed.

(** A command that reports failure leaves the state as it was. *)
Lemma exec_false s cmd s' : exec cmd s = Ok (false, s') -> s' = s.
Proof.
  destruct cmd as [|loc|first second| |]; simpl; intros H.
  - apply draw_spec in H as [(_ & -> & _)|(? & _)]; [reflexivity | discriminate].
  - apply remove_king_spec in H as [(_ & ->)|(? & _)]; [reflexivity | discriminate].
  - apply remove_pair_spec in H as [(_ & ->)|(? & _)]; [reflexivity | discriminate].
  - apply redeal_spec in H as [(_ & -> & _)|(? & _)]; [reflexivity | discriminate].
  - unfold undo in H. destruct (py_pop (history s)) as [[m h]|]; [|now inv_bind].
    destruct m; inv_bind.
Qed.

(** ** Successful commands keep the invariants *)

Lemma waste_removed_snoc h m :
  waste_removed (h ++ [m]) = waste_removed h + move_waste_cards m.
Proof. induction h as [|m0 h IH]; simpl; lia. Qed.

Lemma waste_entries_two e1 e2 :
  waste_entries [e1; e2] = waste_entries [e1] + waste_entries [e2].
Proof.
  unfold waste_entries. simpl.
  destruct e1 as [[[t1 ?] ?] ?], e2 as [[[t2 ?] ?] ?].
  destruct (String.eqb t1 "waste"), (String.eqb t2 "waste"); simpl; lia.
Qed.

Lemma king_move_waste_cards s loc e s1 :
  removes s loc e s1 -> move_waste_cards (king_move e) = waste_entries [e].
Proof. destruct 1; reflexivity. Qed.

Lemma cards_counted_append s m : cards_counted (history_append s m) = cards_counted s.
Proof. reflexivity. Qed.

Lemma board_ok_history s h : board_ok s -> board_ok (set_history s h).
Proof. intros H. exact H. Qed.

Lemma step_board s cmd s' :
  board_ok s -> forward cmd -> exec cmd s = Ok (true, s') -> board_ok s'.
Proof.
  intros Hb Hfw H. destruct cmd as [|loc|first second| |]; simpl in H;
    [| | | |now destruct Hfw].
  - apply draw_spec in H as [(? & _)|(_ & c & st & Hst & ->)]; [discriminate|].
    exact Hb.
  - apply remove_king_spec in H as [(? & _)|(_ & e & s1 & Hr & _ & ->)]; [discriminate|].
    apply board_ok_history. eapply removes_board; eassumption.
  - apply remove_pair_spec in H
      as [(? & _)|(_ & e1 & e2 & s1 & s2 & Hr1 & Hr2 & _ & ->)]; [discriminate|].
    apply board_ok_history. eapply removes_board; [|eassumption].
    eapply removes_board; eassumption.
  - apply redeal_spec in H as [(? & _)|(_ & _ & _ & ->)]; [discriminate|].
    exact Hb.
Qed.

Lemma step_total s cmd s' :
  total_ok s -> forward cmd -> exec cmd s = Ok (true, s') -> total_ok s'.
Proof.
  unfold total_ok. intros Ht Hfw H.
  destruct cmd as [|loc|first second| |]; simpl in H; [| | | |now destruct Hfw].
  - apply draw_spec in H as [(? & _)|(_ & c & st & Hst & ->)]; [discriminate|].
    simpl. rewrite waste_removed_snoc. unfold cards_counted in *. simpl.
    rewrite Hst in Ht. unfold len in *. rewrite !length_app in *. simpl in *. lia.
  - apply remove_king_spec in H as [(? & _)|(_ & e & s1 & Hr & _ & ->)]; [discriminate|].
    simpl. rewrite waste_removed_snoc, (king_move_waste_cards _ _ _ _ Hr).
    rewrite (removes_history _ _ _ _ Hr).
    destruct (removes_counted _ _ _ _ Hr) as (Hc & _).
    rewrite cards_counted_append. lia.
  - apply remove_pair_spec in H
      as [(? & _)|(_ & e1 & e2 & s1 & s2 & Hr1 & Hr2 & _ & ->)]; [discriminate|].
    simpl. rewrite waste_removed_snoc. simpl. rewrite waste_entries_two.
    rewrite (removes_history _ _ _ _ Hr2), (removes_history _ _ _ _ Hr1).
    destruct (removes_counted _ _ _ _ Hr1) as (Hc1 & _).
    destruct (removes_counted _ _ _ _ Hr2) as (Hc2 & _).
    rewrite cards_counted_append. lia.
  - apply redeal_spec in H as [(? & _)|(_ & _ & _ & ->)]; [discriminate|].
    simpl. rewrite waste_removed_snoc. unfold cards_counted in *. simpl.
    unfold len in *. rewrite length_app, length_rev. simpl. lia.
Qed.

(** ** Fresh deals and reachable states *)

Lemma toy_shuffle_perm (g : bool) (l : list Card) : Permutation (toy_shuffle g l) l.
Proof.
  destruct g; simpl; [reflexivity|]. symmetry. apply Permutation_rev.
Qed.

Section Reachability.

Variable RandomState : Type.
Variable Random_seed : Z -> RandomState.
Variable shuffle : RandomState -> list Card -> list Card.

(** [random.shuffle] rearranges the list it is given. *)
Hypothesis shuffle_perm : forall g l, Permutation (shuffle g l) l.

Local Abbreviation reset' := (reset RandomState Random_seed shuffle).
Local Abbreviation Deck_init' := (Deck_init RandomState Random_seed shuffle).
Local Abbreviation reachable' := (reachable RandomState Random_seed shuffle).
Local Abbreviation played' := (played Random_seed shuffle).

Lemma Deck_init_length sd os : length (Deck_init' sd os) = 52%nat.
Proof.
  unfold Deck_init. rewrite (Permutation_length (shuffle_perm _ _)).
  reflexivity.
Qed.

(** A reset deals 28 cards to the pyramid and leaves 24 in the stock. *)
Lemma reset_Ok s0 os :
  exists s, reset' s0 os = Ok s
    /\ seed s = seed s0 /\ max_redeals s = max_redeals s0 /\ history s = []
    /\ board_ok s /\ cards_counted s = 52 /\ len (stock s) = 24 /\ waste s = []
    /\ removed_count s = 0 /\ redeals_used s = 0.
Proof.
  unfold reset. pose proof (Deck_init_length (seed s0) os) as Hlen.
  destruct (Deck_init' (seed s0) os) as [|? d]; [discriminate|].
  do 51 (destruct d as [|? d]; [discriminate|]).
  destruct d; [|discriminate].
  eexists. split; [vm_compute; reflexivity|].
  repeat split; vm_compute; reflexivity.
Qed.

Lemma reset_inv s0 os s :
  reset' s0 os = Ok s ->
  seed s = seed s0 /\ max_redeals s = max_redeals s0 /\ history s = []
  /\ board_ok s /\ cards_counted s = 52 /\ len (stock s) = 24 /\ waste s = []
  /\ removed_count s = 0 /\ redeals_used s = 0.
Proof.
  intros H. destruct (reset_Ok s0 os) as (s1 & H1 & Hrest).
  rewrite H in H1. injection H1 as <-. exact Hrest.
Qed.

Lemma played_inv s : played' s -> board_ok s /\ total_ok s.
Proof.
  induction 1 as [s0 os s H | s cmd s' Hp [Hb Ht] Hfw H].
  - apply reset_inv in H as (_ & _ & Hh & Hb & Hc & _). split; [exact Hb|].
    unfold total_ok. rewrite Hh, Hc. reflexivity.
  - split; [eapply step_board | eapply step_total]; eassumption.
Qed.

Lemma undo_empty s : history s = [] -> undo s = Ok (false, s).
Proof. unfold undo. intros ->. reflexivity. Qed.

(** Undo leads from a played state back to a played state: to the state
    before its last move, or nowhere when no move is left. *)
Lemma played_undo s b s' : played' s -> undo s = Ok (b, s') -> played' s'.
Proof.
  intros Hp Hu. inversion Hp as [s0 os s1 H | s0 cmd s1 Hp0 Hfw H]; subst.
  - apply reset_inv in H as (_ & _ & Hh & _).
    rewrite (undo_empty _ Hh) in Hu. injection Hu as <- <-. exact Hp.
  - destruct (played_inv _ Hp0) as ((_ & Hf & _) & _).
    rewrite (undo_exec _ _ _ Hf Hfw H) in Hu. injection Hu as <- <-. exact Hp0.
Qed.

(** Every reachable state is a fresh deal followed by successful forward
    commands: the moves still in its history. *)
Lemma reachable_played s : reachable' s -> played' s.
Proof.
  induction 1 as [sd mr os s H | s os s' Hr IH H | s cmd b s' Hr IH H].
  - eapply played_reset. exact H.
  - eapply played_reset. exact H.
  - assert (cmd = CUndo \/ forward cmd) as [->|Hfw]
      by (destruct cmd; (now left) || (now right)).
    + eapply played_undo; eassumption.
    + destruct b.
      * eapply played_step; eassumption.
      * apply exec_false in H as ->. exact IH.
Qed.

Lemma run_reachable cmds : forall s s', reachable' s -> run cmds s = Ok s' -> reachable' s'.
Proof.
  induction cmds as [|cmd rest IH]; simpl; intros s s' Hr H.
  - now injection H as <-.
  - apply bind_Ok in H as ([b s1] & H1 & H). eapply IH; [|exact H].
    eapply reach_exec; eassumption.
Qed.

(** ** Claims about reachable states *)

(** C1. In every reachable state, after a command among draw, remove_king,
    remove_pair and redeal has returned true, undo returns true and restores
    the pyramid, the stock, the waste, removed_count and redeals_used to
    their values before the command. *)
Theorem C1_undo_round_trip s cmd s' :
  reachable' s -> forward cmd -> exec cmd s = Ok (true, s') ->
  exists s'', undo s' = Ok (true, s'')
    /\ pyramid s'' = pyramid s /\ stock s'' = stock s /\ waste s'' = waste s
    /\ removed_count s'' = removed_count s /\ redeals_used s'' = redeals_used s.
Proof.
  intros Hr Hfw H. exists s.
  destruct (played_inv _ (reachable_played _ Hr)) as ((_ & Hf & _) & _).
  rewrite (undo_exec _ _ _ Hf Hfw H). repeat split.
Qed.

(** C2 (amended). In every reachable state removed_count equals the number
    of empty pyramid cells, and the occupied cells, the stock, the waste and
    removed_count, together with the cards that the moves still in the
    history took from the waste, add up to 52. *)
Theorem C2_card_count s :
  reachable' s ->
  removed_count s = empty_cells (pyramid s)
  /\ occupied_cells (pyramid s) + len (stock s) + len (waste s) + removed_count s
     + waste_removed (history s) = 52.
Proof.
  intros Hr. destruct (played_inv _ (reachable_played _ Hr)) as ((_ & _ & Hc) & Ht).
  split; [exact Hc | exact Ht].
Qed.

(** C8. For every integer seed, two constructions with that seed and the same
    max_redeals succeed and give the same pyramid, the same stock and an empty
    waste, whatever the operating system would have supplied to an unseeded
    generator. *)
Theorem C8_seeded_deal_deterministic (sd : Z) (mr : Z) (os1 os2 : RandomState) :
  exists s1 s2,
    GameState_init RandomState Random_seed shuffle (Some sd) mr os1 = Ok s1
    /\ GameState_init RandomState Random_seed shuffle (Some sd) mr os2 = Ok s2
    /\ pyramid s1 = pyramid s2 /\ stock s1 = stock s2
    /\ waste s1 = [] /\ waste s2 = [].
Proof.
  unfold GameState_init.
  destruct (reset_Ok {| seed := Some sd; max_redeals := mr; history := [];
                        pyramid := {| rows := []; removed := [] |};
                        stock := []; waste := [];
                        removed_count := 0; redeals_used := 0 |} os1)
    as (s1 & H1 & _ & _ & _ & _ & _ & _ & Hw & _).
  exists s1, s1. repeat split; try assumption.
Qed.

(** C9 (amended). In a game constructed with an integer seed, two resets in
    succession leave the state that one reset leaves. *)
Theorem C9_reset_idempotent_seeded s (z : Z) (os1 os2 os3 : RandomState) :
  seed s = Some z ->
  exists s1, reset RandomState Random_seed shuffle s os1 = Ok s1
    /\ (reset RandomState Random_seed shuffle s os2
          ≫= fun s' => reset RandomState Random_seed shuffle s' os3) = Ok s1.
Proof.
  intros Hs. destruct (reset_Ok s os1) as (s1 & H1 & Hsd & Hmr & _).
  exists s1. split; [exact H1|].
  assert (Hsame : forall a b osa osb, seed a = Some z -> seed b = Some z ->
                                     max_redeals a = max_redeals b ->
                                     reset' a osa = reset' b osb).
  { intros a b osa osb Ha Hb Hm. unfold reset, Deck_init, Random.
    rewrite Ha, Hb, Hm. reflexivity. }
  rewrite (Hsame s s os2 os1 Hs Hs eq_refl), H1.
  cbn [mbind result_mbind result_bind].
  rewrite <- H1. apply Hsame; congruence.
Qed.

(** C10. In every reachable state whose last move is a draw, the waste is
    not empty and its top card is the card of the record, so the assertion
    of undo_draw holds and undo returns true. *)
Theorem C10_undo_draw_assertion s h card :
  reachable' s -> history s = h ++ [MDraw card] ->
  waste s <> [] /\ py_top (waste s) = Some card
  /\ exists s', undo s = Ok (true, s').
Proof.
  intros Hr Hh. pose proof (reachable_played _ Hr) as Hp.
  inversion Hp as [s0 os s1 H | s0 cmd s1 Hp0 Hfw H]; subst.
  - apply reset_inv in H as (_ & _ & Hh0 & _). rewrite Hh0 in Hh.
    now destruct h.
  - destruct (played_inv _ Hp0) as ((_ & Hf & _) & _).
    pose proof (undo_exec _ _ _ Hf Hfw H) as Hu.
    assert (Hpop : py_top (waste s) = Some card).
    { unfold undo in Hu. rewrite Hh, py_pop_snoc in Hu.
      apply bind_Ok in Hu as (s2 & Hd & _). unfold undo_draw in Hd. simpl in Hd.
      unfold py_top. destruct (py_pop (waste s)) as [[top w]|]; [|discriminate].
      destruct (bool_decide_reflect (top = card)) as [->|]; [reflexivity | discriminate]. }
    split; [|split; [exact Hpop | eauto]].
    intros Hw. rewrite Hw in Hpop. discriminate.
Qed.

End Reachability.

(** ** Concrete games *)

Lemma toy_game_reachable mr : reachable bool toy_seed toy_shuffle (toy_game mr).
Proof. apply (reach_init _ _ _ (Some 1) mr true). reflexivity. Qed.

Lemma toy_after_reachable mr cmds s :
  run cmds (toy_game mr) = Ok s -> reachable bool toy_seed toy_shuffle s.
Proof. apply run_reachable, toy_game_reachable. Qed.

(** The King of diamonds lies exposed in the last row of the toy game:
    removing it and undoing gives the game back. *)
Lemma C1_undo_round_trip_witness :
  reachable bool toy_seed toy_shuffle (toy_game 0)
  /\ forward (CRemoveKing ("pyramid", 6, 5))
  /\ exec (CRemoveKing ("pyramid", 6, 5)) (toy_game 0)
     = Ok (true, toy_after 0 [CRemoveKing ("pyramid", 6, 5)])
  /\ exists s'', undo (toy_after 0 [CRemoveKing ("pyramid", 6, 5)]) = Ok (true, s'')
       /\ pyramid s'' = pyramid (toy_game 0) /\ stock s'' = stock (toy_game 0)
       /\ waste s'' = waste (toy_game 0)
       /\ removed_count s'' = removed_count (toy_game 0)
       /\ redeals_used s'' = redeals_used (toy_game 0).
Proof.
  pose proof (toy_game_reachable 0) as Hr.
  assert (Hfw : forward (CRemoveKing ("pyramid", 6, 5))) by discriminate.
  assert (He : exec (CRemoveKing ("pyramid", 6, 5)) (toy_game 0)
               = Ok (true, toy_after 0 [CRemoveKing ("pyramid", 6, 5)]))
    by (vm_compute; reflexivity).
  exact (conj Hr (conj Hfw (conj He
    (C1_undo_round_trip bool toy_seed toy_shuffle toy_shuffle_perm _ _ _ Hr Hfw He)))).
Defined.

(** Drawing the Jack of diamonds and pairing it with the 2 of hearts of the
    last row takes a card out of the waste that no counter records: the sum
    of the specification drops to 51. *)
Lemma C2_counterexample :
  reachable bool toy_seed toy_shuffle
    (toy_after 0 [CDraw; CRemovePair ("waste", 0, 0) ("pyramid", 6, 3)])
  /\ (let s := toy_after 0 [CDraw; CRemovePair ("waste", 0, 0) ("pyramid", 6, 3)] in
      occupied_cells (pyramid s) + len (stock s) + len (waste s) + removed_count s
      <> 52).
Proof.
  split.
  - apply (toy_after_reachable 0 [CDraw; CRemovePair ("waste", 0, 0) ("pyramid", 6, 3)]).
    reflexivity.
  - vm_compute. discriminate.
Qed.

Lemma C2_card_count_witness :
  reachable bool toy_seed toy_shuffle
    (toy_after 0 [CDraw; CRemovePair ("waste", 0, 0) ("pyramid", 6, 3)])
  /\ (let s := toy_after 0 [CDraw; CRemovePair ("waste", 0, 0) ("pyramid", 6, 3)] in
      removed_count s = empty_cells (pyramid s)
      /\ occupied_cells (pyramid s) + len (stock s) + len (waste s) + removed_count s
         + waste_removed (history s) = 52).
Proof.
  assert (Hr : reachable bool toy_seed toy_shuffle
                 (toy_after 0 [CDraw; CRemovePair ("waste", 0, 0) ("pyramid", 6, 3)])).
  { apply (toy_after_reachable 0 [CDraw; CRemovePair ("waste", 0, 0) ("pyramid", 6, 3)]).
    reflexivity. }
  exact (conj Hr (C2_card_count bool toy_seed toy_shuffle toy_shuffle_perm _ Hr)).
Defined.

Lemma C8_seeded_deal_deterministic_witness :
  (forall g l, Permutation (toy_shuffle g l) l)
  /\ exists s1 s2,
       GameState_init bool toy_seed toy_shuffle (Some 1) 0 true = Ok s1
       /\ GameState_init bool toy_seed toy_shuffle (Some 1) 0 false = Ok s2
       /\ pyramid s1 = pyramid s2 /\ stock s1 = stock s2
       /\ waste s1 = [] /\ waste s2 = [].
Proof.
  exact (conj toy_shuffle_perm
    (C8_seeded_deal_deterministic bool toy_seed toy_shuffle toy_shuffle_perm 1 0 true false)).
Defined.

(** An unseeded game takes a new generator from the operating system at
    every reset: with the deck once left in order and once reversed, the
    second reset deals another pyramid than the first. *)
Lemma C9_counterexample :
  exists s s1 s2,
    seed s = None
    /\ reset bool toy_seed toy_shuffle s true = Ok s1
    /\ (reset bool toy_seed toy_shuffle s true
          ≫= fun s' => reset bool toy_seed toy_shuffle s' false) = Ok s2
    /\ pyramid s2 <> pyramid s1.
Proof.
  exists (state_of (toy_new None 0 true)).
  eexists. eexists. split; [reflexivity|].
  split; [vm_compute; reflexivity|].
  split; [vm_compute; reflexivity|].
  intros H. apply (f_equal (fun p => rows p !! 0%nat)) in H. vm_compute in H.
  discriminate.
Qed.

Lemma C9_reset_idempotent_seeded_witness :
  (forall g l, Permutation (toy_shuffle g l) l)
  /\ seed (toy_game 0) = Some 1
  /\ exists s1, reset bool toy_seed toy_shuffle (toy_game 0) true = Ok s1
       /\ (reset bool toy_seed toy_shuffle (toy_game 0) false
             ≫= fun s' => reset bool toy_seed toy_shuffle s' false) = Ok s1.
Proof.
  assert (Hs : seed (toy_game 0) = Some 1) by reflexivity.
  exact (conj toy_shuffle_perm (conj Hs
    (C9_reset_idempotent_seeded bool toy_seed toy_shuffle toy_shuffle_perm
       (toy_game 0) 1 true false false Hs))).
Defined.

Lemma C10_undo_draw_assertion_witness :
  reachable bool toy_seed toy_shuffle (toy_after 0 [CDraw])
  /\ history (toy_after 0 [CDraw]) = [] ++ [MDraw (mkCard RJ SD)]
  /\ waste (toy_after 0 [CDraw]) <> []
  /\ py_top (waste (toy_after 0 [CDraw])) = Some (mkCard RJ SD)
  /\ exists s', undo (toy_after 0 [CDraw]) = Ok (true, s').
Proof.
  assert (Hr : reachable bool toy_seed toy_shuffle (toy_after 0 [CDraw]))
    by (apply (toy_after_reachable 0 [CDraw]); reflexivity).
  assert (Hh : history (toy_after 0 [CDraw]) = [] ++ [MDraw (mkCard RJ SD)])
    by reflexivity.
  exact (conj Hr (conj Hh
    (C10_undo_draw_assertion bool toy_seed toy_shuffle toy_shuffle_perm _ _ _ Hr Hh))).
Defined.

(** ** Redeal *)

(** C3 (amended). After a successful redeal the stock is the old stock
    followed by the old waste reversed, the waste is empty, redeals_used has
    grown by one, and the card discarded first (the bottom of the waste
    before the redeal) is the card the next draw moves onto the waste. *)
Theorem C3_redeal_order s s' :
  redeal s = Ok (true, s') ->
  stock s' = stock s ++ rev (waste s)
  /\ waste s' = []
  /\ redeals_used s' = redeals_used s + 1
  /\ exists c s'', head (waste s) = Some c
       /\ draw s' = Ok (true, s'') /\ py_top (waste s'') = Some c.
Proof.
  intros H. apply redeal_spec in H as [(? & _)|(_ & _ & Hw & ->)]; [discriminate|].
  simpl. repeat split.
  destruct (waste s) as [|c w] eqn:E; [now destruct Hw|].
  exists c. unfold draw. simpl. rewrite app_assoc, py_pop_snoc.
  eexists. repeat split.
Qed.

Lemma C3_redeal_order_witness :
  redeal (toy_after 1 [CDraw; CDraw]) = Ok (true, toy_after 1 [CDraw; CDraw; CRedeal])
  /\ stock (toy_after 1 [CDraw; CDraw; CRedeal])
     = stock (toy_after 1 [CDraw; CDraw]) ++ rev (waste (toy_after 1 [CDraw; CDraw]))
  /\ waste (toy_after 1 [CDraw; CDraw; CRedeal]) = []
  /\ redeals_used (toy_after 1 [CDraw; CDraw; CRedeal])
     = redeals_used (toy_after 1 [CDraw; CDraw]) + 1
  /\ exists c s'', head (waste (toy_after 1 [CDraw; CDraw])) = Some c
       /\ draw (toy_after 1 [CDraw; CDraw; CRedeal]) = Ok (true, s'')
       /\ py_top (waste s'') = Some c.
Proof.
  assert (H : redeal (toy_after 1 [CDraw; CDraw])
              = Ok (true, toy_after 1 [CDraw; CDraw; CRedeal]))
    by (vm_compute; reflexivity).
  exact (conj H (C3_redeal_order _ _ H)).
Defined.

(** With the Jack and then the 10 of diamonds drawn, a redeal puts the
    Jack, not the 10 that was on top of the waste, on top of the stock. *)
Lemma C3_counterexample :
  reachable bool toy_seed toy_shuffle (toy_after 1 [CDraw; CDraw])
  /\ py_top (waste (toy_after 1 [CDraw; CDraw])) = Some (mkCard R10 SD)
  /\ exists s' s'',
       redeal (toy_after 1 [CDraw; CDraw]) = Ok (true, s')
       /\ draw s' = Ok (true, s'')
       /\ py_top (waste s'') = Some (mkCard RJ SD)
       /\ py_top (waste s'') <> py_top (waste (toy_after 1 [CDraw; CDraw])).
Proof.
  split; [apply (toy_after_reachable 1 [CDraw; CDraw]); vm_compute; reflexivity|].
  split; [vm_compute; reflexivity|].
  eexists. eexists. split; [vm_compute; reflexivity|].
  split; [vm_compute; reflexivity|].
  split; [vm_compute; reflexivity|]. vm_compute. discriminate.
Qed.

(** ** Waste locations in [remove_king] *)

(** On a waste location [remove_king] looks at the top of the waste whatever
    index the location carries. *)
Lemma remove_king_waste_any_index s a b c w :
  waste s = w ++ [c] -> value c = 13 ->
  remove_king s ("waste", a, b)
  = Ok (true, history_append (set_waste s w) (MRemoveKingWaste c)).
Proof.
  intros Hw Hk. unfold remove_king. simpl.
  rewrite Hw, py_pop_snoc.
  rewrite bool_decide_false by (now destruct w). simpl.
  rewrite Hk. reflexivity.
Qed.

(** C4. After twelve draws in the toy game the waste holds twelve cards
    with the King of clubs on top, at index 11; [remove_king] on the waste
    location of index 0 returns true and takes the King off the waste. *)
Theorem C4_remove_king_stale_waste_index :
  reachable bool toy_seed toy_shuffle (toy_after 0 (replicate 12 CDraw))
  /\ length (waste (toy_after 0 (replicate 12 CDraw))) = 12%nat
  /\ py_top (waste (toy_after 0 (replicate 12 CDraw))) = Some (mkCard RK SC)
  /\ get_card (toy_after 0 (replicate 12 CDraw)) ("waste", 0, 0) = Ok None
  /\ exists s', remove_king (toy_after 0 (replicate 12 CDraw)) ("waste", 0, 0)
                = Ok (true, s')
       /\ length (waste s') = 11%nat.
Proof.
  split; [apply (toy_after_reachable 0 (replicate 12 CDraw)); vm_compute; reflexivity|].
  split; [vm_compute; reflexivity|]. split; [vm_compute; reflexivity|].
  split; [vm_compute; reflexivity|].
  eexists. split; [vm_compute; reflexivity | vm_compute; reflexivity].
Qed.

(** ** Failed commands *)

(** C5. Whenever draw, remove_king, remove_pair, redeal or undo returns
    false, the whole state (pyramid, stock, waste, removed_count,
    redeals_used, history) is the state before the call. *)
Theorem C5_failure_leaves_state s cmd s' :
  exec cmd s = Ok (false, s') -> s' = s.
Proof. apply exec_false. Qed.

(** The Queen of spades of the second row is covered: pairing it with the
    Ace of hearts of the last row is refused. *)
Lemma C5_failure_leaves_state_witness :
  exec (CRemovePair ("pyramid", 1, 0) ("pyramid", 6, 4)) (toy_game 0)
  = Ok (false, toy_game 0)
  /\ toy_game 0 = toy_game 0.
Proof.
  assert (H : exec (CRemovePair ("pyramid", 1, 0) ("pyramid", 6, 4)) (toy_game 0)
              = Ok (false, toy_game 0)) by (vm_compute; reflexivity).
  exact (conj H (C5_failure_leaves_state _ _ _ H)).
Defined.

(** ** Exposure *)

Lemma grid_get_nat {A} (g : list (list A)) (i j : nat) (r : list A) (x : A) :
  g !! i = Some r -> r !! j = Some x ->
  grid_get g (Z.of_nat i) (Z.of_nat j) = Ok x.
Proof.
  intros Hr Hx. apply grid_get_Ok. exists i, j, r.
  repeat split; try assumption; apply py_norm_nat; eapply lookup_lt_Some; eassumption.
Qed.

Lemma triangular_length {A} (g : list (list A)) : triangular g -> length g = 7%nat.
Proof.
  unfold triangular. intros H. apply (f_equal length) in H.
  now rewrite length_map, length_seq in H.
Qed.

Lemma triangular_row {A} (g : list (list A)) (i : nat) :
  triangular g -> (i < 7)%nat -> exists r, g !! i = Some r /\ length r = S i.
Proof.
  unfold triangular. intros H Hi.
  assert (Hl : (length <$> g) !! i = Some (S i)).
  { change (map length g !! i = Some (S i)). rewrite H. now apply lookup_seq. }
  rewrite list_lookup_fmap in Hl.
  destruct (g !! i) as [r|]; [|discriminate]. injection Hl as Hl. eauto.
Qed.

(** Every cell of a triangular grid can be read. *)
Lemma triangular_cell {A} (g : list (list A)) (row col : Z) :
  triangular g -> 0 <= col <= row -> row <= 6 -> exists x, grid_get g row col = Ok x.
Proof.
  intros Ht Hc Hr.
  destruct (triangular_row g (Z.to_nat row) Ht) as (r & Hrow & Hlen); [lia|].
  destruct (lookup_lt_is_Some_2 r (Z.to_nat col)) as (x & Hx); [lia|].
  exists x. rewrite <- (Z2Nat.id row), <- (Z2Nat.id col) by lia.
  eapply grid_get_nat; eassumption.
Qed.

Lemma is_exposed_rule p row col :
  triangular (rows p) -> 0 <= col <= row -> row <= 6 ->
  exists b, is_exposed p row col = Ok b /\ (b = true <-> exposed_spec p row col).
Proof.
  intros Ht Hc Hr. unfold exposed_spec, holds_card, cell_empty, card_at, is_exposed.
  destruct (triangular_cell _ row col Ht Hc Hr) as (here & Hhere). rewrite Hhere.
  rewrite (triangular_length _ Ht). cbn [mbind result_mbind result_bind].
  destruct here as [card|].
  2:{ exists false. split; [reflexivity|]. split; [discriminate|].
      intros ((c0 & [=]) & _). }
  destruct (Z.eqb_spec row (Z.of_nat 7 - 1)) as [Hlast|Hlast].
  { exists true. split; [reflexivity|]. split; [|reflexivity].
    intros _. split; [eauto | left; lia]. }
  destruct (triangular_cell _ (row + 1) col Ht) as (l & Hl); [lia | lia |].
  destruct (triangular_cell _ (row + 1) (col + 1) Ht) as (r & Hrt); [lia | lia |].
  rewrite Hl. cbn [mbind result_mbind result_bind].
  destruct l as [cl|].
  { exists false. split; [reflexivity|]. split; [discriminate|].
    intros (_ & [Hrow | ([=] & _)]). lia. }
  rewrite Hrt. cbn [mbind result_mbind result_bind].
  destruct r as [cr|].
  - exists false. split; [reflexivity|]. split; [discriminate|].
    intros (_ & [Hrow | (_ & [=])]). lia.
  - exists true. split; [reflexivity|]. split; [|reflexivity].
    intros _. split; [eauto | right; split; reflexivity].
Qed.

Lemma is_exposed_true_iff p row col :
  triangular (rows p) -> 0 <= col <= row -> row <= 6 ->
  is_exposed p row col = Ok true <-> exposed_spec p row col.
Proof.
  intros Ht Hc Hr. destruct (is_exposed_rule p row col Ht Hc Hr) as (b & Hb & Hiff).
  rewrite Hb, <- Hiff. split; congruence.
Qed.

(** C7. For every row r and column c with 0 <= c <= r <= 6 of a seven-row
    pyramid, is_exposed returns, and returns true iff the cell holds a card
    and r = 6 or both cells (r+1, c) and (r+1, c+1) are empty. *)
Theorem C7_is_exposed_rule p row col :
  triangular (rows p) -> 0 <= col <= row -> row <= 6 ->
  exists b, is_exposed p row col = Ok b
    /\ (b = true <->
        holds_card p row col
        /\ (row = 6 \/ (cell_empty p (row + 1) col /\ cell_empty p (row + 1) (col + 1)))).
Proof.
  intros Ht Hc Hr. destruct (is_exposed_rule p row col Ht Hc Hr) as (b & Hb & Hiff).
  exists b. split; [exact Hb | exact Hiff].
Qed.

(** The King of diamonds at (6, 5) of the toy game is exposed. *)
Lemma C7_is_exposed_rule_witness :
  triangular (rows (pyramid (toy_game 0))) /\ 0 <= 5 <= 6 /\ 6 <= 6
  /\ exists b, is_exposed (pyramid (toy_game 0)) 6 5 = Ok b
       /\ (b = true <->
           holds_card (pyramid (toy_game 0)) 6 5
           /\ (6 = 6 \/ (cell_empty (pyramid (toy_game 0)) (6 + 1) 5
                          /\ cell_empty (pyramid (toy_game 0)) (6 + 1) (5 + 1)))).
Proof.
  assert (Ht : triangular (rows (pyramid (toy_game 0)))) by (vm_compute; reflexivity).
  assert (Hc : 0 <= 5 <= 6) by lia.
  assert (Hr : 6 <= 6) by lia.
  exact (conj Ht (conj Hc (conj Hr (C7_is_exposed_rule _ 6 5 Ht Hc Hr)))).
Defined.

(** ** Legal moves *)

Lemma py_norm_nonneg (n : nat) (i : Z) (k : nat) :
  0 <= i -> py_norm n i = Some k -> i = Z.of_nat k.
Proof.
  unfold py_norm. intros Hi H.
  destruct ((0 <=? i) && (i <? Z.of_nat n)); [injection H as <-; lia|].
  destruct (Z.ltb_spec i 0); [lia|]. rewrite andb_false_r in H. discriminate.
Qed.

Lemma enumerate_In {A} (l : list A) (i : Z) (x : A) :
  In (i, x) (enumerate l) <-> exists k, i = Z.of_nat k /\ l !! k = Some x.
Proof.
  unfold enumerate. rewrite <- list_elem_of_In, elem_of_lookup_imap. split.
  - intros (k & y & [= -> ->] & H). eauto.
  - intros (k & -> & H). eauto.
Qed.

(** [all_cards] yields every cell once, with its row and column. *)
Lemma all_cards_In p (r c : Z) (o : option Card) :
  In (r, c, o) (all_cards p) <->
  exists i j row, r = Z.of_nat i /\ c = Z.of_nat j
                  /\ rows p !! i = Some row /\ row !! j = Some o.
Proof.
  unfold all_cards. rewrite in_concat. split.
  - intros (cells & Hcells & Hin). apply in_map_iff in Hcells as ([r0 row] & <- & Hrow).
    apply in_map_iff in Hin as ([c0 o0] & [= <- <- <-] & Hcell).
    apply enumerate_In in Hrow as (i & -> & Hrow).
    apply enumerate_In in Hcell as (j & -> & Hcell). eauto 10.
  - intros (i & j & row & -> & -> & Hrow & Hcell).
    exists (map (fun '(c, card) => (Z.of_nat i, c, card)) (enumerate row)). split.
    + apply in_map_iff. exists (Z.of_nat i, row). split; [reflexivity|].
      apply enumerate_In. eauto.
    + apply in_map_iff. exists (Z.of_nat j, o). split; [reflexivity|].
      apply enumerate_In. eauto.
Qed.

Lemma all_cards_cell p (r c : Z) (o : option Card) :
  triangular (rows p) ->
  In (r, c, o) (all_cards p) <-> 0 <= c <= r /\ r <= 6 /\ card_at p r c = Ok o.
Proof.
  intros Ht. rewrite all_cards_In. unfold card_at. split.
  - intros (i & j & row & -> & -> & Hrow & Hcell).
    assert (Hi : (i < 7)%nat).
    { rewrite <- (triangular_length _ Ht). eapply lookup_lt_Some; eassumption. }
    destruct (triangular_row _ i Ht Hi) as (row' & Hrow' & Hlen).
    assert (row' = row) as -> by congruence.
    apply lookup_lt_Some in Hcell as Hj.
    split; [lia|]. split; [lia|]. eapply grid_get_nat; eassumption.
  - intros (Hc & Hr & Hg).
    apply grid_get_Ok in Hg as (i & j & row & Hi & Hrow & Hj & Hcell).
    apply py_norm_nonneg in Hi; [|lia]. apply py_norm_nonneg in Hj; [|lia].
    eauto 10.
Qed.

Lemma scan_pyramid_spec p cells :
  (forall r c cd, In (r, c, Some cd) cells -> exists b, is_exposed p r c = Ok b) ->
  forall acc, exists res, scan_pyramid p cells acc = Ok res /\
    match res with
    | None =>
        exists r c cd, In (r, c, Some cd) cells
                       /\ is_exposed p r c = Ok true /\ value cd = 13
    | Some vals =>
        (forall r c cd, In (r, c, Some cd) cells -> is_exposed p r c = Ok true ->
                        value cd <> 13)
        /\ forall v, In v vals <->
             In v acc \/ exists r c cd, In (r, c, Some cd) cells
                                        /\ is_exposed p r c = Ok true /\ value cd = v
    end.
Proof.
  induction cells as [|[[r c] o] cells IH]; intros Htot acc.
  - exists (Some acc). split; [reflexivity|]. split.
    + intros r c cd [].
    + intros v. split; [now left|]. intros [H|(r & c & cd & [] & _)]. exact H.
  - assert (Htot' : forall r c cd, In (r, c, Some cd) cells ->
                                   exists b, is_exposed p r c = Ok b)
      by (intros; eapply Htot; right; eassumption).
    specialize (IH Htot'). simpl.
    assert (Hskip : forall acc',
      (forall cd, o = Some cd -> is_exposed p r c = Ok true ->
                  value cd <> 13 /\ forall v, In v acc' <-> In v acc \/ value cd = v) ->
      (forall v, (o = None \/ is_exposed p r c = Ok false) -> In v acc' <-> In v acc) ->
      exists res, scan_pyramid p cells acc' = Ok res /\
        match res with
        | None =>
            exists r0 c0 cd, In (r0, c0, Some cd) ((r, c, o) :: cells)
                             /\ is_exposed p r0 c0 = Ok true /\ value cd = 13
        | Some vals =>
            (forall r0 c0 cd, In (r0, c0, Some cd) ((r, c, o) :: cells) ->
                              is_exposed p r0 c0 = Ok true -> value cd <> 13)
            /\ forall v, In v vals <->
                 In v acc \/ exists r0 c0 cd, In (r0, c0, Some cd) ((r, c, o) :: cells)
                                /\ is_exposed p r0 c0 = Ok true /\ value cd = v
        end).
    { intros acc' Hexp Hnot. destruct (IH acc') as (res & Hres & Hspec).
      exists res. split; [exact Hres|]. destruct res as [vals|].
      - destruct Hspec as (Hnk & Hvals). split.
        + intros r0 c0 cd [[= -> -> ->]|Hin] He; [|eauto].
          now destruct (Hexp cd eq_refl He).
        + intros v. rewrite Hvals. split.
          * intros [Hacc|(r0 & c0 & cd & Hin & He & Hv)].
            -- destruct o as [cd|]; [|left; apply (Hnot v); auto].
               destruct (Htot r c cd (or_introl eq_refl)) as ([|] & He).
               ++ destruct (Hexp cd eq_refl He) as (_ & Hacc').
                  apply Hacc' in Hacc as [Hacc| <-]; [now left|].
                  right. exists r, c, cd. repeat split; [now left | exact He].
               ++ left. apply (Hnot v); auto.
            -- right. exists r0, c0, cd. repeat split; [now right | exact He | exact Hv].
          * intros [Hacc|(r0 & c0 & cd & [[= -> -> ->]|Hin] & He & Hv)].
            -- left. destruct o as [cd|]; [|apply (Hnot v); auto].
               destruct (Htot r c cd (or_introl eq_refl)) as ([|] & He).
               ++ apply (Hexp cd eq_refl He). now left.
               ++ apply (Hnot v); auto.
            -- left. apply (Hexp cd eq_refl He). now right.
            -- right. eauto 10.
      - destruct Hspec as (r0 & c0 & cd & Hin & He & Hk).
        exists r0, c0, cd. repeat split; [now right | exact He | exact Hk]. }
    destruct o as [cd|].
    + destruct (Htot r c cd (or_introl eq_refl)) as (b & He). rewrite He.
      cbn [mbind result_mbind result_bind]. destruct b.
      * destruct (Z.eqb_spec (value cd) 13) as [Hk|Hk].
        -- exists None. split; [reflexivity|].
           exists r, c, cd. repeat split; [now left | exact He | exact Hk].
        -- apply Hskip.
           ++ intros cd' [= <-] _. split; [exact Hk|].
              intros v. rewrite in_app_iff. simpl. tauto.
           ++ intros v [[=]|Hf]. congruence.
      * apply Hskip.
        -- intros cd' _ Ht. congruence.
        -- intros v _. reflexivity.
    + apply Hskip.
      * intros cd [=].
      * intros v _. reflexivity.
Qed.

Lemma pair_sums_13_spec (values : list Z) :
  pair_sums_13 values = true <->
  exists x y, In x values /\ In y values /\ x + y = 13.
Proof.
  induction values as [|v rest IH]; simpl.
  - split; [discriminate | intros (x & _ & [] & _)].
  - rewrite orb_true_iff, existsb_exists, IH. split.
    + intros [(w & Hw & Hs)|(x & y & Hx & Hy & Hs)].
      * apply Z.eqb_eq in Hs. exists v, w. auto.
      * exists x, y. auto.
    + intros (x & y & [<-|Hx] & [<-|Hy] & Hs).
      * lia.
      * left. exists y. split; [exact Hy | now apply Z.eqb_eq].
      * left. exists x. split; [exact Hx | apply Z.eqb_eq; lia].
      * right. eauto.
Qed.

Lemma is_exposed_returns p row col :
  triangular (rows p) -> 0 <= col <= row -> row <= 6 ->
  exists b, is_exposed p row col = Ok b.
Proof.
  intros Ht Hc Hr. unfold is_exposed.
  destruct (triangular_cell _ row col Ht Hc Hr) as ([card|] & ->);
    cbn [mbind result_mbind result_bind]; [|eauto].
  destruct (row =? Z.of_nat (length (rows p)) - 1) eqn:E; [eauto|].
  rewrite (triangular_length _ Ht) in E. apply Z.eqb_neq in E.
  destruct (triangular_cell _ (row + 1) col Ht) as ([cl|] & ->); [lia | lia | |];
    cbn [mbind result_mbind result_bind]; [eauto|].
  destruct (triangular_cell _ (row + 1) (col + 1) Ht) as (r & ->); [lia | lia |].
  cbn [mbind result_mbind result_bind]. eauto.
Qed.

Lemma exposed_card_fun s sl c1 c2 :
  exposed_card s sl c1 -> exposed_card s sl c2 -> c1 = c2.
Proof.
  destruct sl as [row col|]; simpl.
  - intros (_ & _ & H1 & _) (_ & _ & H2 & _). congruence.
  - congruence.
Qed.

(** When the collected values are the values of the exposed cards, a pair
    of positions summing to 13 is a pair of distinct exposed cards. *)
Lemma pair_sums_13_exposed s (values : list Z) :
  (forall v, In v values <-> exists sl cd, exposed_card s sl cd /\ value cd = v) ->
  pair_sums_13 values = true <->
  exists sl1 sl2 c1 c2, sl1 <> sl2 /\ exposed_card s sl1 c1 /\ exposed_card s sl2 c2
                        /\ value c1 + value c2 = 13.
Proof.
  intros Hv. rewrite pair_sums_13_spec. split.
  - intros (x & y & Hx & Hy & Hs).
    apply Hv in Hx as (sl1 & c1 & H1 & <-). apply Hv in Hy as (sl2 & c2 & H2 & <-).
    exists sl1, sl2, c1, c2. repeat split; try assumption.
    intros ->. pose proof (exposed_card_fun _ _ _ _ H1 H2) as ->. lia.
  - intros (sl1 & sl2 & c1 & c2 & _ & H1 & H2 & Hs).
    exists (value c1), (value c2). repeat split; [apply Hv; eauto | apply Hv; eauto | exact Hs].
Qed.

(** C6. In a game with a seven-row pyramid, legal_moves_remaining returns,
    and returns true iff the stock is non-empty, or the waste is non-empty
    and a redeal is still available, or an exposed pyramid card is a King, or
    the waste top is a King, or two distinct exposed cards (exposed pyramid
    cards and the waste top) have values summing to 13. *)
Theorem C6_legal_moves_remaining s :
  triangular (rows (pyramid s)) ->
  exists b, legal_moves_remaining s = Ok b /\ (b = true <-> legal_moves_spec s).
Proof.
  intros Ht.
  assert (Hcell : forall r c cd,
            In (r, c, Some cd) (all_cards (pyramid s))
            /\ is_exposed (pyramid s) r c = Ok true
            <-> exposed_card s (PyramidSlot r c) cd).
  { intros r c cd. simpl. rewrite (all_cards_cell _ _ _ _ Ht). split.
    - intros ((Hc & Hr & Hcard) & He).
      split; [exact Hc|]. split; [exact Hr|]. split; [exact Hcard|].
      now apply is_exposed_true_iff.
    - intros (Hc & Hr & Hcard & He).
      split; [auto|]. now apply is_exposed_true_iff. }
  assert (Htot : forall r c cd, In (r, c, Some cd) (all_cards (pyramid s)) ->
                                exists b, is_exposed (pyramid s) r c = Ok b).
  { intros r c cd Hin. apply (all_cards_cell _ _ _ _ Ht) in Hin as (Hc & Hr & _).
    now apply is_exposed_returns. }
  unfold legal_moves_remaining, legal_moves_spec.
  destruct (bool_decide_reflect (stock s = [])) as [Hst|Hst]; simpl;
    [|exists true; split; [reflexivity | split; auto]].
  destruct (scan_pyramid_spec (pyramid s) (all_cards (pyramid s)) Htot [])
    as (res & Hres & Hspec).
  destruct (bool_decide_reflect (waste s = [])) as [Hw|Hw]; simpl.
  - (* empty waste *)
    rewrite Hres. cbn [mbind result_mbind result_bind]. destruct res as [vals|].
    + destruct Hspec as (Hnk & Hvals).
      assert (Htop : py_top (waste s) = None) by now rewrite Hw.
      rewrite Htop.
      exists (pair_sums_13 vals). split; [reflexivity|].
      assert (Hv : forall v, In v vals <->
                             exists sl cd, exposed_card s sl cd /\ value cd = v).
      { intros v. rewrite Hvals. split.
        - intros [[]|(r & c & cd & Hin & He & Hval)].
          exists (PyramidSlot r c), cd. split; [now apply Hcell | exact Hval].
        - intros ([r c|] & cd & Hexp & Hval).
          + apply Hcell in Hexp as (Hin & He). right. eauto 10.
          + simpl in Hexp. congruence. }
      rewrite (pair_sums_13_exposed s vals Hv). split; [auto 10|].
      intros [H|[(H & _)|[(r & c & cd & Hexp & Hk)|[(cd & Hexp & _)|H]]]];
        [contradiction | contradiction | | | exact H].
      * exfalso. apply Hcell in Hexp as (Hin & He). now apply (Hnk r c cd).
      * simpl in Hexp. congruence.
    + exists true. split; [reflexivity|]. split; [|reflexivity]. intros _.
      destruct Hspec as (r & c & cd & Hin & He & Hk).
      right. right. left. exists r, c, cd. split; [now apply Hcell | exact Hk].
  - (* a card on the waste *)
    destruct (Z.ltb_spec (redeals_used s) (max_redeals s)) as [Hre|Hre];
      [exists true; split; [reflexivity | split; auto]|].
    rewrite Hres. cbn [mbind result_mbind result_bind]. destruct res as [vals|].
    + destruct Hspec as (Hnk & Hvals).
      destruct (py_top (waste s)) as [card|] eqn:Etop.
      2:{ exfalso. unfold py_top in Etop.
          destruct (py_pop (waste s)) eqn:E; [discriminate|].
          now apply py_pop_None in E. }
      destruct (Z.eqb_spec (value card) 13) as [Hk|Hk].
      { exists true. split; [reflexivity|]. split; [|reflexivity]. intros _.
        right. right. right. left. exists card. simpl. auto. }
      exists (pair_sums_13 (vals ++ [value card])). split; [reflexivity|].
      assert (Hv : forall v, In v (vals ++ [value card]) <->
                             exists sl cd, exposed_card s sl cd /\ value cd = v).
      { intros v. rewrite in_app_iff, Hvals. simpl. split.
        - intros [[[]|(r & c & cd & Hin & He & Hval)]|[<-|[]]].
          + exists (PyramidSlot r c), cd. split; [now apply Hcell | exact Hval].
          + exists WasteTop, card. simpl. auto.
        - intros ([r c|] & cd & Hexp & Hval).
          + apply Hcell in Hexp as (Hin & He). left. right. eauto 10.
          + simpl in Hexp. right. left. congruence. }
      rewrite (pair_sums_13_exposed s _ Hv). split; [auto 10|].
      intros [H|[(_ & H)|[(r & c & cd & Hexp & Hk')|[(cd & Hexp & Hk')|H]]]];
        [contradiction | lia | | | exact H].
      * exfalso. apply Hcell in Hexp as (Hin & He). now apply (Hnk r c cd).
      * exfalso. simpl in Hexp. congruence.
    + exists true. split; [reflexivity|]. split; [|reflexivity]. intros _.
      destruct Hspec as (r & c & cd & Hin & He & Hk).
      right. right. left. exists r, c, cd. split; [now apply Hcell | exact Hk].
Qed.

(** With the stock used up after 24 draws the scan of the pyramid decides:
    the King of diamonds lies exposed. *)
Lemma C6_legal_moves_remaining_witness :
  triangular (rows (pyramid (toy_after 0 (replicate 24 CDraw))))
  /\ exists b, legal_moves_remaining (toy_after 0 (replicate 24 CDraw)) = Ok b
       /\ (b = true <-> legal_moves_spec (toy_after 0 (replicate 24 CDraw))).
Proof.
  assert (Ht : triangular (rows (pyramid (toy_after 0 (replicate 24 CDraw)))))
    by (vm_compute; reflexivity).
  exact (conj Ht (C6_legal_moves_remaining _ Ht)).
Defined.

Example legal_moves_after_24_draws :
  legal_moves_remaining (toy_after 0 (replicate 24 CDraw)) = Ok true.
Proof. vm_compute. reflexivity. Qed.

(** A 5 in the pyramid with a 2 on the waste is lost; with an 8 it is not. *)
Example legal_moves_lost :
  legal_moves_remaining (late_position (mkCard R5 SH) [mkCard R2 SC]) = Ok false.
Proof. vm_compute. reflexivity. Qed.

Example legal_moves_pair_left :
  legal_moves_remaining (late_position (mkCard R5 SH) [mkCard R2 SC; mkCard R8 SC])
  = Ok true.
Proof. vm_compute. reflexivity. Qed.

(** Python indexing: a negative column reads the row from its end, so the
    exposure of "cell (5, -1)" looks at the cells (6, -1) and (6, 0). *)
Example is_exposed_negative_column :
  is_exposed (pyramid (toy_game 0)) 5 (-1) = Ok false
  /\ is_exposed (pyramid (toy_game 0)) 7 0 = Raise IndexError.
Proof. split; vm_compute; reflexivity. Qed.

(** Every reachable state has the seven-row shape the two theorems above ask for. *)
Lemma reachable_triangular (RandomState : Type) (Random_seed : Z -> RandomState)
    (shuffle : RandomState -> list Card -> list Card) :
  (forall g l, Permutation (shuffle g l) l) ->
  forall s, reachable RandomState Random_seed shuffle s -> triangular (rows (pyramid s)).
Proof.
  intros Hperm s Hr.
  destruct (played_inv _ _ _ Hperm s (reachable_played _ _ _ Hperm s Hr)) as ((Ht & _) & _).
  exact Ht.
Qed.

(** * More of the engine *)

(** ** The history grows and shrinks by one record *)

Lemma exec_history s cmd s' :
  forward cmd -> exec cmd s = Ok (true, s') -> exists m, history s' = history s ++ [m].
Proof.
  intros Hfw H. destruct cmd as [|loc|first second| |]; simpl in H;
    [| | | |now destruct Hfw].
  - apply draw_spec in H as [(? & _)|(_ & c & st & _ & ->)]; [discriminate|]. simpl. eauto.
  - apply remove_king_spec in H as [(? & _)|(_ & e & s1 & Hr & _ & ->)]; [discriminate|].
    simpl. rewrite (removes_history _ _ _ _ Hr). eauto.
  - apply remove_pair_spec in H
      as [(? & _)|(_ & e1 & e2 & s1 & s2 & Hr1 & Hr2 & _ & ->)]; [discriminate|].
    simpl. rewrite (removes_history _ _ _ _ Hr2), (removes_history _ _ _ _ Hr1). eauto.
  - apply redeal_spec in H as [(? & _)|(_ & _ & _ & ->)]; [discriminate|]. simpl. eauto.
Qed.


Lemma redeal_records_snoc h m :
  redeal_records (h ++ [m]) = redeal_records h + Z.b2z (is_redeal m).
Proof.
  unfold redeal_records. rewrite List.filter_app, length_app. simpl.
  destruct (is_redeal m); simpl; lia.
Qed.

(** A successful forward command keeps the redeal counter equal to the
    number of redeal records and within the limit. *)
Lemma step_redeals s cmd s' :
  forward cmd -> exec cmd s = Ok (true, s') ->
  redeals_used s = redeal_records (history s) ->
  (redeals_used s = 0 \/ redeals_used s <= max_redeals s) ->
  redeals_used s' = redeal_records (history s')
  /\ (redeals_used s' = 0 \/ redeals_used s' <= max_redeals s').
Proof.
  intros Hfw H Hrec Hlim. destruct cmd as [|loc|first second| |]; simpl in H;
    [| | | |now destruct Hfw].
  - apply draw_spec in H as [(? & _)|(_ & c & st & _ & ->)]; [discriminate|].
    simpl. rewrite redeal_records_snoc. simpl. split; [lia | exact Hlim].
  - apply remove_king_spec in H as [(? & _)|(_ & e & s1 & Hr & _ & ->)]; [discriminate|].
    simpl. rewrite redeal_records_snoc.
    assert (is_redeal (king_move e) = false) as -> by (destruct Hr; reflexivity).
    destruct Hr; simpl; (split; [lia | exact Hlim]).
  - apply remove_pair_spec in H
      as [(? & _)|(_ & e1 & e2 & s1 & s2 & Hr1 & Hr2 & _ & ->)]; [discriminate|].
    simpl. rewrite redeal_records_snoc. simpl.
    destruct Hr1, Hr2; simpl; (split; [lia | exact Hlim]).
  - apply redeal_spec in H as [(? & _)|(_ & Hlt & _ & ->)]; [discriminate|].
    simpl. rewrite redeal_records_snoc. simpl. split; [lia | right; lia].
Qed.

(** ** Cards are neither lost nor duplicated *)

Lemma cell_cards_app a b : cell_cards (a ++ b) = cell_cards a ++ cell_cards b.
Proof.
  induction a as [|[c|] a IH]; simpl; [reflexivity | now rewrite IH | exact IH].
Qed.

Lemma cell_cards_Some l : cell_cards (map Some l) = l.
Proof. induction l as [|c l IH]; simpl; [reflexivity | now rewrite IH]. Qed.

Lemma cell_cards_insert (l : list (option Card)) (j : nat) (c : Card) :
  l !! j = Some (Some c) -> cell_cards l ≡ₚ c :: cell_cards (<[j:=None]> l).
Proof.
  revert j. induction l as [|o l IH]; intros [|j] H; simpl in H; try discriminate.
  - injection H as ->. reflexivity.
  - specialize (IH j H). destruct o as [c0|]; simpl; [|exact IH].
    rewrite IH. apply Permutation_swap.
Qed.

Lemma cell_cards_concat_insert (g : list (list (option Card))) (i j : nat)
    (r : list (option Card)) (c : Card) :
  g !! i = Some r -> r !! j = Some (Some c) ->
  cell_cards (concat g) ≡ₚ c :: cell_cards (concat (<[i:=<[j:=None]> r]> g)).
Proof.
  revert i. induction g as [|r0 g IH]; intros [|i] Hr Hc; simpl in Hr; try discriminate.
  - injection Hr as ->. simpl. rewrite !cell_cards_app.
    now rewrite (cell_cards_insert r j c Hc).
  - specialize (IH i Hr Hc). simpl. rewrite !cell_cards_app, IH.
    symmetry. apply Permutation_middle.
Qed.

Lemma remove_card_cards p row col c p' :
  remove_card p row col = Ok (Some c, p') ->
  pyramid_cards p ≡ₚ c :: pyramid_cards p'.
Proof.
  intros H. apply remove_card_Some in H as (Hg & Hs & _).
  apply grid_get_Ok in Hg as (i & j & r & Hi & Hr & Hj & Hc).
  apply grid_set_Ok in Hs as (i' & j' & r' & Hi' & Hr' & Hj' & Hrows).
  assert (i' = i) as -> by congruence. assert (r' = r) as -> by congruence.
  assert (j' = j) as -> by congruence.
  unfold pyramid_cards. rewrite Hrows. now apply cell_cards_concat_insert.
Qed.

(** A removal takes exactly the recorded card out of play. *)
Lemma removes_in_play s loc e s1 :
  removes s loc e s1 -> in_play s ≡ₚ e.2 :: in_play s1.
Proof.
  intros [a b c p' H | a b c w' H]; unfold in_play; simpl.
  - now rewrite (remove_card_cards _ _ _ _ _ H).
  - rewrite H, !app_assoc. symmetry. apply Permutation_cons_append.
Qed.

Lemma removed_cards_snoc h m : removed_cards (h ++ [m]) = removed_cards h ++ move_cards m.
Proof. unfold removed_cards. rewrite flat_map_app. simpl. now rewrite app_nil_r. Qed.

Lemma step_conserved s cmd s' :
  forward cmd -> exec cmd s = Ok (true, s') ->
  in_play s' ++ removed_cards (history s') ≡ₚ in_play s ++ removed_cards (history s).
Proof.
  intros Hfw H. destruct cmd as [|loc|first second| |]; simpl in H;
    [| | | |now destruct Hfw].
  - apply draw_spec in H as [(? & _)|(_ & c & st & Hst & ->)]; [discriminate|].
    simpl. rewrite removed_cards_snoc. simpl. rewrite app_nil_r.
    apply Permutation_app_tail. unfold in_play. simpl. rewrite Hst.
    apply Permutation_app_head. rewrite <- app_assoc.
    apply Permutation_app_head. apply Permutation_app_comm.
  - apply remove_king_spec in H as [(? & _)|(_ & e & s1 & Hr & _ & ->)]; [discriminate|].
    simpl. rewrite removed_cards_snoc, (removes_history _ _ _ _ Hr).
    assert (move_cards (king_move e) = [e.2]) as -> by (destruct Hr; reflexivity).
    rewrite (removes_in_play _ _ _ _ Hr).
    change (in_play (set_history s1 (history s ++ [king_move e]))) with (in_play s1).
    rewrite (Permutation_app_comm (removed_cards (history s)) [e.2]).
    simpl. symmetry. apply Permutation_middle.
  - apply remove_pair_spec in H
      as [(? & _)|(_ & e1 & e2 & s1 & s2 & Hr1 & Hr2 & _ & ->)]; [discriminate|].
    simpl. rewrite removed_cards_snoc.
    rewrite (removes_history _ _ _ _ Hr2), (removes_history _ _ _ _ Hr1).
    rewrite (removes_in_play _ _ _ _ Hr1), (removes_in_play _ _ _ _ Hr2).
    change (in_play (set_history s2 (history s ++ [MRemovePair [e1; e2]])))
      with (in_play s2).
    simpl move_cards.
    rewrite (Permutation_app_comm (removed_cards (history s)) [e1.2; e2.2]).
    simpl. rewrite <- Permutation_middle. apply perm_skip.
    symmetry. apply Permutation_middle.
  - apply redeal_spec in H as [(? & _)|(_ & _ & _ & ->)]; [discriminate|].
    simpl. rewrite removed_cards_snoc. simpl. rewrite app_nil_r.
    apply Permutation_app_tail. unfold in_play. simpl. rewrite app_nil_r.
    apply Permutation_app_head.
    apply Permutation_app_head. symmetry. apply Permutation_rev.
Qed.

Section WholeGames.

Variable RandomState : Type.
Variable Random_seed : Z -> RandomState.
Variable shuffle : RandomState -> list Card -> list Card.
Hypothesis shuffle_perm : forall g l, Permutation (shuffle g l) l.


(** In every reachable state undo raises nothing: it returns false and
    changes nothing when the history is empty, and otherwise returns true
    and leaves a reachable state whose history is one record shorter. *)
Theorem X1_undo_never_raises s :
  reachable RandomState Random_seed shuffle s ->
  exists b s', undo s = Ok (b, s')
    /\ (b = true <-> history s <> [])
    /\ (b = false -> s' = s)
    /\ (b = true -> length (history s) = S (length (history s')))
    /\ reachable RandomState Random_seed shuffle s'.
Proof.
  intros Hr. pose proof (reachable_played _ _ _ shuffle_perm s Hr) as Hp.
  inversion Hp as [s0 os s1 H | s0 cmd s1 Hp0 Hfw H]; subst.
  - apply (reset_inv _ _ _ shuffle_perm) in H as (_ & _ & Hh & _).
    exists false, s. rewrite (undo_empty _ Hh).
    repeat split; try congruence; try exact Hr.
  - destruct (played_inv _ _ _ shuffle_perm _ Hp0) as ((_ & Hf & _) & _).
    pose proof (undo_exec _ _ _ Hf Hfw H) as Hu.
    destruct (exec_history _ _ _ Hfw H) as (m & Hm).
    exists true, s0. split; [exact Hu|]. split; [|split; [discriminate|split]].
    + split; [|reflexivity]. intros _. rewrite Hm. now destruct (history s0).
    + intros _. rewrite Hm, length_app. simpl. lia.
    + eapply (reach_exec _ _ _ s CUndo); [exact Hr | exact Hu].
Qed.


(** The redeal counter equals the number of redeal records in the history;
    it is never negative, and it exceeds max_redeals only when it is 0 and
    the limit is negative. *)
Theorem X3_redeals_within_limit s :
  reachable RandomState Random_seed shuffle s ->
  redeals_used s = redeal_records (history s)
  /\ 0 <= redeals_used s
  /\ (0 <= max_redeals s -> redeals_used s <= max_redeals s).
Proof.
  intros Hr. pose proof (reachable_played _ _ _ shuffle_perm s Hr) as Hp. clear Hr.
  assert (H : redeals_used s = redeal_records (history s)
              /\ (redeals_used s = 0 \/ redeals_used s <= max_redeals s)).
  { induction Hp as [s0 os s H | s cmd s' Hp IH Hfw H].
    - apply (reset_inv _ _ _ shuffle_perm) in H as (_ & _ & Hh & _ & _ & _ & _ & _ & Hru).
      rewrite Hh, Hru. split; [reflexivity | now left].
    - destruct IH as (Hrec & Hlim). eapply step_redeals; eassumption. }
  destruct H as (Hrec & Hlim). split; [exact Hrec|]. split.
  - rewrite Hrec. unfold redeal_records. lia.
  - lia.
Qed.

(** In every reachable state removed_count lies between 0 and 28, and the
    game is won exactly when no pyramid cell holds a card. *)
Theorem X4_has_won_iff_cleared s :
  reachable RandomState Random_seed shuffle s ->
  0 <= removed_count s <= 28
  /\ (has_won s = true <-> occupied_cells (pyramid s) = 0).
Proof.
  intros Hr.
  destruct (played_inv _ _ _ shuffle_perm _ (reachable_played _ _ _ shuffle_perm s Hr))
    as ((Ht & _ & Hrc) & _).
  pose proof (cells_28 _ Ht) as H28. unfold has_won.
  assert (0 <= occupied_cells (pyramid s)) by (unfold occupied_cells, count_cells; lia).
  assert (0 <= empty_cells (pyramid s)) by (unfold empty_cells, count_cells; lia).
  split; [lia|].
  destruct (Z.geb_spec (removed_count s) 28); split; intros;
    try lia; try discriminate; reflexivity.
Qed.

Lemma reset_layout s0 os s :
  reset RandomState Random_seed shuffle s0 os = Ok s ->
  concat (rows (pyramid s))
  = map Some (rev (drop 24 (Deck_init RandomState Random_seed shuffle (seed s0) os)))
  /\ stock s = take 24 (Deck_init RandomState Random_seed shuffle (seed s0) os).
Proof.
  unfold reset. pose proof (Deck_init_length RandomState Random_seed shuffle shuffle_perm (seed s0) os)
    as Hlen.
  destruct (Deck_init RandomState Random_seed shuffle (seed s0) os) as [|? d];
    [discriminate|].
  do 51 (destruct d as [|? d]; [discriminate|]).
  destruct d; [|discriminate].
  vm_compute. intros [= <-]. split; reflexivity.
Qed.

(** A reset deals the shuffled deck from its end: read row by row, the
    pyramid holds the last 28 cards of the deck in reverse, and the stock is
    the first 24 cards in their order. *)
Theorem X6_deal_layout s0 os s :
  reset RandomState Random_seed shuffle s0 os = Ok s ->
  triangular (rows (pyramid s))
  /\ concat (rows (pyramid s))
     = map Some (rev (drop 24 (Deck_init RandomState Random_seed shuffle (seed s0) os)))
  /\ stock s = take 24 (Deck_init RandomState Random_seed shuffle (seed s0) os)
  /\ Deck_init RandomState Random_seed shuffle (seed s0) os ≡ₚ standard_deck.
Proof.
  intros H. destruct (reset_layout _ _ _ H) as (Hrows & Hst).
  apply (reset_inv _ _ _ shuffle_perm) in H as (_ & _ & _ & (Ht & _) & _).
  split; [exact Ht|]. split; [exact Hrows|]. split; [exact Hst|].
  apply shuffle_perm.
Qed.

(** In every reachable state the cards of the pyramid, the stock and the
    waste, together with the cards recorded in the removal moves of the
    history, are a rearrangement of the 52 cards of the deck; no card lies
    in two places. *)
Theorem X5_cards_conserved s :
  reachable RandomState Random_seed shuffle s ->
  pyramid_cards (pyramid s) ++ stock s ++ waste s ++ removed_cards (history s)
    ≡ₚ standard_deck
  /\ NoDup (pyramid_cards (pyramid s) ++ stock s ++ waste s).
Proof.
  intros Hr. pose proof (reachable_played _ _ _ shuffle_perm s Hr) as Hp. clear Hr.
  assert (H : in_play s ++ removed_cards (history s) ≡ₚ standard_deck).
  { induction Hp as [s0 os s H | s cmd s' Hp IH Hfw H].
    - destruct (reset_layout _ _ _ H) as (Hrows & Hst).
      apply (reset_inv _ _ _ shuffle_perm) in H as (_ & _ & Hh & _ & _ & _ & Hw & _).
      unfold in_play, pyramid_cards. rewrite Hrows, Hst, Hw, Hh, cell_cards_Some.
      simpl. rewrite !app_nil_r.
      rewrite <- (shuffle_perm (Random RandomState Random_seed (seed s0) os) standard_deck).
      change (shuffle (Random RandomState Random_seed (seed s0) os) standard_deck)
        with (Deck_init RandomState Random_seed shuffle (seed s0) os).
      rewrite <- Permutation_rev, Permutation_app_comm. now rewrite take_drop.
    - rewrite (step_conserved _ _ _ Hfw H). exact IH. }
  split.
  - unfold in_play in H. now rewrite <- !app_assoc in H.
  - assert (Hnd : NoDup standard_deck) by (apply NoDup_ListNoDup; vm_compute;
      repeat (constructor; [simpl; intuition discriminate|]); constructor).
    rewrite <- H in Hnd. apply NoDup_app in Hnd as (Hnd & _). exact Hnd.
Qed.

End WholeGames.

(** ** Removing a King *)

Lemma grid_get_set_same {A} (g g' : list (list A)) (row col : Z) (x : A) :
  grid_set g row col x = Ok g' -> grid_get g' row col = Ok x.
Proof.
  intros H. apply grid_set_Ok in H as (i & j & r & Hi & Hr & Hj & ->).
  assert (Hlt : (i < length g)%nat) by (eapply py_norm_lt; eassumption).
  assert (Hjlt : (j < length r)%nat) by (eapply py_norm_lt; eassumption).
  apply grid_get_Ok. exists i, j, (<[j:=x]> r). rewrite !length_insert.
  repeat split; try assumption; now apply list_lookup_insert_eq.
Qed.

(** A pyramid location that holds an exposed King: [remove_king] succeeds. *)
Lemma remove_king_pyramid_Ok s a b c :
  flags_ok (pyramid s) -> card_at (pyramid s) a b = Ok (Some c) -> value c = 13 ->
  is_exposed (pyramid s) a b = Ok true ->
  exists p', remove_card (pyramid s) a b = Ok (Some c, p')
    /\ remove_king s ("pyramid", a, b)
       = Ok (true, history_append (set_pyramid s p' (removed_count s + 1))
                                  (MRemoveKingPyramid a b c)).
Proof.
  intros Hf Hc Hk He. destruct (remove_card_total _ _ _ _ Hf Hc) as (p' & Hrc).
  exists p'. split; [exact Hrc|].
  unfold remove_king, remove_pyramid_card. simpl. rewrite Hc.
  cbn [mbind result_mbind result_bind]. rewrite Hk. simpl.
  rewrite He, Hrc. reflexivity.
Qed.

(** Removing an exposed King of the pyramid returns true, empties the cell,
    adds one to removed_count, records the move and leaves stock and waste
    alone; the same call again returns false and changes nothing. *)
Theorem X8_remove_king_pyramid s a b c :
  flags_ok (pyramid s) -> card_at (pyramid s) a b = Ok (Some c) -> value c = 13 ->
  is_exposed (pyramid s) a b = Ok true ->
  exists s', remove_king s ("pyramid", a, b) = Ok (true, s')
    /\ card_at (pyramid s') a b = Ok None
    /\ removed_count s' = removed_count s + 1
    /\ stock s' = stock s /\ waste s' = waste s
    /\ history s' = history s ++ [MRemoveKingPyramid a b c]
    /\ remove_king s' ("pyramid", a, b) = Ok (false, s').
Proof.
  intros Hf Hc Hk He.
  destruct (remove_king_pyramid_Ok s a b c Hf Hc Hk He) as (p' & Hrc & Hrk).
  eexists. split; [exact Hrk|].
  apply remove_card_Some in Hrc as (_ & Hset & _).
  pose proof (grid_get_set_same _ _ _ _ _ Hset) as Hnone.
  simpl. repeat split; try assumption.
  unfold remove_king, card_at. simpl. rewrite Hnone. reflexivity.
Qed.

(** What a true return of [remove_king] says about the state before. *)
Lemma remove_king_true_inv s loc s' :
  remove_king s loc = Ok (true, s') ->
  (exists a b c, loc = ("pyramid", a, b) /\ card_at (pyramid s) a b = Ok (Some c)
                 /\ value c = 13 /\ is_exposed (pyramid s) a b = Ok true)
  \/ (exists a b c, loc = ("waste", a, b) /\ py_top (waste s) = Some c /\ value c = 13).
Proof.
  destruct loc as [[loc_type a] b]. unfold remove_king.
  destruct (String.eqb_spec loc_type "pyramid") as [->|Hp].
  - intros H. apply bind_Ok in H as (card & Hc & H).
    destruct card as [c|]; [|discriminate].
    destruct (Z.eqb_spec (value c) 13) as [Hk|Hk]; [|discriminate].
    apply bind_Ok in H as (e & He & H). destruct e; [|discriminate].
    left. eauto 10.
  - destruct (String.eqb_spec loc_type "waste") as [->|Hw]; simpl; [|discriminate].
    destruct (bool_decide (waste s = [])); simpl; [discriminate|].
    unfold py_top. destruct (py_pop (waste s)) as [[c w']|] eqn:E; [|discriminate].
    destruct (Z.eqb_spec (value c) 13) as [Hk|Hk]; [|discriminate].
    intros _. right. exists a, b, c. auto.
Qed.

(** ** Removing a pair *)

Lemma remove_location_total s loc c acc :
  flags_ok (pyramid s) -> get_card s loc = Ok (Some c) ->
  exists s1 e, remove_location s loc acc = Ok (s1, acc ++ [e]) /\ removes s loc e s1.
Proof.
  intros Hf Hc. destruct loc as [[loc_type a] b].
  assert (Hok : exists r, remove_location s (loc_type, a, b) acc = Ok r).
  { unfold get_card in Hc. unfold remove_location.
    destruct (String.eqb_spec loc_type "pyramid") as [->|Hp].
    - destruct (remove_card_total _ _ _ _ Hf Hc) as (p' & Hrc).
      unfold remove_pyramid_card. rewrite Hrc. simpl. eauto.
    - destruct (String.eqb loc_type "waste"); simpl; [|discriminate].
      destruct (bool_decide (waste s = [])); simpl; [eauto|].
      destruct (py_pop (waste s)) as [[c0 w']|]; eauto. }
  destruct Hok as ([s1 acc'] & Hrl).
  destruct (remove_location_found _ _ _ _ _ _ Hc Hrl) as (e & -> & Hr & _).
  eauto.
Qed.

Lemma remove_pair_true_inv s first second s' :
  remove_pair s first second = Ok (true, s') ->
  first <> second
  /\ exists ca cb, get_card s first = Ok (Some ca) /\ get_card s second = Ok (Some cb)
       /\ value ca + value cb = 13
       /\ card_exposed s first = Ok true /\ card_exposed s second = Ok true.
Proof.
  unfold remove_pair. intros H.
  destruct (bool_decide_reflect (first = second)) as [Heq|Hne]; [discriminate|].
  split; [exact Hne|].
  apply bind_Ok in H as (card_a & Ha & H). apply bind_Ok in H as (card_b & Hb & H).
  destruct card_a as [ca|]; [|discriminate]. destruct card_b as [cb|]; [|discriminate].
  destruct (Z.eqb_spec (value ca + value cb) 13) as [Hsum|Hsum];
    simpl in H; [|discriminate].
  apply bind_Ok in H as (ea & Hea & H). destruct ea; simpl in H; [|discriminate].
  apply bind_Ok in H as (eb & Heb & H). destruct eb; simpl in H; [|discriminate].
  exists ca, cb. auto.
Qed.

Lemma remove_pair_Ok s first second ca cb :
  flags_ok (pyramid s) -> first <> second ->
  get_card s first = Ok (Some ca) -> get_card s second = Ok (Some cb) ->
  value ca + value cb = 13 ->
  card_exposed s first = Ok true -> card_exposed s second = Ok true ->
  exists s', remove_pair s first second = Ok (true, s').
Proof.
  intros Hf Hne Ha Hb Hsum Hea Heb. unfold remove_pair.
  rewrite bool_decide_false by exact Hne. rewrite Ha, Hb.
  cbn [mbind result_mbind result_bind].
  apply Z.eqb_eq in Hsum as Hsumb. rewrite Hsumb. simpl.
  rewrite Hea. cbn [mbind result_mbind result_bind negb].
  rewrite Heb. cbn [mbind result_mbind result_bind negb].
  destruct (remove_location_total s first ca [] Hf Ha) as (s1 & e1 & H1 & Hr1).
  rewrite H1. cbn [mbind result_mbind result_bind].
  pose proof (removes_get_card_other _ _ _ _ _ _ _ Hr1 Ha Hb (sum_13_distinct _ _ Hsum))
    as Hb1.
  destruct (remove_location_total s1 second cb ([] ++ [e1])
              (removes_flags _ _ _ _ Hf Hr1) Hb1) as (s2 & e2 & H2 & Hr2).
  rewrite H2. cbn [mbind result_mbind result_bind]. simpl. eauto.
Qed.

(** [remove_pair] returns true exactly when the two locations differ, both
    hold a card, the values sum to 13 and both are exposed. *)
Theorem X9_remove_pair_iff s first second :
  flags_ok (pyramid s) ->
  (exists s', remove_pair s first second = Ok (true, s'))
  <-> first <> second
      /\ exists ca cb, get_card s first = Ok (Some ca) /\ get_card s second = Ok (Some cb)
           /\ value ca + value cb = 13
           /\ card_exposed s first = Ok true /\ card_exposed s second = Ok true.
Proof.
  intros Hf. split.
  - intros (s' & H). eapply remove_pair_true_inv. exact H.
  - intros (Hne & ca & cb & Ha & Hb & Hsum & Hea & Heb).
    eapply remove_pair_Ok; eassumption.
Qed.

(** ** Redeal followed by draws *)

Lemma draws_replay (w : list Card) :
  forall s st, stock s = st ++ rev w ->
  exists s2, run (replicate (length w) CDraw) s = Ok s2
    /\ stock s2 = st /\ waste s2 = waste s ++ w
    /\ pyramid s2 = pyramid s /\ removed_count s2 = removed_count s
    /\ redeals_used s2 = redeals_used s.
Proof.
  induction w as [|c w IH]; intros s st Hst; simpl in *.
  - exists s. rewrite !app_nil_r in *. repeat split. exact Hst.
  - unfold draw. rewrite Hst, app_assoc, py_pop_snoc. cbn [mbind result_mbind result_bind].
    edestruct IH as (s2 & Hrun & Hs & Hw & Hp & Hrc & Hru); [|rewrite Hrun].
    + simpl. reflexivity.
    + exists s2. simpl in *. rewrite <- app_assoc in Hw. repeat split; assumption.
Qed.

(** After a redeal, drawing as many cards as the waste held puts the waste
    and the stock back exactly as they were before the redeal. *)
Theorem X10_redeal_then_draws s s1 :
  redeal s = Ok (true, s1) ->
  exists s2, run (replicate (length (waste s)) CDraw) s1 = Ok s2
    /\ waste s2 = waste s /\ stock s2 = stock s /\ pyramid s2 = pyramid s
    /\ removed_count s2 = removed_count s.
Proof.
  intros H. apply redeal_spec in H as [(? & _)|(_ & _ & _ & ->)]; [discriminate|].
  edestruct (draws_replay (waste s)) as (s2 & Hrun & Hs & Hw & Hp & Hrc & _);
    [|exists s2; split; [exact Hrun|]].
  - simpl. reflexivity.
  - simpl in *. repeat split; assumption.
Qed.
(** ** A game is lost exactly when no command succeeds *)

Lemma legal_moves_iff s :
  triangular (rows (pyramid s)) ->
  exists b, legal_moves_remaining s = Ok b /\ (b = true <-> legal_moves_spec s).
Proof.
  intros Ht.
  assert (Hcell : forall r c cd,
            In (r, c, Some cd) (all_cards (pyramid s))
            /\ is_exposed (pyramid s) r c = Ok true
            <-> exposed_card s (PyramidSlot r c) cd).
  { intros r c cd. simpl. rewrite (all_cards_cell _ _ _ _ Ht). split.
    - intros ((Hc & Hr & Hcard) & He).
      split; [exact Hc|]. split; [exact Hr|]. split; [exact Hcard|].
      now apply is_exposed_true_iff.
    - intros (Hc & Hr & Hcard & He).
      split; [auto|]. now apply is_exposed_true_iff. }
  assert (Htot : forall r c cd, In (r, c, Some cd) (all_cards (pyramid s)) ->
                                exists b, is_exposed (pyramid s) r c = Ok b).
  { intros r c cd Hin. apply (all_cards_cell _ _ _ _ Ht) in Hin as (Hc & Hr & _).
    now apply is_exposed_returns. }
  unfold legal_moves_remaining, legal_moves_spec.
  destruct (bool_decide_reflect (stock s = [])) as [Hst|Hst]; simpl;
    [|exists true; split; [reflexivity | split; auto]].
  destruct (scan_pyramid_spec (pyramid s) (all_cards (pyramid s)) Htot [])
    as (res & Hres & Hspec).
  destruct (bool_decide_reflect (waste s = [])) as [Hw|Hw]; simpl.
  - (* empty waste *)
    rewrite Hres. cbn [mbind result_mbind result_bind]. destruct res as [vals|].
    + destruct Hspec as (Hnk & Hvals).
      assert (Htop : py_top (waste s) = None) by now rewrite Hw.
      rewrite Htop.
      exists (pair_sums_13 vals). split; [reflexivity|].
      assert (Hv : forall v, In v vals <->
                             exists sl cd, exposed_card s sl cd /\ value cd = v).
      { intros v. rewrite Hvals. split.
        - intros [[]|(r & c & cd & Hin & He & Hval)].
          exists (PyramidSlot r c), cd. split; [now apply Hcell | exact Hval].
        - intros ([r c|] & cd & Hexp & Hval).
          + apply Hcell in Hexp as (Hin & He). right. eauto 10.
          + simpl in Hexp. congruence. }
      rewrite (pair_sums_13_exposed s vals Hv). split; [auto 10|].
      intros [H|[(H & _)|[(r & c & cd & Hexp & Hk)|[(cd & Hexp & _)|H]]]];
        [contradiction | contradiction | | | exact H].
      * exfalso. apply Hcell in Hexp as (Hin & He). now apply (Hnk r c cd).
      * simpl in Hexp. congruence.
    + exists true. split; [reflexivity|]. split; [|reflexivity]. intros _.
      destruct Hspec as (r & c & cd & Hin & He & Hk).
      right. right. left. exists r, c, cd. split; [now apply Hcell | exact Hk].
  - (* a card on the waste *)
    destruct (Z.ltb_spec (redeals_used s) (max_redeals s)) as [Hre|Hre];
      [exists true; split; [reflexivity | split; auto]|].
    rewrite Hres. cbn [mbind result_mbind result_bind]. destruct res as [vals|].
    + destruct Hspec as (Hnk & Hvals).
      destruct (py_top (waste s)) as [card|] eqn:Etop.
      2:{ exfalso. unfold py_top in Etop.
          destruct (py_pop (waste s)) eqn:E; [discriminate|].
          now apply py_pop_None in E. }
      destruct (Z.eqb_spec (value card) 13) as [Hk|Hk].
      { exists true. split; [reflexivity|]. split; [|reflexivity]. intros _.
        right. right. right. left. exists card. simpl. auto. }
      exists (pair_sums_13 (vals ++ [value card])). split; [reflexivity|].
      assert (Hv : forall v, In v (vals ++ [value card]) <->
                             exists sl cd, exposed_card s sl cd /\ value cd = v).
      { intros v. rewrite in_app_iff, Hvals. simpl. split.
        - intros [[[]|(r & c & cd & Hin & He & Hval)]|[<-|[]]].
          + exists (PyramidSlot r c), cd. split; [now apply Hcell | exact Hval].
          + exists WasteTop, card. simpl. auto.
        - intros ([r c|] & cd & Hexp & Hval).
          + apply Hcell in Hexp as (Hin & He). left. right. eauto 10.
          + simpl in Hexp. right. left. congruence. }
      rewrite (pair_sums_13_exposed s _ Hv). split; [auto 10|].
      intros [H|[(_ & H)|[(r & c & cd & Hexp & Hk')|[(cd & Hexp & Hk')|H]]]];
        [contradiction | lia | | | exact H].
      * exfalso. apply Hcell in Hexp as (Hin & He). now apply (Hnk r c cd).
      * exfalso. simpl in Hexp. congruence.
    + exists true. split; [reflexivity|]. split; [|reflexivity]. intros _.
      destruct Hspec as (r & c & cd & Hin & He & Hk).
      right. right. left. exists r, c, cd. split; [now apply Hcell | exact Hk].
Qed.

Lemma loc_exposed_card s loc c :
  triangular (rows (pyramid s)) -> loc_in_range loc ->
  get_card s loc = Ok (Some c) -> card_exposed s loc = Ok true ->
  exists sl, exposed_card s sl c.
Proof.
  intros Ht Hin Hc He. destruct loc as [[loc_type a] b].
  unfold get_card, card_exposed, loc_in_range in *.
  destruct (String.eqb_spec loc_type "pyramid") as [->|Hp].
  - destruct (Hin eq_refl) as (Hb & Ha). exists (PyramidSlot a b). simpl.
    split; [exact Hb|]. split; [exact Ha|]. split; [exact Hc|].
    now apply is_exposed_true_iff.
  - destruct (String.eqb loc_type "waste"); [|discriminate].
    destruct (negb (bool_decide (waste s = [])) && (a =? Z.of_nat (length (waste s)) - 1));
      [|discriminate].
    exists WasteTop. simpl. congruence.
Qed.

Lemma exposed_card_location s sl c :
  triangular (rows (pyramid s)) -> exposed_card s sl c ->
  get_card s (slot_location s sl) = Ok (Some c)
  /\ card_exposed s (slot_location s sl) = Ok true
  /\ loc_in_range (slot_location s sl).
Proof.
  intros Ht H. destruct sl as [row col|]; simpl in *.
  - destruct H as (Hc & Hr & Hcard & He). split; [exact Hcard|]. split.
    + now apply is_exposed_true_iff.
    + intros _. auto.
  - assert (Hw : waste s <> []) by (intros Hw; rewrite Hw in H; discriminate).
    rewrite bool_decide_false by exact Hw. rewrite Z.eqb_refl. simpl.
    split; [now rewrite H|]. split; [reflexivity | discriminate].
Qed.

Lemma slot_location_inj s sl1 sl2 :
  slot_location s sl1 = slot_location s sl2 -> sl1 = sl2.
Proof. destruct sl1, sl2; simpl; intros [=]; congruence. Qed.

(** On a well-formed board legal_moves_remaining returns true exactly when
    some command among draw, redeal, remove_king and remove_pair, on
    locations inside the pyramid or on the waste, returns true. *)
Theorem X11_legal_moves_exact s :
  board_ok s ->
  legal_moves_remaining s = Ok true
  <-> exists cmd s', forward cmd /\ cmd_in_range cmd /\ exec cmd s = Ok (true, s').
Proof.
  intros (Ht & Hf & _). destruct (legal_moves_iff s Ht) as (b & Hb & Hiff).
  rewrite Hb. split.
  - intros [= ->]. destruct Hiff as (Hspec & _). specialize (Hspec eq_refl).
    destruct Hspec as [Hst|[(Hw & Hre)|[(r & c & cd & He & Hk)|[(cd & He & Hk)|Hpair]]]].
    + exists CDraw. simpl. unfold draw.
      destruct (py_pop (stock s)) as [[c st]|] eqn:E;
        [|now apply py_pop_None in E].
      eexists. repeat split. discriminate.
    + exists CRedeal. simpl. unfold redeal.
      destruct (Z.geb_spec (redeals_used s) (max_redeals s)); [lia|].
      rewrite bool_decide_false by exact Hw. eexists. repeat split. discriminate.
    + destruct He as (Hc & Hr & Hcard & He).
      apply (is_exposed_true_iff _ _ _ Ht Hc Hr) in He.
      destruct (remove_king_pyramid_Ok s r c cd Hf Hcard Hk He) as (p' & _ & Hrk).
      exists (CRemoveKing ("pyramid", r, c)). eexists.
      split; [discriminate|]. split; [intros _; auto | exact Hrk].
    + simpl in He. unfold py_top in He.
      destruct (py_pop (waste s)) as [[c0 w]|] eqn:E; [|discriminate].
      injection He as ->. apply py_pop_Some in E.
      exists (CRemoveKing ("waste", 0, 0)). eexists.
      split; [discriminate|]. split; [discriminate|].
      unfold exec. eapply remove_king_waste_any_index; eassumption.
    + destruct Hpair as (sl1 & sl2 & c1 & c2 & Hne & H1 & H2 & Hsum).
      destruct (exposed_card_location s sl1 c1 Ht H1) as (Hg1 & He1 & Hin1).
      destruct (exposed_card_location s sl2 c2 Ht H2) as (Hg2 & He2 & Hin2).
      destruct (remove_pair_Ok s (slot_location s sl1) (slot_location s sl2) c1 c2)
        as (s' & Hrp); try assumption.
      { intros Heq. apply Hne. eapply slot_location_inj. exact Heq. }
      exists (CRemovePair (slot_location s sl1) (slot_location s sl2)), s'.
      split; [discriminate|]. split; [split; assumption | exact Hrp].
  - intros (cmd & s' & Hfw & Hin & H). f_equal. apply Hiff.
    destruct cmd as [|loc|first second| |]; simpl in H; [| | | |now destruct Hfw].
    + apply draw_spec in H as [(? & _)|(_ & c & st & Hst & _)]; [discriminate|].
      left. rewrite Hst. now destruct st.
    + apply remove_king_true_inv in H
        as [(a & b0 & c & -> & Hcard & Hk & He)|(a & b0 & c & -> & Htop & Hk)].
      * destruct (Hin eq_refl) as (Hb0 & Ha).
        right. right. left. exists a, b0, c. split; [|exact Hk].
        simpl. split; [exact Hb0|]. split; [exact Ha|]. split; [exact Hcard|].
        now apply is_exposed_true_iff.
      * right. right. right. left. exists c. simpl. auto.
    + destruct Hin as (Hin1 & Hin2).
      apply remove_pair_true_inv in H
        as (Hne & ca & cb & Ha & Hb' & Hsum & Hea & Heb).
      destruct (loc_exposed_card s first ca Ht Hin1 Ha Hea) as (sl1 & H1).
      destruct (loc_exposed_card s second cb Ht Hin2 Hb' Heb) as (sl2 & H2).
      right. right. right. right. exists sl1, sl2, ca, cb.
      split; [|auto]. intros ->.
      apply (sum_13_distinct _ _ Hsum). eapply exposed_card_fun; eassumption.
    + apply redeal_spec in H as [(? & _)|(_ & Hlt & Hw & _)]; [discriminate|].
      right. left. auto.
Qed.

(** ** Building the pyramid *)

Lemma fill_row_spec (n : nat) (it : list Card) :
  fill_row n it = (map (fun i => it !! i) (seq 0 n), drop n it).
Proof.
  revert it. induction n as [|k IH]; intros it; [now destruct it|].
  simpl fill_row. destruct it as [|c it0]; rewrite IH; simpl; f_equal.
  - f_equal. rewrite <- fmap_S_seq. change (map ?f (S <$> ?l)) with (map f (map S l)).
    rewrite map_map. reflexivity.
  - now destruct k.
  - f_equal. rewrite <- fmap_S_seq. change (map ?f (S <$> ?l)) with (map f (map S l)).
    rewrite map_map. reflexivity.
Qed.

Lemma fill_rows_concat (ns : list nat) (it : list Card) :
  concat (fill_rows ns it) = map (fun i => it !! i) (seq 0 (list_sum ns)).
Proof.
  revert it. induction ns as [|n ns IH]; intros it; [reflexivity|].
  simpl. rewrite fill_row_spec. simpl. rewrite IH, seq_app, map_app. f_equal.
  simpl. pose proof (fmap_add_seq n 0 (list_sum ns)) as E. rewrite Nat.add_0_r in E.
  rewrite <- E. change (map ?f (?g <$> ?l)) with (map f (map g l)).
  rewrite map_map. apply map_ext. intros i. apply lookup_drop.
Qed.

Lemma fill_rows_shape (ns : list nat) (it : list Card) :
  map length (fill_rows ns it) = ns.
Proof.
  revert it. induction ns as [|n ns IH]; intros it; [reflexivity|].
  simpl. rewrite fill_row_spec. simpl. now rewrite IH, length_map, length_seq.
Qed.

Lemma enumerate_snd {A} (l : list A) : map snd (enumerate l) = l.
Proof.
  unfold enumerate. change (snd <$> imap (fun i x => (Z.of_nat i, x)) l = l).
  rewrite fmap_imap. simpl.
  transitivity (imap (const (@id A)) l); [now apply imap_ext|].
  rewrite imap_const. apply list_fmap_id.
Qed.

(** [all_cards] lists the cells row by row. *)
Lemma all_cards_cells p : map snd (all_cards p) = concat (rows p).
Proof.
  unfold all_cards. rewrite concat_map, map_map.
  rewrite <- (enumerate_snd (rows p)) at 2. f_equal. apply map_ext.
  intros [r row]. simpl. rewrite map_map.
  rewrite <- (enumerate_snd row) at 2. apply map_ext. now intros [c card].
Qed.

(** Whatever sequence of cards the constructor is given, the pyramid has
    seven rows of 1 to 7 cells, no cell is flagged as removed, and all_cards
    visits the first 28 cards of the sequence in their order: cells the
    sequence is too short for hold no card, cards beyond the 28th are left out. *)
Theorem X7_pyramid_init (cards : list Card) :
  triangular (rows (Pyramid_init cards))
  /\ map snd (all_cards (Pyramid_init cards)) = map (fun i => cards !! i) (seq 0 28)
  /\ removed (Pyramid_init cards) = map (map (fun _ => false)) (rows (Pyramid_init cards))
  /\ (length cards = 28%nat -> pyramid_cards (Pyramid_init cards) = cards)
  /\ (length cards = 28%nat -> flags_ok (Pyramid_init cards)).
Proof.
  split; [apply fill_rows_shape|]. split.
  { rewrite all_cards_cells.
    change (rows (Pyramid_init cards)) with (fill_rows (seq 1 7) cards).
    now rewrite fill_rows_concat. }
  split; [reflexivity|].
  assert (Hfull : length cards = 28%nat ->
                  concat (rows (Pyramid_init cards)) = map Some cards).
  { intros Hlen. change (rows (Pyramid_init cards)) with (fill_rows (seq 1 7) cards).
    rewrite fill_rows_concat. simpl list_sum. do 28 (destruct cards as [|? cards]; [discriminate|]).
    destruct cards; [reflexivity | discriminate]. }
  split.
  - intros Hlen. unfold pyramid_cards. rewrite (Hfull Hlen). apply cell_cards_Some.
  - intros Hlen. unfold flags_ok, Pyramid_init. simpl.
    do 28 (destruct cards as [|? cards]; [discriminate|]).
    destruct cards; [reflexivity | discriminate].
Qed.

(** ** Indices outside the pyramid and negative indices *)

Lemma py_norm_in (n : nat) (i : Z) :
  - Z.of_nat n <= i < Z.of_nat n ->
  py_norm n i = Some (Z.to_nat (i mod Z.of_nat n)).
Proof.
  intros H. unfold py_norm. destruct (Z.leb_spec 0 i); simpl.
  - replace (i <? Z.of_nat n) with true by (symmetry; apply Z.ltb_lt; lia).
    now rewrite Z.mod_small by lia.
  - replace (- Z.of_nat n <=? i) with true by (symmetry; apply Z.leb_le; lia).
    replace (i <? 0) with true by (symmetry; apply Z.ltb_lt; lia). simpl.
    do 2 f_equal. apply (Z.mod_unique _ _ (-1)); lia.
Qed.

Lemma py_norm_out (n : nat) (i : Z) :
  ~ (- Z.of_nat n <= i < Z.of_nat n) -> py_norm n i = None.
Proof.
  intros H. unfold py_norm.
  destruct (Z.leb_spec 0 i), (Z.ltb_spec i (Z.of_nat n)),
    (Z.leb_spec (- Z.of_nat n) i), (Z.ltb_spec i 0); simpl; try reflexivity; lia.
Qed.

Lemma getitem_neg {A} (l : list A) (i : Z) :
  - Z.of_nat (length l) <= i < 0 -> getitem l i = getitem l (i + Z.of_nat (length l)).
Proof.
  intros H. unfold getitem. rewrite !py_norm_in by lia.
  now rewrite <- (Z.mod_add i 1 (Z.of_nat (length l))), Z.mul_1_l by lia.
Qed.

(** On a seven-row pyramid card_at returns for the indices Python accepts,
    rows -7 .. 6 and, in a row of n cells, columns -n .. n-1, where a negative
    index names the cell counted from the end; for every other index it
    raises IndexError, and so do get_card and remove_king on such a pyramid
    location: they do not return false. *)
Theorem X12_card_at_bounds s row col :
  triangular (rows (pyramid s)) ->
  (-7 <= row < 7 /\ - (row mod 7 + 1) <= col < row mod 7 + 1 ->
   exists o, card_at (pyramid s) row col = Ok o
             /\ card_at (pyramid s) (row mod 7) (col mod (row mod 7 + 1)) = Ok o)
  /\ (~ (-7 <= row < 7 /\ - (row mod 7 + 1) <= col < row mod 7 + 1) ->
      card_at (pyramid s) row col = Raise IndexError
      /\ get_card s ("pyramid", row, col) = Raise IndexError
      /\ remove_king s ("pyramid", row, col) = Raise IndexError).
Proof.
  intros Ht. pose proof (triangular_length _ Ht) as Hlen.
  assert (Hrow : -7 <= row < 7 ->
                 exists r, getitem (rows (pyramid s)) row = Ok r
                           /\ getitem (rows (pyramid s)) (row mod 7) = Ok r
                           /\ Z.of_nat (length r) = row mod 7 + 1).
  { intros Hr. pose proof (Z.mod_pos_bound row 7 ltac:(lia)) as Hm.
    destruct (triangular_row _ (Z.to_nat (row mod 7)) Ht) as (r & Hget & Hl); [lia|].
    exists r. unfold getitem. rewrite Hlen.
    rewrite (py_norm_in 7 row) by lia. rewrite (py_norm_in 7 (row mod 7)) by lia.
    change (Z.of_nat 7) with 7. rewrite Z.mod_mod by lia. rewrite Hget.
    repeat split. lia. }
  split.
  - intros (Hr & Hc). destruct (Hrow Hr) as (r & Hg1 & Hg2 & Hl).
    unfold card_at, grid_get. rewrite Hg1, Hg2. cbn [mbind result_mbind result_bind].
    pose proof (Z.mod_pos_bound col (row mod 7 + 1) ltac:(lia)) as Hm.
    unfold getitem. rewrite (py_norm_in (length r) col) by lia.
    rewrite (py_norm_in (length r) (col mod (row mod 7 + 1))) by lia.
    rewrite Hl, Z.mod_mod by lia.
    destruct (lookup_lt_is_Some_2 r (Z.to_nat (col mod (row mod 7 + 1)))) as (o & Ho);
      [lia|].
    rewrite Ho. eauto.
  - intros Hout.
    assert (Hraise : card_at (pyramid s) row col = Raise IndexError).
    { unfold card_at, grid_get.
      destruct (decide (-7 <= row < 7)) as [Hr|Hr].
      - destruct (Hrow Hr) as (r & Hg1 & _ & Hl). rewrite Hg1.
        cbn [mbind result_mbind result_bind]. unfold getitem.
        now rewrite py_norm_out by lia.
      - unfold getitem. rewrite Hlen. now rewrite py_norm_out by (simpl; lia). }
    split; [exact Hraise|]. split.
    + simpl. exact Hraise.
    + unfold remove_king. simpl. now rewrite Hraise.
Qed.

(** A negative column names the same cell as its positive alias, but
    is_exposed then looks one cell further right in the row below: for a
    cell (row, col) that is not the last of its row, is_exposed on column
    col - (row + 1) returns true iff the cell holds a card and the cells
    (row + 1, col + 1) and (row + 1, col + 2) are empty, whatever the cell
    (row + 1, col) directly below holds. *)
Theorem X13_is_exposed_negative_column p row col :
  triangular (rows p) -> 0 <= col < row -> row <= 5 ->
  is_exposed p row (col - (row + 1)) = Ok true
  <-> holds_card p row col
      /\ cell_empty p (row + 1) (col + 1) /\ cell_empty p (row + 1) (col + 2).
Proof.
  intros Ht Hc Hr. pose proof (triangular_length _ Ht) as Hlen.
  assert (Halias : forall r c, 0 <= r <= 6 -> - (r + 1) <= c < 0 ->
                     grid_get (rows p) r c = grid_get (rows p) r (c + (r + 1))).
  { intros r c Hr0 Hc0. unfold grid_get.
    destruct (triangular_row _ (Z.to_nat r) Ht) as (rw & Hget & Hl); [lia|].
    assert (Hg : getitem (rows p) r = Ok rw).
    { apply getitem_Ok. exists (Z.to_nat r). split; [|exact Hget].
      rewrite Hlen, <- (Z2Nat.id r) at 1 by lia. apply py_norm_nat. lia. }
    rewrite Hg. cbn [mbind result_mbind result_bind].
    rewrite getitem_neg by lia. f_equal. lia. }
  unfold is_exposed, holds_card, cell_empty, card_at.
  rewrite (Halias row (col - (row + 1))) by lia.
  rewrite (Halias (row + 1) (col - (row + 1))) by lia.
  rewrite (Halias (row + 1) (col - (row + 1) + 1)) by lia.
  replace (col - (row + 1) + (row + 1)) with col by lia.
  replace (col - (row + 1) + (row + 1 + 1)) with (col + 1) by lia.
  replace (col - (row + 1) + 1 + (row + 1 + 1)) with (col + 2) by lia.
  destruct (triangular_cell _ row col Ht) as (here & ->); [lia | lia |].
  destruct (triangular_cell _ (row + 1) (col + 1) Ht) as (l & ->); [lia | lia |].
  destruct (triangular_cell _ (row + 1) (col + 2) Ht) as (r & ->); [lia | lia |].
  cbn [mbind result_mbind result_bind]. rewrite Hlen.
  destruct here as [card|]; [|split; [discriminate | intros ((c0 & [=]) & _)]].
  destruct (Z.eqb_spec (col - (row + 1)) (Z.of_nat 7 - 1)) as [E|E]; [lia|].
  destruct (Z.eqb_spec row (Z.of_nat 7 - 1)) as [E'|E']; [lia|].
  destruct l as [cl|]; [split; [discriminate | intros (_ & [=] & _)]|].
  destruct r as [cr|]; simpl.
  - split; [discriminate | intros (_ & _ & [=])].
  - split; [eauto|reflexivity].
Qed.

(** ** The theorems above on concrete games *)

Lemma toy_run_reachable mr cmds :
  run cmds (toy_game mr) = Ok (toy_after mr cmds) ->
  reachable bool toy_seed toy_shuffle (toy_after mr cmds).
Proof. apply toy_after_reachable. Qed.

Lemma X1_undo_never_raises_witness :
  reachable bool toy_seed toy_shuffle (toy_after 0 [CDraw])
  /\ exists b s', undo (toy_after 0 [CDraw]) = Ok (b, s')
       /\ (b = true <-> history (toy_after 0 [CDraw]) <> [])
       /\ (b = false -> s' = toy_after 0 [CDraw])
       /\ (b = true -> length (history (toy_after 0 [CDraw])) = S (length (history s')))
       /\ reachable bool toy_seed toy_shuffle s'.
Proof.
  assert (Hr : reachable bool toy_seed toy_shuffle (toy_after 0 [CDraw]))
    by (apply toy_run_reachable; vm_compute; reflexivity).
  exact (conj Hr (X1_undo_never_raises bool toy_seed toy_shuffle toy_shuffle_perm _ Hr)).
Defined.


Lemma X3_redeals_within_limit_witness :
  let s := toy_after 1 [CDraw; CDraw; CRedeal; CRemoveKing ("pyramid", 6, 5)] in
  reachable bool toy_seed toy_shuffle s
  /\ redeals_used s = redeal_records (history s)
  /\ 0 <= redeals_used s
  /\ (0 <= max_redeals s -> redeals_used s <= max_redeals s).
Proof.
  intros s.
  assert (Hr : reachable bool toy_seed toy_shuffle s)
    by (apply toy_run_reachable; vm_compute; reflexivity).
  exact (conj Hr (X3_redeals_within_limit bool toy_seed toy_shuffle toy_shuffle_perm _ Hr)).
Defined.

Lemma X4_has_won_iff_cleared_witness :
  reachable bool toy_seed toy_shuffle (toy_game 0)
  /\ 0 <= removed_count (toy_game 0) <= 28
  /\ (has_won (toy_game 0) = true <-> occupied_cells (pyramid (toy_game 0)) = 0).
Proof.
  exact (conj (toy_game_reachable 0)
    (X4_has_won_iff_cleared bool toy_seed toy_shuffle toy_shuffle_perm _
       (toy_game_reachable 0))).
Defined.

Lemma X5_cards_conserved_witness :
  let s := toy_after 0 [CDraw; CRemovePair ("waste", 0, 0) ("pyramid", 6, 3)] in
  reachable bool toy_seed toy_shuffle s
  /\ pyramid_cards (pyramid s) ++ stock s ++ waste s ++ removed_cards (history s)
       ≡ₚ standard_deck
  /\ NoDup (pyramid_cards (pyramid s) ++ stock s ++ waste s).
Proof.
  intros s.
  assert (Hr : reachable bool toy_seed toy_shuffle s)
    by (apply toy_run_reachable; vm_compute; reflexivity).
  exact (conj Hr (X5_cards_conserved bool toy_seed toy_shuffle toy_shuffle_perm _ Hr)).
Defined.

Lemma X6_deal_layout_witness :
  reset bool toy_seed toy_shuffle (toy_game 0) false = Ok (toy_game 0)
  /\ triangular (rows (pyramid (toy_game 0)))
  /\ concat (rows (pyramid (toy_game 0)))
     = map Some (rev (drop 24 (Deck_init bool toy_seed toy_shuffle (seed (toy_game 0)) false)))
  /\ stock (toy_game 0)
     = take 24 (Deck_init bool toy_seed toy_shuffle (seed (toy_game 0)) false)
  /\ Deck_init bool toy_seed toy_shuffle (seed (toy_game 0)) false ≡ₚ standard_deck.
Proof.
  assert (H : reset bool toy_seed toy_shuffle (toy_game 0) false = Ok (toy_game 0))
    by (vm_compute; reflexivity).
  exact (conj H (X6_deal_layout bool toy_seed toy_shuffle toy_shuffle_perm _ _ _ H)).
Defined.

Lemma X8_remove_king_pyramid_witness :
  flags_ok (pyramid (toy_game 0))
  /\ card_at (pyramid (toy_game 0)) 6 5 = Ok (Some (mkCard RK SD))
  /\ value (mkCard RK SD) = 13
  /\ is_exposed (pyramid (toy_game 0)) 6 5 = Ok true
  /\ exists s', remove_king (toy_game 0) ("pyramid", 6, 5) = Ok (true, s')
       /\ card_at (pyramid s') 6 5 = Ok None
       /\ removed_count s' = removed_count (toy_game 0) + 1
       /\ stock s' = stock (toy_game 0) /\ waste s' = waste (toy_game 0)
       /\ history s' = history (toy_game 0) ++ [MRemoveKingPyramid 6 5 (mkCard RK SD)]
       /\ remove_king s' ("pyramid", 6, 5) = Ok (false, s').
Proof.
  assert (Hf : flags_ok (pyramid (toy_game 0))) by (vm_compute; reflexivity).
  assert (Hc : card_at (pyramid (toy_game 0)) 6 5 = Ok (Some (mkCard RK SD)))
    by (vm_compute; reflexivity).
  assert (Hk : value (mkCard RK SD) = 13) by reflexivity.
  assert (He : is_exposed (pyramid (toy_game 0)) 6 5 = Ok true)
    by (vm_compute; reflexivity).
  exact (conj Hf (conj Hc (conj Hk (conj He
    (X8_remove_king_pyramid _ 6 5 _ Hf Hc Hk He))))).
Defined.

Lemma X9_remove_pair_iff_witness :
  flags_ok (pyramid (toy_game 0))
  /\ ((exists s', remove_pair (toy_game 0) ("pyramid", 6, 6) ("pyramid", 6, 4) = Ok (true, s'))
      <-> ("pyramid", 6, 6) <> ("pyramid", 6, 4)
          /\ exists ca cb,
               get_card (toy_game 0) ("pyramid", 6, 6) = Ok (Some ca)
               /\ get_card (toy_game 0) ("pyramid", 6, 4) = Ok (Some cb)
               /\ value ca + value cb = 13
               /\ card_exposed (toy_game 0) ("pyramid", 6, 6) = Ok true
               /\ card_exposed (toy_game 0) ("pyramid", 6, 4) = Ok true).
Proof.
  assert (Hf : flags_ok (pyramid (toy_game 0))) by (vm_compute; reflexivity).
  exact (conj Hf (X9_remove_pair_iff _ ("pyramid", 6, 6) ("pyramid", 6, 4) Hf)).
Defined.

Lemma X10_redeal_then_draws_witness :
  let s := toy_after 1 [CDraw; CDraw] in
  redeal s = Ok (true, toy_after 1 [CDraw; CDraw; CRedeal])
  /\ exists s2, run (replicate (length (waste s)) CDraw)
                    (toy_after 1 [CDraw; CDraw; CRedeal]) = Ok s2
       /\ waste s2 = waste s /\ stock s2 = stock s /\ pyramid s2 = pyramid s
       /\ removed_count s2 = removed_count s.
Proof.
  intros s.
  assert (H : redeal s = Ok (true, toy_after 1 [CDraw; CDraw; CRedeal]))
    by (vm_compute; reflexivity).
  exact (conj H (X10_redeal_then_draws _ _ H)).
Defined.

(** A lost position: a 5 in the pyramid, a 2 on the waste, nothing else. *)
Lemma X11_legal_moves_exact_witness :
  let s := late_position (mkCard R5 SH) [mkCard R2 SC] in
  board_ok s
  /\ (legal_moves_remaining s = Ok true
      <-> exists cmd s', forward cmd /\ cmd_in_range cmd /\ exec cmd s = Ok (true, s')).
Proof.
  intros s.
  assert (Hb : board_ok s) by (repeat split; vm_compute; reflexivity).
  exact (conj Hb (X11_legal_moves_exact s Hb)).
Defined.

Lemma X12_card_at_bounds_witness :
  triangular (rows (pyramid (toy_game 0)))
  /\ (-7 <= -1 < 7 /\ - ((-1) mod 7 + 1) <= -1 < (-1) mod 7 + 1 ->
      exists o, card_at (pyramid (toy_game 0)) (-1) (-1) = Ok o
                /\ card_at (pyramid (toy_game 0)) ((-1) mod 7)
                           ((-1) mod ((-1) mod 7 + 1)) = Ok o)
  /\ (~ (-7 <= -1 < 7 /\ - ((-1) mod 7 + 1) <= -1 < (-1) mod 7 + 1) ->
      card_at (pyramid (toy_game 0)) (-1) (-1) = Raise IndexError
      /\ get_card (toy_game 0) ("pyramid", -1, -1) = Raise IndexError
      /\ remove_king (toy_game 0) ("pyramid", -1, -1) = Raise IndexError).
Proof.
  assert (Ht : triangular (rows (pyramid (toy_game 0)))) by (vm_compute; reflexivity).
  exact (conj Ht (X12_card_at_bounds (toy_game 0) (-1) (-1) Ht)).
Defined.

(** With K♦, Q♦ + A♥ and then 7♥ + 6♥ removed, the King of hearts at (4, 3)
    is still covered by the 8 of hearts at (5, 3), yet the location
    (4, -2) reports it exposed and remove_king takes it. *)
Lemma X13_is_exposed_negative_column_witness :
  let s := toy_after 0 [CRemoveKing ("pyramid", 6, 5);
                        CRemovePair ("pyramid", 6, 6) ("pyramid", 6, 4);
                        CRemovePair ("pyramid", 5, 4) ("pyramid", 5, 5)] in
  triangular (rows (pyramid s)) /\ 0 <= 3 < 4 /\ 4 <= 5
  /\ (is_exposed (pyramid s) 4 (3 - (4 + 1)) = Ok true
      <-> holds_card (pyramid s) 4 3
          /\ cell_empty (pyramid s) (4 + 1) (3 + 1)
          /\ cell_empty (pyramid s) (4 + 1) (3 + 2)).
Proof.
  intros s.
  assert (Ht : triangular (rows (pyramid s))) by (vm_compute; reflexivity).
  assert (Hc : 0 <= 3 < 4) by lia.
  assert (Hr : 4 <= 5) by lia.
  exact (conj Ht (conj Hc (conj Hr (X13_is_exposed_negative_column _ 4 3 Ht Hc Hr)))).
Defined.

Example covered_king_removed_by_negative_column :
  let s := toy_after 0 [CRemoveKing ("pyramid", 6, 5);
                        CRemovePair ("pyramid", 6, 6) ("pyramid", 6, 4);
                        CRemovePair ("pyramid", 5, 4) ("pyramid", 5, 5)] in
  card_at (pyramid s) 5 3 = Ok (Some (mkCard R8 SH))
  /\ is_exposed (pyramid s) 4 3 = Ok false
  /\ is_exposed (pyramid s) 4 (-2) = Ok true
  /\ exists s', remove_king s ("pyramid", 4, -2) = Ok (true, s')
                /\ card_at (pyramid s') 4 3 = Ok None.
Proof.
  repeat split; try (vm_compute; reflexivity).
  eexists. split; vm_compute; reflexivity.
Qed.

(** * The game window *)

(** ** Which rectangle a click falls in *)

Lemma collidepoint_spec (r : Rect) (px py : Z) :
  collidepoint r (px, py) = true <->
  rect_x r <= px < rect_x r + rect_w r /\ rect_y r <= py < rect_y r + rect_h r.
Proof.
  unfold collidepoint. rewrite !andb_true_iff, !Z.leb_le, !Z.ltb_lt. tauto.
Qed.

Lemma cell_rect_eq (width row col : Z) :
  cell_rect width row col
  = mkRect (width / 2 - 90 - 57 * row + 114 * col) (120 + 164 * row) 90 130.
Proof.
  unfold cell_rect, CARD_WIDTH, CARD_HEIGHT, CARD_SPACING_X, CARD_SPACING_Y.
  f_equal; [|lia].
  replace (90 + (90 + 24) * row) with (45 * 2 + row * 57 * 2) by lia.
  rewrite <- Z.mul_add_distr_r, Z.div_mul by lia.
  change (90 / 2) with 45. lia.
Qed.


Lemma pyramid_click_target_In width position cells r c card :
  pyramid_click_target width position cells = Some (r, c, card) ->
  In (r, c, Some card) cells /\ collidepoint (cell_rect width r c) position = true.
Proof.
  induction cells as [|[[r0 c0] [card0|]] cells IH]; simpl; [discriminate| |].
  - destruct (collidepoint (cell_rect width r0 c0) position) eqn:E.
    + intros [= -> -> ->]. auto.
    + intros H. destruct (IH H). auto.
  - intros H. destruct (IH H). auto.
Qed.




Example click_on_ace_of_hearts :
  pyramid_click_target 900 (500, 1200) (all_cards (pyramid (toy_game 0)))
  = Some (6, 4, mkCard RA SH).
Proof. vm_compute. reflexivity. Qed.



(** ** The layout of the window *)

Lemma update_buttons_In width name r :
  In (name, r) (update_buttons width) ->
  rect_x r = width - 170 /\ rect_w r = 150 /\ rect_h r = 40
  /\ ((name = "Undo" /\ rect_y r = 120) \/ (name = "Redeal" /\ rect_y r = 170)
      \/ (name = "New Game" /\ rect_y r = 220)).
Proof.
  unfold update_buttons, BUTTON_WIDTH, BUTTON_HEIGHT. simpl.
  intros [[= <- <-]|[[= <- <-]|[[= <- <-]|[]]]]; simpl; repeat split; auto; lia.
Qed.

(** In a window at least 748 pixels wide the stock, the waste, the three
    buttons and the 28 cells are pairwise disjoint: a position lies in the
    rectangle of at most one of them. *)
Theorem X16_targets_disjoint width position t1 t2 :
  748 <= width -> target_ok width t1 -> target_ok width t2 ->
  collidepoint (target_rect width t1) position = true ->
  collidepoint (target_rect width t2) position = true ->
  t1 = t2.
Proof.
  intros Hw Hok1 Hok2 H1 H2. destruct position as [px py].
  apply collidepoint_spec in H1 as (Hx1 & Hy1).
  apply collidepoint_spec in H2 as (Hx2 & Hy2).
  assert (Hhalf : 374 <= width / 2 /\ width / 2 <= width - 374).
  { pose proof (Z.div_mod width 2 ltac:(lia)).
    pose proof (Z.mod_pos_bound width 2 ltac:(lia)). lia. }
  destruct t1 as [| |n1 b1|r1 c1], t2 as [| |n2 b2|r2 c2];
    cbn [target_rect target_ok] in *;
    rewrite ?cell_rect_eq in *;
    unfold stock_rect, waste_rect, CARD_WIDTH, CARD_HEIGHT, CARD_SPACING_X in *;
    cbn [rect_x rect_y rect_w rect_h] in *;
    repeat match goal with
    | H : In (_, _) (update_buttons _) |- _ =>
        apply update_buttons_In in H; destruct H as (? & ? & ? & ?)
    end;
    try reflexivity; try (exfalso; lia).
  - (* two buttons *)
    destruct b1 as [x1 y1 w1 h1], b2 as [x2 y2 w2 h2]; simpl in *; subst.
    repeat match goal with H : _ \/ _ |- _ => destruct H as [(-> & ->)|H] end;
      repeat match goal with H : _ /\ _ |- _ => destruct H as (-> & ->) end;
      try reflexivity; exfalso; lia.
  - (* two cells *)
    assert (r1 = r2) as -> by lia. assert (c1 = c2) as -> by lia. reflexivity.
Qed.

Lemma X16_targets_disjoint_witness :
  748 <= 900 /\ target_ok 900 TWaste /\ target_ok 900 TWaste
  /\ collidepoint (target_rect 900 TWaste) (200, 130) = true
  /\ collidepoint (target_rect 900 TWaste) (200, 130) = true
  /\ TWaste = TWaste.
Proof.
  assert (Hw : 748 <= 900) by lia.
  assert (Hc : collidepoint (target_rect 900 TWaste) (200, 130) = true) by reflexivity.
  exact (conj Hw (conj I (conj I (conj Hc (conj Hc
    (X16_targets_disjoint 900 (200, 130) TWaste TWaste Hw I I Hc Hc)))))).
Defined.

(** The card at the apex of the pyramid overlaps the stock or the waste
    exactly for the window widths 162 to 747, among them every width from
    the minimum 640 of the command line up to 747. *)
Theorem X17_apex_overlaps_piles width :
  (exists position,
      collidepoint (cell_rect width 0 0) position = true
      /\ (collidepoint stock_rect position = true
          \/ collidepoint waste_rect position = true))
  <-> 162 <= width <= 747.
Proof.
  pose proof (Z.div_mod width 2 ltac:(lia)) as Hd.
  pose proof (Z.mod_pos_bound width 2 ltac:(lia)) as Hm.
  rewrite cell_rect_eq. unfold stock_rect, waste_rect, CARD_WIDTH, CARD_HEIGHT,
    CARD_SPACING_X. split.
  - intros ([px py] & Hc & Hp). apply collidepoint_spec in Hc. simpl in Hc.
    destruct Hp as [Hp|Hp]; apply collidepoint_spec in Hp; simpl in Hp; lia.
  - intros Hw. destruct (Z.lt_ge_cases (width / 2) 260) as [Hlt|Hge].
    + exists (Z.max 80 (width / 2 - 90), 120). split.
      * apply collidepoint_spec. simpl. lia.
      * left. apply collidepoint_spec. simpl. lia.
    + exists (Z.max 194 (width / 2 - 90), 120). split.
      * apply collidepoint_spec. simpl. lia.
      * right. apply collidepoint_spec. simpl. lia.
Qed.

(** ** The handlers never raise *)

Lemma draw_returns s : exists b s', draw s = Ok (b, s').
Proof. unfold draw. destruct (py_pop (stock s)) as [[c st]|]; eauto. Qed.

Lemma redeal_returns s : exists b s', redeal s = Ok (b, s').
Proof.
  unfold redeal. destruct (redeals_used s >=? max_redeals s); [eauto|].
  destruct (bool_decide (waste s = [])); eauto.
Qed.

Lemma get_card_returns s loc :
  triangular (rows (pyramid s)) -> loc_in_range loc -> exists o, get_card s loc = Ok o.
Proof.
  intros Ht Hin. destruct loc as [[loc_type a] b]. unfold get_card, loc_in_range in *.
  destruct (String.eqb_spec loc_type "pyramid") as [->|Hp].
  - destruct (Hin eq_refl) as (Hb & Ha). now apply triangular_cell.
  - destruct (String.eqb loc_type "waste"); [|eauto].
    destruct (negb (bool_decide (waste s = [])) && (a =? Z.of_nat (length (waste s)) - 1));
      eauto.
Qed.

Lemma card_exposed_returns s loc :
  triangular (rows (pyramid s)) -> loc_in_range loc ->
  exists b, card_exposed s loc = Ok b.
Proof.
  intros Ht Hin. destruct loc as [[loc_type a] b]. unfold card_exposed, loc_in_range in *.
  destruct (String.eqb_spec loc_type "pyramid") as [->|Hp].
  - destruct (Hin eq_refl) as (Hb & Ha). now apply is_exposed_returns.
  - destruct (String.eqb loc_type "waste"); eauto.
Qed.

Lemma remove_king_returns s loc :
  board_ok s -> loc_in_range loc -> exists b s', remove_king s loc = Ok (b, s').
Proof.
  intros (Ht & Hf & _) Hin. destruct loc as [[loc_type a] b].
  unfold remove_king, loc_in_range in *.
  destruct (String.eqb_spec loc_type "pyramid") as [->|Hp].
  - destruct (Hin eq_refl) as (Hb & Ha).
    destruct (triangular_cell _ a b Ht Hb Ha) as (o & Ho). unfold card_at. rewrite Ho.
    cbn [mbind result_mbind result_bind]. destruct o as [c|]; [|eauto].
    destruct (value c =? 13); [|eauto].
    destruct (is_exposed_returns _ a b Ht Hb Ha) as (e & ->).
    cbn [mbind result_mbind result_bind]. destruct e; [|eauto].
    destruct (remove_card_total _ _ _ _ Hf Ho) as (p' & Hrc).
    unfold remove_pyramid_card. rewrite Hrc. simpl. eauto.
  - destruct (String.eqb loc_type "waste" && negb (bool_decide (waste s = []))); [|eauto].
    destruct (py_pop (waste s)) as [[c w]|]; [|eauto].
    destruct (value c =? 13); eauto.
Qed.

Lemma remove_pair_returns s first second :
  board_ok s -> loc_in_range first -> loc_in_range second ->
  exists b s', remove_pair s first second = Ok (b, s').
Proof.
  intros (Ht & Hf & _) Hin1 Hin2.
  destruct (get_card_returns s first Ht Hin1) as (oa & Ha).
  destruct (get_card_returns s second Ht Hin2) as (ob & Hb).
  destruct (card_exposed_returns s first Ht Hin1) as (ea & Hea).
  destruct (card_exposed_returns s second Ht Hin2) as (eb & Heb).
  destruct (decide (first = second)) as [Heq|Hne].
  { unfold remove_pair. rewrite bool_decide_true by exact Heq. eauto. }
  destruct oa as [ca|], ob as [cb|];
    try (unfold remove_pair; rewrite bool_decide_false by exact Hne;
         rewrite Ha, Hb; cbn [mbind result_mbind result_bind]; eauto; fail).
  destruct (Z.eqb_spec (value ca + value cb) 13) as [Hsum|Hsum].
  - destruct ea, eb;
      try (unfold remove_pair; rewrite bool_decide_false by exact Hne;
           rewrite Ha, Hb; cbn [mbind result_mbind result_bind];
           apply Z.eqb_eq in Hsum as ->; simpl; rewrite Hea;
           cbn [mbind result_mbind result_bind negb]; rewrite ?Heb;
           cbn [mbind result_mbind result_bind negb]; eauto; fail).
    destruct (remove_pair_Ok s first second ca cb Hf Hne Ha Hb Hsum Hea Heb) as (s' & H).
    eauto.
  - unfold remove_pair. rewrite bool_decide_false by exact Hne. rewrite Ha, Hb.
    cbn [mbind result_mbind result_bind]. apply Z.eqb_neq in Hsum as ->. simpl. eauto.
Qed.

Section UISafety.

Variable RandomState : Type.
Variable Random_seed : Z -> RandomState.
Variable shuffle : RandomState -> list Card -> list Card.
Hypothesis shuffle_perm : forall g l, Permutation (shuffle g l) l.

Lemma reachable_board_ok s :
  reachable RandomState Random_seed shuffle s -> board_ok s.
Proof.
  intros Hr. now destruct (played_inv _ _ _ shuffle_perm _
                             (reachable_played _ _ _ shuffle_perm s Hr)).
Qed.

Lemma undo_returns s :
  reachable RandomState Random_seed shuffle s -> exists b s', undo s = Ok (b, s').
Proof.
  intros Hr. pose proof (reachable_played _ _ _ shuffle_perm s Hr) as Hp.
  inversion Hp as [s0 os s1 H | s0 cmd s1 Hp0 Hfw H]; subst.
  - apply (reset_inv _ _ _ shuffle_perm) in H as (_ & _ & Hh & _).
    rewrite (undo_empty _ Hh). eauto.
  - destruct (played_inv _ _ _ shuffle_perm _ Hp0) as ((_ & Hf & _) & _).
    rewrite (undo_exec _ _ _ Hf Hfw H). eauto.
Qed.

Lemma ui_ok_cleared (g g' : Game) :
  reachable RandomState Random_seed shuffle (state g') -> selection g' = None ->
  ui_ok Random_seed shuffle g'.
Proof. intros Hr Hs. split; [exact Hr|]. intros loc. rewrite Hs. discriminate. Qed.

Lemma ui_ok_same g g' :
  ui_ok Random_seed shuffle g -> state g' = state g -> selection g' = selection g ->
  ui_ok Random_seed shuffle g'.
Proof.
  intros (Hr & Hs) Hst Hsel. split; [now rewrite Hst|].
  intros loc. rewrite Hsel, Hst. apply Hs.
Qed.

(** After a command the game is sound again when the selection is dropped
    on success and kept on failure. *)
Lemma ui_ok_after g cmd b s' g' :
  ui_ok Random_seed shuffle g -> exec cmd (state g) = Ok (b, s') ->
  state g' = s' ->
  (selection g' = None \/ (b = false /\ selection g' = selection g)) ->
  ui_ok Random_seed shuffle g'.
Proof.
  intros Hok H Hst [Hsel|(-> & Hsel)].
  - apply (ui_ok_cleared g); [|exact Hsel]. rewrite Hst.
    destruct Hok as (Hr & _). eapply reach_exec; eassumption.
  - apply exec_false in H as ->. eapply ui_ok_same; eassumption.
Qed.

Lemma handle_stock_click_ok g position :
  ui_ok Random_seed shuffle g ->
  exists b g', handle_stock_click g position = Ok (b, g') /\ ui_ok Random_seed shuffle g'.
Proof.
  intros Hok. unfold handle_stock_click.
  destruct (collidepoint stock_rect position); [|eauto].
  destruct (draw_returns (state g)) as (drawn & s1 & Hd). rewrite Hd.
  cbn [mbind result_mbind result_bind].
  assert (Hok1 : ui_ok Random_seed shuffle (set_selection (set_state g s1) None)).
  { eapply (ui_ok_after g CDraw); [exact Hok | exact Hd | reflexivity | now left]. }
  destruct drawn; simpl.
  - eexists _, _. split; [reflexivity|]. eapply ui_ok_same; [exact Hok1| |]; reflexivity.
  - destruct (redeal_returns s1) as (redealt & s2 & Hre). rewrite Hre.
    cbn [mbind result_mbind result_bind].
    assert (Hok2 : ui_ok Random_seed shuffle (set_selection (set_state g s2) None)).
    { eapply (ui_ok_after (set_selection (set_state g s1) None) CRedeal);
        [exact Hok1 | exact Hre | reflexivity | now left]. }
    destruct redealt; simpl; eexists _, _; (split; [reflexivity|]);
      (eapply ui_ok_same; [exact Hok2| |]; reflexivity).
Qed.

Lemma handle_waste_click_ok g position :
  ui_ok Random_seed shuffle g ->
  exists b g', handle_waste_click g position = Ok (b, g') /\ ui_ok Random_seed shuffle g'.
Proof.
  intros Hok. pose proof Hok as (Hr & Hsel).
  pose proof (reachable_board_ok _ Hr) as Hb. pose proof Hb as (Ht & _).
  unfold handle_waste_click.
  destruct (bool_decide_reflect (waste (state g) = [])) as [Hw|Hw]; [eauto|].
  destruct (collidepoint waste_rect position); [|eauto].
  set (location := ("waste", Z.of_nat (length (waste (state g))) - 1, 0) : Location).
  assert (Hin : loc_in_range location) by (intros [=]).
  assert (Hget : get_card (state g) location = Ok (py_top (waste (state g)))).
  { unfold get_card, location. simpl. rewrite bool_decide_false by exact Hw.
    now rewrite Z.eqb_refl. }
  assert (Hexp : card_exposed (state g) location = Ok true).
  { unfold card_exposed, location. simpl. rewrite bool_decide_false by exact Hw.
    now rewrite Z.eqb_refl. }
  rewrite Hget. cbn [mbind result_mbind result_bind].
  destruct (py_top (waste (state g))) as [card|] eqn:Etop; [|eauto].
  destruct (value card =? 13).
  - destruct (remove_king_returns _ location Hb Hin) as (rk & s1 & Hrk). rewrite Hrk.
    cbn [mbind result_mbind result_bind].
    destruct rk; eexists _, _; (split; [reflexivity|]);
      eapply (ui_ok_after g (CRemoveKing location)); try exact Hrk; try exact Hok;
        try reflexivity; [now left | right; split; reflexivity].
  - destruct (selection g) as [sel|] eqn:Esel.
    + destruct (bool_decide (sel = location)).
      * eexists _, _. split; [reflexivity|]. apply (ui_ok_cleared g); [exact Hr | reflexivity].
      * destruct (Hsel sel Esel) as (Hin_sel & _).
        destruct (remove_pair_returns _ sel location Hb Hin_sel Hin) as (rp & s1 & Hrp).
        rewrite Hrp. cbn [mbind result_mbind result_bind].
        eexists _, _. split; [reflexivity|].
        eapply (ui_ok_after g (CRemovePair sel location)); [exact Hok | exact Hrp | |].
        -- destruct rp; reflexivity.
        -- left. destruct rp; reflexivity.
    + rewrite Hexp. cbn [mbind result_mbind result_bind].
      eexists _, _. split; [reflexivity|]. split; [exact Hr|].
      intros loc [= <-]. split; [exact Hin|]. exists card. split; [|exact Hexp].
      simpl state. rewrite Hget. reflexivity.
Qed.

Lemma handle_pyramid_click_ok g width position :
  ui_ok Random_seed shuffle g ->
  exists b g', handle_pyramid_click g width position = Ok (b, g')
               /\ ui_ok Random_seed shuffle g'.
Proof.
  intros Hok. pose proof Hok as (Hr & Hsel).
  pose proof (reachable_board_ok _ Hr) as Hb. pose proof Hb as (Ht & _).
  unfold handle_pyramid_click.
  destruct (pyramid_click_target width position (all_cards (pyramid (state g))))
    as [[[r c] card]|] eqn:Etarget; [|eauto].
  apply pyramid_click_target_In in Etarget as (Hcell & _).
  apply (all_cards_cell _ _ _ _ Ht) in Hcell as (Hc & Hrow & Hcard).
  assert (Hin : loc_in_range ("pyramid", r, c)) by (intros _; auto).
  destruct (is_exposed_returns _ r c Ht Hc Hrow) as (e & He). rewrite He.
  cbn [mbind result_mbind result_bind].
  destruct e; simpl negb; cbv iota.
  2:{ eexists _, _. split; [reflexivity|]. eapply ui_ok_same; [exact Hok| |]; reflexivity. }
  destruct (value card =? 13).
  - destruct (remove_king_returns _ ("pyramid", r, c) Hb Hin) as (rk & s1 & Hrk).
    rewrite Hrk. cbn [mbind result_mbind result_bind].
    destruct rk; eexists _, _; (split; [reflexivity|]);
      eapply (ui_ok_after g (CRemoveKing ("pyramid", r, c))); try exact Hrk;
        try exact Hok; try reflexivity; [now left | right; split; reflexivity].
  - destruct (selection g) as [sel|] eqn:Esel.
    + destruct (bool_decide (sel = ("pyramid", r, c))).
      * eexists _, _. split; [reflexivity|]. apply (ui_ok_cleared g); [exact Hr | reflexivity].
      * destruct (Hsel sel Esel) as (Hin_sel & _).
        destruct (remove_pair_returns _ sel ("pyramid", r, c) Hb Hin_sel Hin)
          as (rp & s1 & Hrp).
        rewrite Hrp. cbn [mbind result_mbind result_bind].
        eexists _, _. split; [reflexivity|].
        eapply (ui_ok_after g (CRemovePair sel ("pyramid", r, c)));
          [exact Hok | exact Hrp | |].
        -- destruct rp; reflexivity.
        -- left. destruct rp; reflexivity.
    + eexists _, _. split; [reflexivity|]. split; [exact Hr|].
      intros loc [= <-]. split; [exact Hin|]. exists card. split.
      * exact Hcard.
      * exact He.
Qed.

Lemma handle_button_ok g name os :
  ui_ok Random_seed shuffle g ->
  exists g', handle_button RandomState Random_seed shuffle g name os = Ok g'
             /\ ui_ok Random_seed shuffle g'.
Proof.
  intros Hok. pose proof Hok as (Hr & Hsel). unfold handle_button.
  destruct (String.eqb name "Undo").
  { destruct (undo_returns _ Hr) as (b & s1 & Hu). rewrite Hu.
    cbn [mbind result_mbind result_bind].
    destruct b; simpl; eexists; (split; [reflexivity|]);
      eapply (ui_ok_after g CUndo); try exact Hu; try exact Hok; try reflexivity;
        [now left | right; split; reflexivity]. }
  destruct (String.eqb name "Redeal").
  { destruct (redeal_returns (state g)) as (b & s1 & Hre). rewrite Hre.
    cbn [mbind result_mbind result_bind].
    destruct b; simpl; eexists; (split; [reflexivity|]);
      eapply (ui_ok_after g CRedeal); try exact Hre; try exact Hok; try reflexivity;
        [now left | right; split; reflexivity]. }
  destruct (String.eqb name "New Game"); [|eauto].
  destruct (reset_Ok RandomState Random_seed shuffle shuffle_perm (state g) os) as (s1 & Hreset & _).
  rewrite Hreset. cbn [mbind result_mbind result_bind].
  eexists. split; [reflexivity|]. apply (ui_ok_cleared g); [|reflexivity].
  simpl. eapply reach_reset; eassumption.
Qed.

Lemma check_end_conditions_ok g :
  ui_ok Random_seed shuffle g ->
  exists g', check_end_conditions g = Ok g' /\ ui_ok Random_seed shuffle g'.
Proof.
  intros Hok. pose proof Hok as (Hr & Hsel).
  pose proof (reachable_board_ok _ Hr) as (Ht & _). unfold check_end_conditions.
  destruct (negb (game_over g) && has_won (state g)).
  { eexists. split; [reflexivity|]. eapply ui_ok_same; [exact Hok| |]; reflexivity. }
  destruct (negb (game_over g)); [|eauto].
  destruct (legal_moves_iff _ Ht) as (b & -> & _).
  cbn [mbind result_mbind result_bind].
  destruct b; simpl; [eauto|].
  eexists. split; [reflexivity|]. eapply ui_ok_same; [exact Hok| |]; reflexivity.
Qed.

(** Whatever the player clicks, in whatever order, no handler raises: a
    game whose state is reachable and whose selection, if any, is a pyramid
    cell or the waste top holding an exposed card is taken by every button
    press, every click on the stock, the waste or the pyramid, and every end
    check to a game of that kind. *)
Theorem X18_handlers_never_raise g e :
  ui_ok Random_seed shuffle g ->
  exists g', handle RandomState Random_seed shuffle g e = Ok g'
             /\ ui_ok Random_seed shuffle g'.
Proof.
  intros Hok. destruct e as [name os|position|position|width position|]; simpl.
  - now apply handle_button_ok.
  - destruct (handle_stock_click_ok g position Hok) as (b & g' & -> & Hok'). simpl. eauto.
  - destruct (handle_waste_click_ok g position Hok) as (b & g' & -> & Hok'). simpl. eauto.
  - destruct (handle_pyramid_click_ok g width position Hok) as (b & g' & -> & Hok').
    simpl. eauto.
  - now apply check_end_conditions_ok.
Qed.

End UISafety.

Lemma X18_handlers_never_raise_witness :
  ui_ok toy_seed toy_shuffle (Game_init (toy_game 0))
  /\ exists g',
       handle bool toy_seed toy_shuffle (Game_init (toy_game 0))
         (EPyramidClick bool 900 (500, 1200)) = Ok g'
       /\ ui_ok toy_seed toy_shuffle g'.
Proof.
  assert (Hok : ui_ok toy_seed toy_shuffle (Game_init (toy_game 0))).
  { split; [apply toy_game_reachable | intros loc [=]]. }
  exact (conj Hok
    (X18_handlers_never_raise bool toy_seed toy_shuffle toy_shuffle_perm _
       (EPyramidClick bool 900 (500, 1200)) Hok)).
Defined.

(** ** Two clicks remove a pair *)

Lemma value_range (c : Card) : 1 <= value c <= 13.
Proof. destruct c as [[] ?]; cbn; lia. Qed.

(** With nothing selected, a click on an exposed card of the pyramid and
    then a click on another exposed card of the pyramid, the two values
    adding up to 13, do what remove_pair does on the two cells: the state is
    the one remove_pair returns, the selection is dropped, the game is not
    over, and the one message shown is Pair removed. *)
Theorem X19_two_clicks_remove_pair g width pos1 pos2 r1 c1 r2 c2 a b :
  board_ok (state g) -> selection g = None ->
  pyramid_click_target width pos1 (all_cards (pyramid (state g))) = Some (r1, c1, a) ->
  pyramid_click_target width pos2 (all_cards (pyramid (state g))) = Some (r2, c2, b) ->
  is_exposed (pyramid (state g)) r1 c1 = Ok true ->
  is_exposed (pyramid (state g)) r2 c2 = Ok true ->
  value a + value b = 13 ->
  exists s',
    remove_pair (state g) ("pyramid", r1, c1) ("pyramid", r2, c2) = Ok (true, s')
    /\ ('(_, g1) ← handle_pyramid_click g width pos1; handle_pyramid_click g1 width pos2)
       = Ok (true, {| state := s'; selection := None; game_over := false;
                      messages := messages g ++ ["Pair removed"] |}).
Proof.
  intros (Ht & Hf & _) Hsel H1 H2 He1 He2 Hsum.
  pose proof (value_range a) as Hva. pose proof (value_range b) as Hvb.
  pose proof H1 as H1'. pose proof H2 as H2'.
  apply pyramid_click_target_In in H1' as (Hin1 & _).
  apply pyramid_click_target_In in H2' as (Hin2 & _).
  apply (all_cards_cell _ _ _ _ Ht) in Hin1 as (_ & _ & Ha).
  apply (all_cards_cell _ _ _ _ Ht) in Hin2 as (_ & _ & Hb).
  assert (Hne : ("pyramid", r1, c1) <> (("pyramid", r2, c2) : Location)).
  { intros [= -> ->]. rewrite Ha in Hb. injection Hb as ->. lia. }
  destruct (remove_pair_Ok (state g) ("pyramid", r1, c1) ("pyramid", r2, c2) a b
              Hf Hne Ha Hb Hsum He1 He2) as (s' & Hrp).
  exists s'. split; [exact Hrp|].
  assert (Hfirst : handle_pyramid_click g width pos1
                   = Ok (true, set_selection g (Some ("pyramid", r1, c1)))).
  { unfold handle_pyramid_click. rewrite H1, He1.
    cbn [mbind result_mbind result_bind negb].
    rewrite (proj2 (Z.eqb_neq (value a) 13)) by lia. now rewrite Hsel. }
  rewrite Hfirst. cbn [mbind result_mbind result_bind].
  unfold handle_pyramid_click. cbn [state selection set_selection].
  rewrite H2, He2. cbn [mbind result_mbind result_bind negb].
  rewrite (proj2 (Z.eqb_neq (value b) 13)) by lia.
  rewrite bool_decide_false by exact Hne. rewrite Hrp. reflexivity.
Qed.

Lemma X19_two_clicks_remove_pair_witness :
  let g := Game_init (toy_game 0) in
  board_ok (state g) /\ selection g = None
  /\ pyramid_click_target 900 (500, 1200) (all_cards (pyramid (state g)))
     = Some (6, 4, mkCard RA SH)
  /\ pyramid_click_target 900 (710, 1200) (all_cards (pyramid (state g)))
     = Some (6, 6, mkCard RQ SD)
  /\ is_exposed (pyramid (state g)) 6 4 = Ok true
  /\ is_exposed (pyramid (state g)) 6 6 = Ok true
  /\ value (mkCard RA SH) + value (mkCard RQ SD) = 13
  /\ exists s',
       remove_pair (state g) ("pyramid", 6, 4) ("pyramid", 6, 6) = Ok (true, s')
       /\ ('(_, g1) ← handle_pyramid_click g 900 (500, 1200);
           handle_pyramid_click g1 900 (710, 1200))
          = Ok (true, {| state := s'; selection := None; game_over := false;
                         messages := messages g ++ ["Pair removed"] |}).
Proof.
  intros g.
  assert (Hb : board_ok (state g)).
  { exact (reachable_board_ok bool toy_seed toy_shuffle toy_shuffle_perm _
             (toy_game_reachable 0)). }
  assert (H1 : pyramid_click_target 900 (500, 1200) (all_cards (pyramid (state g)))
               = Some (6, 4, mkCard RA SH)) by (vm_compute; reflexivity).
  assert (H2 : pyramid_click_target 900 (710, 1200) (all_cards (pyramid (state g)))
               = Some (6, 6, mkCard RQ SD)) by (vm_compute; reflexivity).
  assert (He1 : is_exposed (pyramid (state g)) 6 4 = Ok true) by (vm_compute; reflexivity).
  assert (He2 : is_exposed (pyramid (state g)) 6 6 = Ok true) by (vm_compute; reflexivity).
  assert (Hsum : value (mkCard RA SH) + value (mkCard RQ SD) = 13) by reflexivity.
  exact (conj Hb (conj eq_refl (conj H1 (conj H2 (conj He1 (conj He2 (conj Hsum
    (X19_two_clicks_remove_pair g 900 (500, 1200) (710, 1200) 6 4 6 6 _ _
       Hb eq_refl H1 H2 He1 He2 Hsum)))))))).
Defined.

(** ** The end of the game is announced once *)

(** The end check never raises and touches neither the state nor the
    selection. It leaves the game over exactly when it was over already, or
    the pyramid is cleared, or no move is left; it shows a message only when
    it ends the game; a game that is over it returns as it is, so a second
    check right after the first changes nothing. *)
Theorem X20_end_announced_once g :
  triangular (rows (pyramid (state g))) ->
  exists g', check_end_conditions g = Ok g'
    /\ state g' = state g /\ selection g' = selection g
    /\ (game_over g' = true <->
        game_over g = true \/ has_won (state g) = true \/ ~ legal_moves_spec (state g))
    /\ (messages g' = messages g
        \/ (game_over g = false /\ game_over g' = true
            /\ exists text, messages g' = messages g ++ [text]))
    /\ (game_over g = true -> g' = g)
    /\ check_end_conditions g' = Ok g'.
Proof.
  intros Ht. destruct (legal_moves_iff _ Ht) as (legal & Hl & Hspec).
  unfold check_end_conditions.
  destruct (game_over g) eqn:Eover; cbn [negb andb].
  { exists g. rewrite Eover. cbn [negb andb]. repeat split; auto. }
  destruct (has_won (state g)) eqn:Ewon.
  { eexists. split; [reflexivity|]. cbn. repeat split; auto.
    - right. repeat split; eauto.
    - discriminate. }
  rewrite Hl. cbn [mbind result_mbind result_bind]. destruct legal; cbn [negb].
  - exists g. rewrite Eover, Ewon, Hl. cbn. repeat split; auto; try discriminate.
    intros [H|[H|H]]; try discriminate. destruct H. now apply Hspec.
  - eexists. split; [reflexivity|]. cbn. repeat split; auto.
    + intros _. right. right. intros H. apply Hspec in H. discriminate.
    + right. repeat split; eauto.
    + discriminate.
Qed.

Lemma X20_end_announced_once_witness :
  let g := Game_init (toy_game 0) in
  triangular (rows (pyramid (state g)))
  /\ exists g', check_end_conditions g = Ok g'
       /\ state g' = state g /\ selection g' = selection g
       /\ (game_over g' = true <->
           game_over g = true \/ has_won (state g) = true
           \/ ~ legal_moves_spec (state g))
       /\ (messages g' = messages g
           \/ (game_over g = false /\ game_over g' = true
               /\ exists text, messages g' = messages g ++ [text]))
       /\ (game_over g = true -> g' = g)
       /\ check_end_conditions g' = Ok g'.
Proof.
  intros g.
  assert (Ht : triangular (rows (pyramid (state g)))) by (vm_compute; reflexivity).
  exact (conj Ht (X20_end_announced_once g Ht)).
Defined.
